(** * pathlib: a Path value over the host filesystem

    Shallow embedding of [path.go] (package [pathlib]).  A [Path] is a Go
    string, that is a sequence of bytes; it is modelled as a [string] of the
    Standard Library (a list of 8-bit characters).  The functions of Go's
    standard library that [path.go] calls ([strings.TrimSpace],
    [strings.Contains], [filepath.Ext], [filepath.Clean], [filepath.Join],
    [filepath.Abs], [filepath.Glob], ...) are modelled in modules named after
    their packages, in their Unix build (separator [/], no volume names).

    The operating system is a parameter: the class [os.Host] lists the calls
    that reach it, over a state that is passed along, and the methods of
    [Path] are functions over any host.  Three hosts are defined: a small
    filesystem in memory, one that refuses every access, and one that holds
    a symbolic link to a missing target.

    The file has two parts: the definitions, then the facts, with the
    statements on [WithSuffix], [JoinPath], the queries, [Resolve], [Mkdir],
    [OpenWithPermissions] and [WriteBytes], and then those on [Name],
    [Parent], [Permissions], [Age], [Touch], [ReadBytes], [Unlink], [Rmdir],
    [RmdirRecursive], [Open] and [Glob]. *)

From Stdlib Require Import List Bool Arith NArith ZArith Lia Ascii String.
Import ListNotations.

Local Open Scope string_scope.
Local Open Scope bool_scope.

(** ** Package [strings] *)

Module strings.

(** The six ASCII white-space bytes: ['\t'], ['\n'], ['\v'], ['\f'], ['\r'], [' ']. *)
Definition asciiSpace (c : ascii) : bool :=
  let n := N_of_ascii c in
  ((9 <=? n) && (n <=? 13) || (n =? 32))%N.

(** The third byte of the UTF-8 encoding [E2 80 xx] of a white-space rune:
    U+2000..U+200A, U+2028, U+2029, U+202F. *)
Definition spaceE280 (c : ascii) : bool :=
  let n := N_of_ascii c in
  ((128 <=? n) && (n <=? 138) || (n =? 168) || (n =? 169) || (n =? 175))%N.

Definition byteIs (c : ascii) (n : N) : bool := (N_of_ascii c =? n)%N.

(** [TrimLeftFunc s unicode.IsSpace]: drops the white-space runes [s] starts
    with.  A rune is decoded from its UTF-8 bytes; besides the ASCII ones, the
    white-space runes are U+0085 and U+00A0 (two bytes), U+1680, U+2000..U+200A,
    U+2028, U+2029, U+202F, U+205F and U+3000 (three bytes).  A byte that starts
    no valid encoding decodes to U+FFFD, which is not white space. *)
Fixpoint trimLeftSpace (s : string) : string :=
  match s with
  | EmptyString => s
  | String c s1 =>
      if asciiSpace c then trimLeftSpace s1
      else
        match s1 with
        | EmptyString => s
        | String c1 s2 =>
            if byteIs c 194 && (byteIs c1 133 || byteIs c1 160) then trimLeftSpace s2
            else
              match s2 with
              | EmptyString => s
              | String c2 s3 =>
                  if byteIs c 225 && byteIs c1 154 && byteIs c2 128
                     || byteIs c 226 && byteIs c1 128 && spaceE280 c2
                     || byteIs c 226 && byteIs c1 129 && byteIs c2 159
                     || byteIs c 227 && byteIs c1 128 && byteIs c2 128
                  then trimLeftSpace s3
                  else s
              end
        end
  end.

(** The same reading from the end of the string ([utf8.DecodeLastRuneInString]),
    on the reversed bytes [r]: the last byte of the rune comes first. *)
Fixpoint trimRightSpaceRev (r : list ascii) : list ascii :=
  match r with
  | [] => r
  | c :: r1 =>
      if asciiSpace c then trimRightSpaceRev r1
      else
        match r1 with
        | [] => r
        | c1 :: r2 =>
            if byteIs c1 194 && (byteIs c 133 || byteIs c 160) then trimRightSpaceRev r2
            else
              match r2 with
              | [] => r
              | c2 :: r3 =>
                  if byteIs c2 225 && byteIs c1 154 && byteIs c 128
                     || byteIs c2 226 && byteIs c1 128 && spaceE280 c
                     || byteIs c2 226 && byteIs c1 129 && byteIs c 159
                     || byteIs c2 227 && byteIs c1 128 && byteIs c 128
                  then trimRightSpaceRev r3
                  else r
              end
        end
  end.

Definition trimRightSpace (s : string) : string :=
  string_of_list_ascii (rev (trimRightSpaceRev (rev (list_ascii_of_string s)))).

(** [strings.TrimSpace(s)]: [s] without its leading and trailing white space,
    as Unicode defines it. *)
Definition TrimSpace (s : string) : string :=
  trimRightSpace (trimLeftSpace s).

(** [strings.HasPrefix(s, prefix)]. *)
Definition HasPrefix (s prefix : string) : bool := String.prefix prefix s.

(** [strings.Contains(s, substr)]: [substr] occurs within [s]. *)
Fixpoint Contains (s substr : string) : bool :=
  HasPrefix s substr ||
  match s with
  | EmptyString => false
  | String _ s' => Contains s' substr
  end.

(** [strings.Join(elems, sep)]. *)
Definition Join (elems : list string) (sep : string) : string := String.concat sep elems.

(** [strings.ContainsAny(s, chars)]: some byte of [chars] occurs in [s] (for
    ASCII [chars], as in its one use below). *)
Fixpoint ContainsAny (s chars : string) : bool :=
  match s with
  | EmptyString => false
  | String c s' => Contains chars (String c EmptyString) || ContainsAny s' chars
  end.

End strings.

(** ** Errors and results *)

(** The [syscall.Errno] values the host reports. *)
Inductive Errno : Type :=
  ENOENT | EACCES | ENOTDIR | EEXIST | EISDIR | EINVAL | ENOTEMPTY | EBADF | EIO | ENOSPC |
  ENAMETOOLONG | ELOOP.

(** Go's [error] values: [errors.New] and [fmt.Errorf] strings, the
    [*fs.PathError] and [*os.SyscallError] of package [os], and the sentinels
    [filepath.ErrBadPattern] and [os.ErrClosed]. *)
Inductive error : Type :=
  | errorString (s : string)
  | PathError (op path : string) (errno : Errno)
  | SyscallError (op : string) (errno : Errno)
  | ErrBadPattern
  | ErrClosed.

(** A call that returns [(T, error)] with a zero [T] beside a non-nil error. *)
Inductive result (A : Type) : Type :=
  | Ok (a : A)
  | Err (e : error).

Arguments Ok {A} a.
Arguments Err {A} e.

Module fmt.

(** [fmt.Errorf(format, args...)], applied to the formatted message. *)
Definition Errorf (msg : string) : error := errorString msg.

End fmt.

(** ** Package [os] *)

Module os.

Definition PathSeparator : ascii := "/".

Definition IsPathSeparator (c : ascii) : bool := Ascii.eqb PathSeparator c.

(** [os.FileMode], a [uint32]: the permission bits and the type bits. *)
Definition FileMode : Type := Z.

Definition ModeDir : FileMode := (Z.shiftl 1 31)%Z.
Definition ModeSymlink : FileMode := (Z.shiftl 1 27)%Z.
Definition ModeDevice : FileMode := (Z.shiftl 1 26)%Z.
Definition ModeNamedPipe : FileMode := (Z.shiftl 1 25)%Z.
Definition ModeSocket : FileMode := (Z.shiftl 1 24)%Z.
Definition ModeCharDevice : FileMode := (Z.shiftl 1 21)%Z.
Definition ModeIrregular : FileMode := (Z.shiftl 1 19)%Z.

Definition ModeType : FileMode :=
  Z.lor ModeDir (Z.lor ModeSymlink (Z.lor ModeNamedPipe (Z.lor ModeSocket
    (Z.lor ModeDevice (Z.lor ModeCharDevice ModeIrregular))))).

Definition ModePerm : FileMode := 511%Z. (* 0777 *)

(** [m.IsDir()], [m.IsRegular()], [m.Perm()]. *)
Definition IsDir (m : FileMode) : bool := negb (Z.land m ModeDir =? 0)%Z.
Definition IsRegular (m : FileMode) : bool := (Z.land m ModeType =? 0)%Z.
Definition Perm (m : FileMode) : FileMode := Z.land m ModePerm.

(** [os.FileInfo], as far as [path.go] reads it. *)
Record FileInfo : Type := { Mode : FileMode; ModTime : Z }.

(** The flags of [os.OpenFile] (Linux values). *)
Definition O_RDONLY : Z := 0%Z.
Definition O_WRONLY : Z := 1%Z.
Definition O_RDWR : Z := 2%Z.
Definition O_CREATE : Z := 64%Z.    (* 0x40 *)
Definition O_TRUNC : Z := 512%Z.    (* 0x200 *)
Definition O_APPEND : Z := 1024%Z.  (* 0x400 *)

(** The access mode of a flag word ([O_ACCMODE]). *)
Definition accessMode (flag : Z) : Z := Z.land flag 3%Z.

(** The host: the operating system and the part of Go's runtime that
    [path.go] reaches through packages [os] and [path/filepath].  [FS] is the
    state of the filesystem and of the process (working directory, umask, open
    files).  Queries read the state; the other calls return the next state.
    Nothing is assumed of a host here: every call may fail with any error. *)
Class Host (FS : Type) : Type := {
  (** [*os.File] *)
  File : Type;
  (** [os.Getwd()] *)
  Getwd : FS -> result string;
  (** [os.Stat(name)] and [os.Lstat(name)] *)
  Stat : FS -> string -> result FileInfo;
  Lstat : FS -> string -> result FileInfo;
  (** [os.Open(dir)], [d.Readdirnames(-1)] and [d.Close()] as one query: an
      error when the open fails, else the names read (the error of
      [Readdirnames], which [filepath.Glob] drops, is not part of it) *)
  Readdirnames : FS -> string -> result (list string);
  (** [os.Mkdir(name, perm)] and [os.MkdirAll(path, perm)] *)
  Mkdir : FS -> string -> FileMode -> FS * option error;
  MkdirAll : FS -> string -> FileMode -> FS * option error;
  (** [os.OpenFile(name, flag, perm)] *)
  OpenFile : FS -> string -> Z -> FileMode -> FS * result File;
  (** [f.Write(b)]: the number of bytes written and the error *)
  Write : FS -> File -> string -> FS * (Z * option error);
  (** [f.Close()] *)
  Close : FS -> File -> FS * option error
}.

(** [os.Create(name)] is [OpenFile(name, O_RDWR|O_CREATE|O_TRUNC, 0666)]. *)
Definition Create {FS : Type} {H : Host FS} (fs : FS) (name : string) : FS * result File :=
  OpenFile fs name (Z.lor O_RDWR (Z.lor O_CREATE O_TRUNC)) 438%Z. (* 0666 *)

(** The calls that read a whole file, remove and move entries, which the
    other methods of [path.go] reach. *)
Class HostFiles (FS : Type) : Type := {
  (** [ioutil.ReadFile(filename)], a query: the file is opened, read to its
      end and closed *)
  ReadFile : FS -> string -> result string;
  (** [os.Remove(name)] and [os.RemoveAll(path)] *)
  Remove : FS -> string -> FS * option error;
  RemoveAll : FS -> string -> FS * option error;
  (** [os.Rename(oldpath, newpath)] *)
  Rename : FS -> string -> string -> FS * option error
}.

End os.

(** ** Package [time] *)

Module time.

(** A [time.Time] read from the wall clock: the instant in nanoseconds since
    the Unix epoch, so that [t.sec()] is [t / Second] and [t.nsec()] is
    [t mod Second].  Instants are not bounded here. *)
Definition Time : Type := Z.

(** [time.Duration], an [int64] count of nanoseconds. *)
Definition Duration : Type := Z.

Definition Second : Duration := 1000000000%Z.
Definition minDuration : Duration := (- 2 ^ 63)%Z.
Definition maxDuration : Duration := (2 ^ 63 - 1)%Z.

(** The value of an [int64] expression: the result modulo [2^64], in
    [-2^63 .. 2^63 - 1]. *)
Definition int64 (z : Z) : Z := ((z + 2 ^ 63) mod 2 ^ 64 - 2 ^ 63)%Z.

(** [t.Sub(u)], when not both instants carry a monotonic reading (that of a
    file's modification time has none):
<<
  d := Duration(t.sec()-u.sec())*Second + Duration(t.nsec()-u.nsec())
  // Check for overflow or underflow.
  switch {
  case u.Add(d).Equal(t): return d // d is correct
  case t.Before(u): return minDuration // t - u is negative out of range
  default: return maxDuration // t - u is positive out of range
  }
>> *)
Definition Sub (t u : Time) : Duration :=
  let d :=
    int64 (int64 (int64 (t / Second - u / Second) * Second) + (t mod Second - u mod Second))%Z in
  if (u + d =? t)%Z then d
  else if (t <? u)%Z then minDuration
  else maxDuration.

End time.

(** ** Package [unicode/utf8] *)

Module utf8.

Definition RuneError : N := 65533%N. (* U+FFFD *)

(** The table [first] with [acceptRanges]: for a byte that starts an encoding
    of more than one byte, the size of the encoding and the range of its
    second byte. *)
Definition first (s0 : N) : option (nat * N * N) :=
  if (s0 <? 194)%N then None                        (* 0x00-0x7F, 0x80-0xC1 *)
  else if (s0 <? 224)%N then Some (2%nat, 128%N, 191%N)   (* 0xC2-0xDF *)
  else if (s0 =? 224)%N then Some (3%nat, 160%N, 191%N)   (* 0xE0 *)
  else if (s0 =? 237)%N then Some (3%nat, 128%N, 159%N)   (* 0xED *)
  else if (s0 <? 240)%N then Some (3%nat, 128%N, 191%N)   (* 0xE1-0xEC, 0xEE-0xEF *)
  else if (s0 =? 240)%N then Some (4%nat, 144%N, 191%N)   (* 0xF0 *)
  else if (s0 <? 244)%N then Some (4%nat, 128%N, 191%N)   (* 0xF1-0xF3 *)
  else if (s0 =? 244)%N then Some (4%nat, 128%N, 143%N)   (* 0xF4 *)
  else None.                                         (* 0xF5-0xFF *)

(** A continuation byte out of [0x80 .. 0xBF]. *)
Definition notCont (b : N) : bool := ((b <? 128) || (191 <? b))%N.

(** [utf8.DecodeRuneInString(s)]: the rune and its width in bytes. *)
Definition DecodeRuneInString (s : string) : N * nat :=
  match s with
  | EmptyString => (RuneError, 0)
  | String c0 t1 =>
      let s0 := N_of_ascii c0 in
      if (s0 <? 128)%N then (s0, 1)
      else
        match first s0 with
        | None => (RuneError, 1)
        | Some (sz, lo, hi) =>
            if (length s <? sz)%nat then (RuneError, 1)
            else
              match t1 with
              | EmptyString => (RuneError, 1)
              | String c1 t2 =>
                  let s1 := N_of_ascii c1 in
                  if ((s1 <? lo) || (hi <? s1))%N then (RuneError, 1)
                  else if (sz <=? 2)%nat then
                    (N.lor (N.shiftl (N.land s0 31) 6) (N.land s1 63), 2)
                  else
                    match t2 with
                    | EmptyString => (RuneError, 1)
                    | String c2 t3 =>
                        let s2 := N_of_ascii c2 in
                        if notCont s2 then (RuneError, 1)
                        else if (sz <=? 3)%nat then
                          (N.lor (N.lor (N.shiftl (N.land s0 15) 12)
                                        (N.shiftl (N.land s1 63) 6))
                                 (N.land s2 63), 3)
                        else
                          match t3 with
                          | EmptyString => (RuneError, 1)
                          | String c3 _ =>
                              let s3 := N_of_ascii c3 in
                              if notCont s3 then (RuneError, 1)
                              else
                                (N.lor (N.lor (N.lor (N.shiftl (N.land s0 7) 18)
                                                     (N.shiftl (N.land s1 63) 12))
                                              (N.shiftl (N.land s2 63) 6))
                                       (N.land s3 63), 4)
                          end
                    end
              end
        end
  end.

End utf8.

(** ** Package [path/filepath] *)

Module filepath.

Definition Separator : ascii := os.PathSeparator.

(** [filepath.Ext(path)]:
<<
  for i := len(path) - 1; i >= 0 && !os.IsPathSeparator(path[i]); i-- {
      if path[i] == '.' { return path[i:] }
  }
  return ""
>>
    [Ext_loop path n] is the loop entered with [i = n - 1]. *)
Fixpoint Ext_loop (path : string) (n : nat) : string :=
  match n with
  | O => ""
  | S i =>
      match get i path with
      | None => ""
      | Some c =>
          if os.IsPathSeparator c then ""
          else if Ascii.eqb c "." then substring i (length path - i) path
          else Ext_loop path i
      end
  end.

Definition Ext (path : string) : string := Ext_loop path (length path).

(** [filepath.IsAbs(path)] on Unix: [strings.HasPrefix(path, "/")]. *)
Definition IsAbs (path : string) : bool := strings.HasPrefix path "/".

(** *** [filepath.Clean]

    The loop of [Clean] reads [path] at index [r] and writes into the buffer
    [out] (a [lazybuf], whose length is [out.w]).  Here [rest] is [path[r:]]
    and [out] holds exactly the [out.w] bytes written. *)

(** [r == n || os.IsPathSeparator(path[r])], for [rest = path[r:]]. *)
Definition endsElement (rest : string) : bool :=
  match rest with
  | EmptyString => true
  | String c _ => os.IsPathSeparator c
  end.

Definition isSepAt (buf : string) (i : nat) : bool :=
  match get i buf with
  | Some c => os.IsPathSeparator c
  | None => false
  end.

(** [for out.w > dotdot && !os.IsPathSeparator(out.index(out.w)) { out.w-- }] *)
Fixpoint backtrack (buf : string) (dotdot w : nat) : nat :=
  match w with
  | O => O
  | S w' => if (dotdot <? w)%nat && negb (isSepAt buf w) then backtrack buf dotdot w' else w
  end.

(** [for ; r < n && !os.IsPathSeparator(path[r]); r++ { out.append(path[r]) }]:
    the bytes appended, and what is left of the path. *)
Fixpoint element (rest : string) : string :=
  match rest with
  | EmptyString => ""
  | String c rest' => if os.IsPathSeparator c then "" else String c (element rest')
  end.

Fixpoint afterElement (rest : string) : string :=
  match rest with
  | EmptyString => ""
  | String c rest' => if os.IsPathSeparator c then rest else afterElement rest'
  end.

(** [path[r] == '.'] and [path[r:][1:]], for [rest = path[r:]]. *)
Definition startsDot (rest : string) : bool :=
  match rest with
  | EmptyString => false
  | String c _ => Ascii.eqb c "."
  end.

Definition behead (rest : string) : string :=
  match rest with
  | EmptyString => ""
  | String _ rest' => rest'
  end.

(** [for r < n { switch ... }].  Every turn reads at least one byte, so
    [fuel = len(path)] turns are enough (lemma [Clean_loop_fuel]). *)
Fixpoint Clean_loop (fuel : nat) (rooted : bool) (rest out : string) (dotdot : nat) : string :=
  match fuel, rest with
  | O, _ => out
  | _, EmptyString => out
  | S fuel', String c rest1 =>
      if os.IsPathSeparator c then
        (* empty path element *)
        Clean_loop fuel' rooted rest1 out dotdot
      else if Ascii.eqb c "." && endsElement rest1 then
        (* . element *)
        Clean_loop fuel' rooted rest1 out dotdot
      else if Ascii.eqb c "." && startsDot rest1 && endsElement (behead rest1) then
        (* .. element: remove to last separator *)
        let rest2 := behead rest1 in
        if (dotdot <? length out)%nat then
          (* can backtrack *)
          let w := backtrack out dotdot (length out - 1) in
          Clean_loop fuel' rooted rest2 (substring 0 w out) dotdot
        else if negb rooted then
          (* cannot backtrack, but not rooted, so append .. element. *)
          let out := if (0 <? length out)%nat then out ++ "/" else out in
          let out := out ++ ".." in
          Clean_loop fuel' rooted rest2 out (length out)
        else Clean_loop fuel' rooted rest2 out dotdot
      else
        (* real path element: add slash if needed, copy element *)
        let out :=
          if rooted && negb (length out =? 1)%nat || negb rooted && negb (length out =? 0)%nat
          then out ++ "/" else out in
        Clean_loop fuel' rooted (afterElement rest) (out ++ element rest) dotdot
  end.

(** [filepath.Clean(path)] on Unix (no volume name, [FromSlash] is the
    identity). *)
Definition Clean (path : string) : string :=
  match path with
  | EmptyString => "."
  | String c path1 =>
      let rooted := os.IsPathSeparator c in
      let n := length path in
      let out :=
        if rooted then Clean_loop n rooted path1 "/" 1
        else Clean_loop n rooted path "" 0 in
      (* Turn empty string into "." *)
      if (length out =? 0)%nat then "." else out
  end.

(** [filepath.Join(elem...)]:
<<
  for i, e := range elem {
      if e != "" { return Clean(strings.Join(elem[i:], string(Separator))) }
  }
  return ""
>> *)
Fixpoint Join (elem : list string) : string :=
  match elem with
  | [] => ""
  | e :: elem' =>
      if negb (e =? "") then Clean (strings.Join elem "/") else Join elem'
  end.

(** [filepath.Split(path)]: [Split_loop path n] is [i + 1] at the end of
    [for i >= 0 && !os.IsPathSeparator(path[i]) { i-- }] entered with
    [i = n - 1]. *)
Fixpoint Split_loop (path : string) (n : nat) : nat :=
  match n with
  | O => O
  | S i =>
      match get i path with
      | Some c => if os.IsPathSeparator c then n else Split_loop path i
      | None => n
      end
  end.

Definition Split (path : string) : string * string :=
  let k := Split_loop path (length path) in
  (substring 0 k path, substring k (length path - k) path).

(** [filepath.Dir(path)]: [Clean] of the directory part of [Split]. *)
Definition Dir (path : string) : string := Clean (fst (Split path)).

(** [for len(path) > 0 && os.IsPathSeparator(path[len(path)-1]) { path = path[0 : len(path)-1] }]:
    the length left of a path of length [n]. *)
Fixpoint stripTrailing (path : string) (n : nat) : nat :=
  match n with
  | O => O
  | S i =>
      match get i path with
      | Some c => if os.IsPathSeparator c then stripTrailing path i else n
      | None => n
      end
  end.

(** [filepath.Base(path)]:
<<
  if path == "" { return "." }
  // Strip trailing slashes.
  for len(path) > 0 && os.IsPathSeparator(path[len(path)-1]) { path = path[0 : len(path)-1] }
  // Throw away volume name
  path = path[len(VolumeName(path)):]
  // Find the last element
  i := len(path) - 1
  for i >= 0 && !os.IsPathSeparator(path[i]) { i-- }
  if i >= 0 { path = path[i+1:] }
  // If empty now, it had only slashes.
  if path == "" { return string(Separator) }
  return path
>>
    On Unix [VolumeName] is empty.  The second loop is that of [Split]:
    [Split_loop] gives [i + 1]. *)
Definition Base (path : string) : string :=
  if path =? "" then "."
  else
    let path := substring 0 (stripTrailing path (length path)) path in
    let k := Split_loop path (length path) in
    let path := if (0 <? k)%nat then substring k (length path - k) path else path in
    if path =? "" then String Separator "" else path.

(** [hasMeta(path)]: [strings.ContainsAny(path, `*?[\`)]. *)
Definition hasMeta (path : string) : bool :=
  strings.ContainsAny path (String "*" (String "?" (String "[" (String "\" EmptyString)))).

(** [cleanGlobPath(path)]: chomp off the trailing separator. *)
Definition cleanGlobPath (path : string) : string :=
  if path =? "" then "."
  else if path =? "/" then path
  else substring 0 (length path - 1) path.

(** [sort.Strings(names)], by insertion. *)
Fixpoint insertString (n : string) (names : list string) : list string :=
  match names with
  | [] => [n]
  | m :: names' => if String.leb n m then n :: names else m :: insertString n names'
  end.

Definition sortStrings (names : list string) : list string :=
  fold_right insertString [] names.

(** *** [filepath.Match]

    The pattern is read chunk by chunk: a chunk is a run of single-character
    operators (literals, character classes and [?]), possibly preceded by a
    star.  The loops that do not go down a string take as [fuel] the length
    of what they read, of which every turn uses at least one byte (lemmas
    [classRanges_fuel], [matchChunk_loop_fuel], [checkRest_fuel] and
    [Match_loop_fuel]). *)

(** [s[n:]] *)
Fixpoint from (n : nat) (s : string) : string :=
  match n, s with
  | O, _ => s
  | S n', String _ s' => from n' s'
  | S _, EmptyString => s
  end.

(** [getEsc(chunk)]: a possibly escaped character of a character class, and
    the chunk after it. *)
Definition getEsc (chunk : string) : result (N * string) :=
  match chunk with
  | EmptyString => Err ErrBadPattern
  | String c chunk1 =>
      if Ascii.eqb c "-" || Ascii.eqb c "]" then Err ErrBadPattern
      else
        let chunk := if Ascii.eqb c "\" then chunk1 else chunk in
        if chunk =? "" then Err ErrBadPattern
        else
          let '(r, n) := utf8.DecodeRuneInString chunk in
          if (r =? utf8.RuneError)%N && (n =? 1)%nat then Err ErrBadPattern
          else
            let nchunk := from n chunk in
            if nchunk =? "" then Err ErrBadPattern else Ok (r, nchunk)
  end.

(** [len(s) > 0 && s[0] == c] *)
Definition startsWith (c : ascii) (s : string) : bool :=
  match s with
  | String d _ => Ascii.eqb d c
  | EmptyString => false
  end.

(** The loop that parses all ranges of a character class for the rune [r]:
    the chunk after the class, and whether a range holds [r]. *)
Fixpoint classRanges (fuel : nat) (chunk : string) (r : N) (match_ : bool) (nrange : nat)
  : result (string * bool) :=
  if startsWith "]" chunk && (0 <? nrange)%nat then Ok (behead chunk, match_)
  else
    match fuel with
    | O => Err ErrBadPattern
    | S fuel' =>
        match getEsc chunk with
        | Err err => Err err
        | Ok (lo, chunk) =>
            if startsWith "-" chunk then
              match getEsc (behead chunk) with
              | Err err => Err err
              | Ok (hi, chunk) =>
                  classRanges fuel' chunk r (if (lo <=? r)%N && (r <=? hi)%N then true else match_)
                    (S nrange)
              end
            else
              let hi := lo in
              classRanges fuel' chunk r (if (lo <=? r)%N && (r <=? hi)%N then true else match_)
                (S nrange)
        end
    end.

(** The loop of [matchChunk(chunk, s)]. *)
Fixpoint matchChunk_loop (fuel : nat) (chunk s : string) (failed : bool)
  : result (string * bool) :=
  match chunk with
  | EmptyString => if failed then Ok ("", false) else Ok (s, true)
  | String c chunk1 =>
      match fuel with
      | O => Ok ("", false)
      | S fuel' =>
          let failed := if negb failed && (s =? "") then true else failed in
          if Ascii.eqb c "[" then
            (* character class *)
            let '(r, s) :=
              if negb failed then
                let '(r, n) := utf8.DecodeRuneInString s in (r, from n s)
              else (0%N, s) in
            (* possibly negated *)
            let negated := startsWith "^" chunk1 in
            let chunk := if negated then behead chunk1 else chunk1 in
            (* parse all ranges *)
            match classRanges (length chunk) chunk r false 0 with
            | Err err => Err err
            | Ok (chunk, match_) =>
                let failed := if Bool.eqb match_ negated then true else failed in
                matchChunk_loop fuel' chunk s failed
            end
          else if Ascii.eqb c "?" then
            let '(failed, s) :=
              if negb failed then
                let failed := if startsWith "/" s then true else failed in
                let '(_, n) := utf8.DecodeRuneInString s in
                (failed, from n s)
              else (failed, s) in
            matchChunk_loop fuel' chunk1 s failed
          else
            let chunk := if Ascii.eqb c "\" then chunk1 else chunk in
            match chunk with
            | EmptyString => Err ErrBadPattern
            | String d chunk2 =>
                let '(failed, s) :=
                  if negb failed then
                    ((if negb (startsWith d s) then true else failed), from 1 s)
                  else (failed, s) in
                matchChunk_loop fuel' chunk2 s failed
            end
      end
  end.

(** [matchChunk(chunk, s)]: whether [chunk] matches the beginning of [s], and
    then the remainder of [s]. *)
Definition matchChunk (chunk s : string) : result (string * bool) :=
  matchChunk_loop (length chunk) chunk s false.

(** [for len(pattern) > 0 && pattern[0] == '*' { pattern = pattern[1:]; star = true }] *)
Fixpoint scanStars (pattern : string) (star : bool) : bool * string :=
  match pattern with
  | String c pattern' => if Ascii.eqb c "*" then scanStars pattern' true else (star, pattern)
  | EmptyString => (star, pattern)
  end.

(** The index at which the loop [Scan] ends. *)
Fixpoint scanEnd (pattern : string) (inrange : bool) : nat :=
  match pattern with
  | EmptyString => 0
  | String c pattern' =>
      if Ascii.eqb c "\" then
        match pattern' with
        | EmptyString => 1
        | String _ pattern'' => S (S (scanEnd pattern'' inrange))
        end
      else if Ascii.eqb c "[" then S (scanEnd pattern' true)
      else if Ascii.eqb c "]" then S (scanEnd pattern' false)
      else if Ascii.eqb c "*" then (if inrange then S (scanEnd pattern' inrange) else 0)
      else S (scanEnd pattern' inrange)
  end.

(** [scanChunk(pattern)]: the next segment of the pattern, a string without
    star possibly preceded by a star. *)
Definition scanChunk (pattern : string) : bool * string * string :=
  let '(star, pattern) := scanStars pattern false in
  let i := scanEnd pattern false in
  (star, substring 0 i pattern, from i pattern).

(** The check that the remainder of the pattern is syntactically valid. *)
Fixpoint checkRest (fuel : nat) (pattern : string) : result bool :=
  if pattern =? "" then Ok false
  else
    match fuel with
    | O => Ok false
    | S fuel' =>
        let '(_, chunk, pattern) := scanChunk pattern in
        match matchChunk chunk "" with
        | Err err => Err err
        | Ok _ => checkRest fuel' pattern
        end
    end.

(** The loop that looks for a match skipping [i+1] bytes of [name], none of
    which is a separator: the remainder of the name after the first match
    found, an error, or nothing. *)
Fixpoint starSkip (chunk : string) (last : bool) (name : string) : option (result string) :=
  match name with
  | EmptyString => None
  | String c name' =>
      if os.IsPathSeparator c then None
      else
        match matchChunk chunk name' with
        | Ok (t, true) =>
            (* if we're the last chunk, make sure we exhausted the name *)
            if last && negb (t =? "") then starSkip chunk last name' else Some (Ok t)
        | Ok (_, false) => starSkip chunk last name'
        | Err err => Some (Err err)
        end
  end.

(** The loop [Pattern] of [Match]. *)
Fixpoint Match_loop (fuel : nat) (pattern name : string) : result bool :=
  if pattern =? "" then Ok (name =? "")
  else
    match fuel with
    | O => Ok false
    | S fuel' =>
        let '(star, chunk, pattern) := scanChunk pattern in
        if star && (chunk =? "") then
          (* Trailing * matches rest of string unless it has a /. *)
          Ok (negb (strings.Contains name "/"))
        else
          (* Look for match at current position. *)
          match matchChunk chunk name with
          | Err err => Err err
          | Ok (t, ok) =>
              if ok && ((t =? "") || negb (pattern =? "")) then Match_loop fuel' pattern t
              else
                match (if star then starSkip chunk (pattern =? "") name else None) with
                | Some (Ok t) => Match_loop fuel' pattern t
                | Some (Err err) => Err err
                | None => checkRest (length pattern) pattern
                end
          end
    end.

(** [filepath.Match(pattern, name)] *)
Definition Match (pattern name : string) : result bool :=
  Match_loop (length pattern) pattern name.

Section WithHost.

Context {FS : Type} {H : os.Host FS}.

(** [filepath.Abs(path)] on Unix:
<<
  if IsAbs(path) { return Clean(path), nil }
  wd, err := os.Getwd()
  if err != nil { return "", err }
  return Join(wd, path), nil
>> *)
Definition Abs (fs : FS) (path : string) : result string :=
  if IsAbs path then Ok (Clean path)
  else
    match os.Getwd fs with
    | Err err => Err err
    | Ok wd => Ok (Join [wd; path])
    end.

(** The loop of [glob(dir, pattern, matches)] over the sorted names:
<<
  for _, n := range names {
      matched, err := Match(pattern, n)
      if err != nil { return m, err }
      if matched { m = append(m, Join(dir, n)) }
  }
>> *)
Fixpoint globNames (dir pattern : string) (names m : list string) : list string * option error :=
  match names with
  | [] => (m, None)
  | n :: names' =>
      match Match pattern n with
      | Err err => (m, Some err)
      | Ok matched =>
          globNames dir pattern names' (if matched then (m ++ [Join [dir; n]])%list else m)
      end
  end.

(** [glob(dir, pattern, matches)]: the names of [dir] that match [pattern],
    joined to [dir] and appended to [matches]; I/O errors are ignored. *)
Definition glob (fs : FS) (dir pattern : string) (matches : list string)
  : list string * option error :=
  let m := matches in
  match os.Stat fs dir with
  | Err _ => (m, None)
  | Ok fi =>
      if negb (os.IsDir (os.Mode fi)) then (m, None)
      else
        match os.Readdirnames fs dir with
        | Err _ => (m, None)
        | Ok names => globNames dir pattern (sortStrings names) m
        end
  end.

(** [for _, d := range m { matches, err = glob(d, file, matches); if err != nil { return } }] *)
Fixpoint globDirs (fs : FS) (m : list string) (file : string) (matches : list string)
  : list string * option error :=
  match m with
  | [] => (matches, None)
  | d :: m' =>
      match glob fs d file matches with
      | (matches, Some err) => (matches, Some err)
      | (matches, None) => globDirs fs m' file matches
      end
  end.

(** [globWithLimit(pattern, depth)]; [fuel] is [pathSeparatorsLimit - depth],
    the number of nested calls the limit still allows. *)
Fixpoint globWithLimit (fuel : nat) (fs : FS) (pattern : string) : list string * option error :=
  match fuel with
  | O => ([], Some ErrBadPattern)
  | S fuel' =>
      (* Check pattern is well-formed. *)
      match Match pattern "" with
      | Err err => ([], Some err)
      | Ok _ =>
          if negb (hasMeta pattern) then
            match os.Lstat fs pattern with
            | Err _ => ([], None)
            | Ok _ => ([pattern], None)
            end
          else
            let '(dir, file) := Split pattern in
            let dir := cleanGlobPath dir in
            if negb (hasMeta dir) then glob fs dir file []
            else if dir =? pattern then ([], Some ErrBadPattern) (* prevent infinite recursion *)
            else
              match globWithLimit fuel' fs dir with
              | (_, Some err) => ([], Some err)
              | (m, None) => globDirs fs m file []
              end
      end
  end.

Definition pathSeparatorsLimit : nat := N.to_nat 10000.

(** [filepath.Glob(pattern)] *)
Definition Glob (fs : FS) (pattern : string) : list string * option error :=
  globWithLimit pathSeparatorsLimit fs pattern.

End WithHost.

End filepath.

(** ** The Path type and its pure operations ([path.go]) *)

(** [type Path string] *)
Definition Path : Type := string.

(** [func (p Path) WithSuffix(suffix string) Path].  The slice
    [pStr[0 : len(pStr)-oldSuffixLen]] is [substring 0 (len - oldSuffixLen)];
    lengths are natural numbers: the subtraction [oldSuffixLen -= 1] is reached
    only with [len(oldSuffix) > 0] (lemma [WithSuffix_slice_in_range]). *)
Definition WithSuffix (p : Path) (suffix : string) : Path :=
  let pStr := p in
  let suffix := strings.TrimSpace suffix in
  let oldSuffix := filepath.Ext pStr in
  if (length oldSuffix =? 0)%nat && (length suffix =? 0)%nat then p
  else if (length oldSuffix =? 0)%nat && (0 <? length suffix)%nat then pStr ++ "." ++ suffix
  else
    let oldSuffixLen := length oldSuffix in
    let oldSuffixLen := if (0 <? length suffix)%nat then oldSuffixLen - 1 else oldSuffixLen in
    let withoutOldSuffix := substring 0 (length pStr - oldSuffixLen) pStr in
    withoutOldSuffix ++ suffix.

(** [func (p Path) JoinPath(paths ...Path) Path] *)
Definition JoinPath (p : Path) (paths : list Path) : Path :=
  let ret := p in
  fold_left (fun ret path => filepath.Join [ret; path]) paths ret.

(** [func (p Path) Parent() Path] *)
Definition Parent (p : Path) : Path := filepath.Dir p.

(** [func (p Path) Name() string] *)
Definition Name (p : Path) : string := filepath.Base p.

(** ** The operations of [path.go] that reach the host *)

(** [defer deferred()]: the deferred call runs when the body returns, on every
    path out of it, and what it returns is dropped. *)
Definition defer {FS A : Type} (deferred : FS -> FS * option error) (body : FS -> FS * A)
  (fs : FS) : FS * A :=
  let '(fs1, r) := body fs in
  let '(fs2, _) := deferred fs1 in
  (fs2, r).

Section PathMethods.

Context {FS : Type} {H : os.Host FS}.

(** [func (p Path) Exists() bool] *)
Definition Exists (fs : FS) (p : Path) : bool :=
  match filepath.Abs fs p with
  | Err _ => false
  | Ok absPath =>
      match os.Stat fs absPath with
      | Err _ => false
      | Ok _ => true
      end
  end.

(** [func (p Path) IsDir() bool] *)
Definition IsDir (fs : FS) (p : Path) : bool :=
  match filepath.Abs fs p with
  | Err _ => false
  | Ok absPath =>
      match os.Stat fs absPath with
      | Err _ => false
      | Ok stat =>
          let mode := os.Mode stat in
          if os.IsDir mode then true else false
      end
  end.

(** [func (p Path) IsFile() bool] *)
Definition IsFile (fs : FS) (p : Path) : bool :=
  match filepath.Abs fs p with
  | Err _ => false
  | Ok absPath =>
      match os.Stat fs absPath with
      | Err _ => false
      | Ok stat =>
          let mode := os.Mode stat in
          if os.IsRegular mode then true else false
      end
  end.

(** [func (p Path) Permissions() (os.FileMode, error)] *)
Definition Permissions (fs : FS) (p : Path) : os.FileMode * option error :=
  match filepath.Abs fs p with
  | Err err => (0%Z, Some err)
  | Ok absPath =>
      match os.Stat fs absPath with
      | Err err => (0%Z, Some err)
      | Ok stat => (os.Perm (os.Mode stat), None)
      end
  end.

(** [func (p Path) Glob(pattern string) ([]Path, error)]; a [nil] slice is
    the empty list. *)
Definition Glob (fs : FS) (p : Path) (pattern : string) : list Path * option error :=
  if negb (IsDir fs p) then
    ([], Some (fmt.Errorf ("Glob only works on directories: " ++ p)))
  else
    match filepath.Abs fs p with
    | Err err => ([], Some err)
    | Ok absPath =>
        let absPattern := filepath.Join [absPath; pattern] in
        match filepath.Glob fs absPattern with
        | (_, Some err) => ([], Some err)
        | (matches, None) =>
            let matchPaths :=
              fold_left (fun matchPaths match_ => (matchPaths ++ [(match_ : Path)])%list)
                matches [] in
            (matchPaths, None)
        end
    end.

(** [func (p Path) Resolve() (Path, error)] *)
Definition Resolve (fs : FS) (p : Path) : Path * option error :=
  match filepath.Abs fs p with
  | Err err => (p, Some err)
  | Ok absPath =>
      let resolvedPath : Path := absPath in
      if negb (Exists fs resolvedPath) then
        (p, Some (fmt.Errorf ("Cannot resolve path that does not exist: " ++ resolvedPath)))
      else (resolvedPath, None)
  end.

(** [func (p Path) Mkdir() error] of [path.go]; [0755] is [493]. *)
Definition Mkdir (fs : FS) (p : Path) : FS * option error :=
  if Exists fs p then
    (fs, Some (fmt.Errorf ("Cannot make directory " ++ p ++ " because it already exists")))
  else os.MkdirAll fs p 493%Z. (* note umask will be applied *)

(** [func (p Path) WriteBytes(data []byte) error] *)
Definition WriteBytes (fs : FS) (p : Path) (data : string) : FS * option error :=
  match os.Create fs p with
  | (fs1, Err err) => (fs1, Some err)
  | (fs1, Ok outfile) =>
      defer (fun fs => os.Close fs outfile)
        (fun fs =>
           match os.Write fs outfile data with
           | (fs2, (_, Some err)) => (fs2, Some err)
           | (fs2, (_, None)) => (fs2, None)
           end) fs1
  end.

(** The flag word that [OpenWithPermissions] hands to [os.OpenFile]:
<<
  flag := os.O_RDONLY // default to read mode
  if strings.Contains(mode, "r") && strings.Contains(mode, "w") { flag = os.O_RDWR
  } else if strings.Contains(mode, "r") { flag = os.O_RDONLY
  } else if strings.Contains(mode, "w") { flag = os.O_WRONLY }
  if strings.Contains(mode, "+") { flag |= os.O_APPEND }
  if !p.Exists() { flag |= os.O_CREATE }
>> *)
Definition openFlag (fs : FS) (p : Path) (mode : string) : Z :=
  let flag := os.O_RDONLY in
  let flag :=
    if strings.Contains mode "r" && strings.Contains mode "w" then os.O_RDWR
    else if strings.Contains mode "r" then os.O_RDONLY
    else if strings.Contains mode "w" then os.O_WRONLY
    else flag in
  let flag := if strings.Contains mode "+" then Z.lor flag os.O_APPEND else flag in
  let flag := if negb (Exists fs p) then Z.lor flag os.O_CREATE else flag in
  flag.

(** [func (p Path) OpenWithPermissions(mode string, perms os.FileMode)],
    returning the [*os.File] and the error. *)
Definition OpenWithPermissions (fs : FS) (p : Path) (mode : string) (perms : os.FileMode)
  : FS * result os.File :=
  if IsDir fs p then
    (fs, Err (fmt.Errorf ("Cannot open " ++ p ++ " because it is a directory.")))
  else os.OpenFile fs p (openFlag fs p mode) perms.

(** [func (p Path) Open(mode string)]: [OpenWithPermissions] with [0755]. *)
Definition Open (fs : FS) (p : Path) (mode : string) : FS * result os.File :=
  OpenWithPermissions fs p mode 493%Z.

End PathMethods.

Section PathFileMethods.

Context {FS : Type} {H : os.Host FS} {HF : os.HostFiles FS}.

(** [func (p Path) ReadBytes() ([]byte, error)]; a [nil] slice is the empty
    string. *)
Definition ReadBytes (fs : FS) (p : Path) : string * option error :=
  match filepath.Abs fs p with
  | Err err => ("", Some err)
  | Ok absPath =>
      match os.ReadFile fs absPath with
      | Err err => ("", Some err)
      | Ok contents => (contents, None)
      end
  end.

(** [func (p Path) Touch() error]; what [f.Close()] returns is dropped. *)
Definition Touch (fs : FS) (p : Path) : FS * option error :=
  if Exists fs p then (fs, None)
  else
    match os.Create fs p with
    | (fs1, Err err) => (fs1, Some err)
    | (fs1, Ok f) =>
        let '(fs2, _) := os.Close fs1 f in
        (fs2, None)
    end.

(** [func (p Path) Age(now time.Time) (time.Duration, error)] *)
Definition Age (fs : FS) (p : Path) (now : time.Time) : time.Duration * option error :=
  if negb (Exists fs p) then (0%Z, Some (fmt.Errorf (p ++ " does not exist")))
  else
    match filepath.Abs fs p with
    | Err err => (0%Z, Some err)
    | Ok absPath =>
        match os.Stat fs absPath with
        | Err err => (0%Z, Some err)
        | Ok stat => (time.Sub now (os.ModTime stat), None)
        end
    end.

(** [func (p Path) Unlink() error] *)
Definition Unlink (fs : FS) (p : Path) : FS * option error :=
  if IsDir fs p then (fs, Some (fmt.Errorf (p ++ " is a directory.  Use Rmdir() instead.")))
  else os.Remove fs p.

(** [func (p Path) Rmdir() error] *)
Definition Rmdir (fs : FS) (p : Path) : FS * option error :=
  if negb (IsDir fs p) then
    (fs, Some (fmt.Errorf (p ++ " is not a directory.  Use Unlink() instead.")))
  else os.Remove fs p.

(** [func (p Path) RmdirRecursive() error] *)
Definition RmdirRecursive (fs : FS) (p : Path) : FS * option error :=
  if negb (IsDir fs p) then
    (fs, Some (fmt.Errorf (p ++ " is not a directory.  Use Unlink() instead.")))
  else os.RemoveAll fs p.

(** [func (p Path) Rename(target Path) error] *)
Definition Rename (fs : FS) (p target : Path) : FS * option error :=
  os.Rename fs p target.

End PathFileMethods.

(** The other [Mkdir] of the repository ([src/unnamed/part_000], which has
    neither [Open] nor [OpenWithPermissions]): the directory takes the
    permissions of its parent, made at least [0700], and is created by
    [os.Mkdir], which creates no ancestor. *)
Module part_000.

Section PathMethods.

Context {FS : Type} {H : os.Host FS}.

Definition Mkdir (fs : FS) (p : Path) : FS * option error :=
  if Exists fs p then
    (fs, Some (fmt.Errorf ("Cannot make directory " ++ p ++ " because it already exists")))
  else
    let parent := Parent p in
    match Permissions fs parent with
    | (_, Some err) => (fs, Some err)
    | (perms, None) =>
        let perms := Z.lor perms 448%Z in (* 0700 *)
        os.Mkdir fs p perms
    end.

End PathMethods.

End part_000.

(** *** Vocabulary of the suffix policy *)

(** [noByte c s]: the byte [c] does not occur in [s]. *)
Fixpoint noByte (c : ascii) (s : string) : bool :=
  match s with
  | EmptyString => true
  | String d s' => negb (Ascii.eqb d c) && noByte c s'
  end.

(** A string that can stand after the last dot of a final segment: it holds
    neither a dot nor a separator. *)
Definition plainExt (s : string) : bool := noByte "." s && noByte "/" s.

(** The final segment of a path: the text after its last separator. *)
Fixpoint lastSegment (p : string) : string :=
  match p with
  | EmptyString => ""
  | String c p' =>
      if os.IsPathSeparator c then lastSegment p'
      else if noByte "/" p' then p
      else lastSegment p'
  end.

(** *** Vocabulary of joining and cleaning

    What [filepath.Clean] computes, said on the elements of a path, as Go's
    documentation does: separators are collapsed, [.] elements dropped, an
    inner [..] element dropped with the element before it, and a [..] that
    begins a rooted path dropped. *)

(** The elements of a path: the non-empty runs of bytes between separators. *)
Fixpoint elements (s : string) : list string :=
  match s with
  | EmptyString => []
  | String c s' =>
      if os.IsPathSeparator c then elements s'
      else if filepath.endsElement s' then String c "" :: elements s'
      else
        match elements s' with
        | e :: es => String c e :: es
        | [] => [String c ""]
        end
  end.

(** One element read, on the elements kept so far, last one first. *)
Definition lexicalStep (rooted : bool) (kept : list string) (e : string) : list string :=
  if e =? "." then kept
  else if e =? ".." then
    match kept with
    | top :: below => if top =? ".." then e :: kept else below
    | [] => if rooted then [] else [e]
    end
  else e :: kept.

Definition lexical (rooted : bool) (es : list string) : list string :=
  rev (fold_left (lexicalStep rooted) es []).

(** The path of a list of elements. *)
Definition render (rooted : bool) (es : list string) : string :=
  (if rooted then "/" else "") ++ String.concat "/" es.

(** The clean path of a list of elements: what lexical processing keeps of
    them, or [.] when that is nothing. *)
Definition cleanOf (rooted : bool) (es : list string) : string :=
  let r := render rooted (lexical rooted es) in
  if r =? "" then "." else r.

(** [Clean], said on elements. *)
Definition cleanElements (path : string) : string :=
  cleanOf (filepath.IsAbs path) (elements path).

(** An element that [Clean] keeps as it is: not empty, without separator, and
    neither [.] nor [..]. *)
Definition plainElement (e : string) : bool :=
  negb (e =? "") && noByte "/" e && negb (e =? ".") && negb (e =? "..").

(** What an element is: not empty, and without separator. *)
Definition isElement (e : string) : Prop := e <> "" /\ noByte "/" e = true.

(** The elements kept in normal form, last one first: plain elements on top
    of [..] elements, and no [..] at all in a rooted path. *)
Definition Normal (rooted : bool) (kept : list string) : Prop :=
  exists plains ups,
    kept = (plains ++ ups)%list /\
    Forall (fun e => plainElement e = true) plains /\
    Forall (eq "..") ups /\
    (rooted = true -> ups = []).

(** What the loop of [Clean] keeps true: [out] is the path of the elements
    kept, and [dotdot] is the length of the part of it that [..] may not
    remove, the root or the leading [..] elements. *)
Definition Inv (rooted : bool) (kept : list string) (out : string) (dotdot : nat) : Prop :=
  exists plains ups,
    kept = (plains ++ ups)%list /\
    Forall (fun e => plainElement e = true) plains /\
    Forall (eq "..") ups /\
    (rooted = true -> ups = []) /\
    out = render rooted (rev kept) /\
    dotdot = length (render rooted (rev ups)).

(** *** Vocabulary of globbing

    What [filepath.Glob] lists for a pattern, said on the last element of the
    pattern.  A pattern without metacharacter lists itself, when [os.Lstat]
    finds it.  Any other pattern lists entries of directories, each joined to
    its directory: the entries whose name matches the last element of the
    pattern, in the directory that the pattern names before its last element
    or, when that part has a metacharacter, in the directories listed for
    it. *)
Inductive Globbed {FS : Type} {H : os.Host FS} (fs : FS) : string -> string -> Prop :=
  | Globbed_literal (pattern : string) (fi : os.FileInfo) :
      filepath.hasMeta pattern = false ->
      os.Lstat fs pattern = Ok fi ->
      Globbed fs pattern pattern
  | Globbed_entry (pattern dir n : string) (names : list string) (fi : os.FileInfo) :
      filepath.hasMeta pattern = true ->
      dir = filepath.cleanGlobPath (fst (filepath.Split pattern)) ->
      filepath.hasMeta dir = false ->
      os.Stat fs dir = Ok fi -> os.IsDir (os.Mode fi) = true ->
      os.Readdirnames fs dir = Ok names -> In n names ->
      filepath.Match (snd (filepath.Split pattern)) n = Ok true ->
      Globbed fs pattern (filepath.Join [dir; n])
  | Globbed_below (pattern dir n : string) (names : list string) (fi : os.FileInfo) :
      filepath.hasMeta pattern = true ->
      filepath.hasMeta (filepath.cleanGlobPath (fst (filepath.Split pattern))) = true ->
      Globbed fs (filepath.cleanGlobPath (fst (filepath.Split pattern))) dir ->
      os.Stat fs dir = Ok fi -> os.IsDir (os.Mode fi) = true ->
      os.Readdirnames fs dir = Ok names -> In n names ->
      filepath.Match (snd (filepath.Split pattern)) n = Ok true ->
      Globbed fs pattern (filepath.Join [dir; n]).

(** ** What some statements ask of a host *)

(** [os.Getwd] returns a rooted name. *)
Class RootedGetwd {FS : Type} (H : os.Host FS) : Prop :=
  Getwd_rooted : forall fs wd, os.Getwd fs = Ok wd -> filepath.IsAbs wd = true.

(** No symbolic link dangles and every directory listed can be searched:
    what [os.Lstat] finds, [os.Stat] finds, and the names read in a directory
    are those of entries that [os.Stat] finds there. *)
Class NoDanglingLink {FS : Type} (H : os.Host FS) : Prop := {
  Lstat_Stat : forall fs name fi,
    os.Lstat fs name = Ok fi -> exists fi', os.Stat fs name = Ok fi';
  Readdirnames_Stat : forall fs dir names n,
    os.Readdirnames fs dir = Ok names -> In n names ->
    exists fi, os.Stat fs (filepath.Join [dir; n]) = Ok fi
}.

(** ** An in-memory host

    A small filesystem that implements [os.Host]: a table from absolute,
    cleaned names to directories and regular files, a working directory, a
    umask, a table of open files and a number of free bytes.  It has no links,
    owners or access rights.  The statements made for every host are shown
    at work on this one; those on what a method leaves in the filesystem are
    made on it. *)

Module memfs.

Inductive Node : Type :=
  | Dir (perm : Z)
  | File (perm : Z) (data : string).

Record FS : Type := {
  cwd : string;
  umask : Z;
  nodes : list (string * Node);
  opened : list (nat * string);
  nextfd : nat;
  space : nat
}.

Definition withNodes (fs : FS) (ns : list (string * Node)) : FS :=
  {| cwd := cwd fs; umask := umask fs; nodes := ns; opened := opened fs; nextfd := nextfd fs;
     space := space fs |}.

Definition withOpened (fs : FS) (o : list (nat * string)) (next : nat) : FS :=
  {| cwd := cwd fs; umask := umask fs; nodes := nodes fs; opened := o; nextfd := next;
     space := space fs |}.

Definition withSpace (fs : FS) (free : nat) : FS :=
  {| cwd := cwd fs; umask := umask fs; nodes := nodes fs; opened := opened fs;
     nextfd := nextfd fs; space := free |}.

(** The key of a name in the table: the name made absolute and cleaned. *)
Definition key (fs : FS) (name : string) : option string :=
  if name =? "" then None
  else if filepath.IsAbs name then Some (filepath.Clean name)
  else if filepath.IsAbs (cwd fs) then Some (filepath.Join [cwd fs; name])
  else None.

Fixpoint lookup (k : string) (ns : list (string * Node)) : option Node :=
  match ns with
  | [] => None
  | (k', n) :: ns' => if k' =? k then Some n else lookup k ns'
  end.

Fixpoint update (k : string) (n : Node) (ns : list (string * Node)) : list (string * Node) :=
  match ns with
  | [] => [(k, n)]
  | (k', n') :: ns' => if k' =? k then (k, n) :: ns' else (k', n') :: update k n ns'
  end.

Definition info (n : Node) : os.FileInfo :=
  match n with
  | Dir perm => {| os.Mode := Z.lor os.ModeDir perm; os.ModTime := 0 |}
  | File perm _ => {| os.Mode := perm; os.ModTime := 0 |}
  end.

Definition getwd (fs : FS) : result string :=
  if filepath.IsAbs (cwd fs) then Ok (cwd fs) else Err (SyscallError "getwd" ENOENT).

Definition stat (fs : FS) (name : string) : result os.FileInfo :=
  match key fs name with
  | None => Err (PathError "stat" name ENOENT)
  | Some k =>
      match lookup k (nodes fs) with
      | None => Err (PathError "stat" name ENOENT)
      | Some n => Ok (info n)
      end
  end.

(** The entries of [dir]: the last segments [n] of the names in the table that
    [dir] joined with [n] leads to. *)
Definition isEntry (fs : FS) (dir k : string) : bool :=
  let n := lastSegment k in
  negb (n =? "") &&
  match key fs (filepath.Join [dir; n]) with
  | Some k' => k' =? k
  | None => false
  end.

Definition readdirnames (fs : FS) (dir : string) : result (list string) :=
  match key fs dir with
  | None => Err (PathError "open" dir ENOENT)
  | Some k =>
      match lookup k (nodes fs) with
      | None => Err (PathError "open" dir ENOENT)
      | Some (File _ _) => Err (PathError "readdirent" dir ENOTDIR)
      | Some (Dir _) =>
          Ok (map lastSegment (filter (isEntry fs dir) (map fst (nodes fs))))
      end
  end.

(** The name [k] and the names of its ancestors below the root, outermost
    first. *)
Definition ancestors (k : string) : list string :=
  map (fun i => substring 0 i k)
    (filter (fun i => (i =? length k)%nat || filepath.isSepAt k i) (seq 1 (length k))).

Fixpoint mkdirs (perm : Z) (ks : list string) (ns : list (string * Node))
  : list (string * Node) * option Errno :=
  match ks with
  | [] => (ns, None)
  | k :: ks' =>
      match lookup k ns with
      | Some (Dir _) => mkdirs perm ks' ns
      | Some (File _ _) => (ns, Some ENOTDIR)
      | None => mkdirs perm ks' (ns ++ [(k, Dir perm)])%list
      end
  end.

Definition masked (fs : FS) (perm : Z) : Z := Z.land perm (Z.lnot (umask fs)).

Definition mkdirAll (fs : FS) (name : string) (perm : os.FileMode) : FS * option error :=
  match key fs name with
  | None => (fs, Some (PathError "mkdir" name ENOENT))
  | Some k =>
      let '(ns, e) := mkdirs (masked fs (os.Perm perm)) (ancestors k) (nodes fs) in
      (withNodes fs ns, option_map (PathError "mkdir" name) e)
  end.

Definition mkdir (fs : FS) (name : string) (perm : os.FileMode) : FS * option error :=
  match key fs name with
  | None => (fs, Some (PathError "mkdir" name ENOENT))
  | Some k =>
      match lookup k (nodes fs), lookup (filepath.Dir k) (nodes fs) with
      | Some _, _ => (fs, Some (PathError "mkdir" name EEXIST))
      | None, Some (Dir _) =>
          (withNodes fs (nodes fs ++ [(k, Dir (masked fs (os.Perm perm)))])%list, None)
      | None, Some (File _ _) => (fs, Some (PathError "mkdir" name ENOTDIR))
      | None, None => (fs, Some (PathError "mkdir" name ENOENT))
      end
  end.

Definition alloc (fs : FS) (k : string) : FS * result nat :=
  (withOpened fs ((nextfd fs, k) :: opened fs) (S (nextfd fs)), Ok (nextfd fs)).

Definition hasFlag (flag bit : Z) : bool := negb (Z.land flag bit =? 0)%Z.

Definition openFile (fs : FS) (name : string) (flag : Z) (perm : os.FileMode) : FS * result nat :=
  match key fs name with
  | None => (fs, Err (PathError "open" name ENOENT))
  | Some k =>
      match lookup k (nodes fs) with
      | Some (Dir _) =>
          if (os.accessMode flag =? os.O_RDONLY)%Z then alloc fs k
          else (fs, Err (PathError "open" name EISDIR))
      | Some (File perm0 data) =>
          if hasFlag flag os.O_TRUNC
          then alloc (withNodes fs (update k (File perm0 "") (nodes fs))) k
          else alloc fs k
      | None =>
          if hasFlag flag os.O_CREATE then
            match lookup (filepath.Dir k) (nodes fs) with
            | Some (Dir _) =>
                alloc (withNodes fs (nodes fs ++ [(k, File (masked fs (os.Perm perm)) "")])%list) k
            | _ => (fs, Err (PathError "open" name ENOENT))
            end
          else (fs, Err (PathError "open" name ENOENT))
      end
  end.

Fixpoint nameOf (fd : nat) (o : list (nat * string)) : option string :=
  match o with
  | [] => None
  | (fd', k) :: o' => if (fd' =? fd)%nat then Some k else nameOf fd o'
  end.

Definition write (fs : FS) (fd : nat) (b : string) : FS * (Z * option error) :=
  match nameOf fd (opened fs) with
  | None => (fs, (0%Z, Some ErrClosed))
  | Some k =>
      match lookup k (nodes fs) with
      | Some (File perm data) =>
          if (length b <=? space fs)%nat then
            (withSpace (withNodes fs (update k (File perm (data ++ b)) (nodes fs)))
               (space fs - length b),
             (Z.of_nat (length b), None))
          else (fs, (0%Z, Some (PathError "write" k ENOSPC)))
      | _ => (fs, (0%Z, Some (PathError "write" k EBADF)))
      end
  end.

Definition close (fs : FS) (fd : nat) : FS * option error :=
  match nameOf fd (opened fs) with
  | None => (fs, Some ErrClosed)
  | Some _ =>
      (withOpened fs (filter (fun e => negb (fst e =? fd)%nat) (opened fs)) (nextfd fs), None)
  end.

#[global] Instance host : os.Host FS := {|
  os.File := nat;
  os.Getwd := getwd;
  os.Stat := stat;
  os.Lstat := stat;
  os.Readdirnames := readdirnames;
  os.Mkdir := mkdir;
  os.MkdirAll := mkdirAll;
  os.OpenFile := openFile;
  os.Write := write;
  os.Close := close
|}.

Definition readFile (fs : FS) (name : string) : result string :=
  match key fs name with
  | None => Err (PathError "open" name ENOENT)
  | Some k =>
      match lookup k (nodes fs) with
      | None => Err (PathError "open" name ENOENT)
      | Some (Dir _) => Err (PathError "read" name EISDIR)
      | Some (File _ data) => Ok data
      end
  end.

(** [under k k']: the name [k'] lies below the directory [k]. *)
Definition under (k k' : string) : bool :=
  negb (k' =? k) && String.prefix (if k =? "/" then k else k ++ "/") k'.

Definition erase (k : string) (ns : list (string * Node)) : list (string * Node) :=
  filter (fun e => negb (fst e =? k)) ns.

(** [os.Remove]: a file, or a directory with nothing below it. *)
Definition remove (fs : FS) (name : string) : FS * option error :=
  match key fs name with
  | None => (fs, Some (PathError "remove" name ENOENT))
  | Some k =>
      match lookup k (nodes fs) with
      | None => (fs, Some (PathError "remove" name ENOENT))
      | Some (File _ _) => (withNodes fs (erase k (nodes fs)), None)
      | Some (Dir _) =>
          if existsb (under k) (map fst (nodes fs))
          then (fs, Some (PathError "remove" name ENOTEMPTY))
          else (withNodes fs (erase k (nodes fs)), None)
      end
  end.

(** [endsWithDot(path)]: [path] is [.] or ends in [/.]. *)
Definition endsWithDot (path : string) : bool :=
  (path =? ".") || (substring (length path - 2) 2 path =? "/.").

(** [os.RemoveAll]: the entry and all that lies below it; nothing to remove
    is no error. *)
Definition removeAll (fs : FS) (path : string) : FS * option error :=
  if path =? "" then (fs, None)
  else if endsWithDot path then (fs, Some (PathError "RemoveAll" path EINVAL))
  else
    match key fs path with
    | None => (fs, None)
    | Some k =>
        (withNodes fs (filter (fun e => negb ((fst e =? k) || under k (fst e))) (nodes fs)),
         None)
    end.

(** The name of an entry once [old] has become [new]. *)
Definition rekey (old new k : string) : string :=
  if k =? old then new
  else if under old k then new ++ substring (length old) (length k - length old) k
  else k.

(** [os.Rename]: an existing directory is no target; a file replaces a file. *)
Definition rename (fs : FS) (oldname newname : string) : FS * option error :=
  let fail := fun e => (fs, Some (PathError "rename" oldname e)) in
  match key fs oldname, key fs newname with
  | Some ko, Some kn =>
      match lookup ko (nodes fs), lookup kn (nodes fs) with
      | None, _ => fail ENOENT
      | Some _, Some (Dir _) => if ko =? kn then (fs, None) else fail EEXIST
      | Some (Dir _), Some (File _ _) => fail ENOTDIR
      | Some _, _ =>
          if ko =? kn then (fs, None)
          else if under ko kn then fail EINVAL
          else
            match lookup (filepath.Dir kn) (nodes fs) with
            | Some (Dir _) =>
                (withNodes fs
                   (map (fun e => (rekey ko kn (fst e), snd e)) (erase kn (nodes fs))),
                 None)
            | Some (File _ _) => fail ENOTDIR
            | None => fail ENOENT
            end
      end
  | _, _ => fail ENOENT
  end.

#[global] Instance files : os.HostFiles FS := {|
  os.ReadFile := readFile;
  os.Remove := remove;
  os.RemoveAll := removeAll;
  os.Rename := rename
|}.

(** A filesystem to try things on: [/etc] with three files, [/usr], [/tmp];
    the process is in [/tmp], with umask [027], and 64 bytes are free. *)
Definition sample : FS := {|
  cwd := "/tmp";
  umask := 23;
  nodes := [("/", Dir 493); ("/etc", Dir 493); ("/etc/passwd", File 420 "root:x:0:0");
            ("/etc/host.conf", File 420 "multi on"); ("/etc/ld.so.conf", File 420 "");
            ("/usr", Dir 493); ("/tmp", Dir 1023)];
  opened := [];
  nextfd := 3;
  space := 64
|}.

(** The same filesystem seen by a process whose working directory is gone:
    [os.Getwd] fails. *)
Definition lost : FS := {|
  cwd := "";
  umask := umask sample;
  nodes := nodes sample;
  opened := [];
  nextfd := 3;
  space := 64
|}.

End memfs.

(** ** A host that refuses every access

    Its one state is [tt]; the working directory is [/locked], and every other
    call fails with [EACCES], as on a directory the process may not search. *)

Module sealedfs.

Definition denied (op name : string) : error := PathError op name EACCES.

#[global] Instance host : os.Host unit := {|
  os.File := Empty_set;
  os.Getwd := fun _ => Ok "/locked";
  os.Stat := fun _ name => Err (denied "stat" name);
  os.Lstat := fun _ name => Err (denied "lstat" name);
  os.Readdirnames := fun _ name => Err (denied "open" name);
  os.Mkdir := fun fs name _ => (fs, Some (denied "mkdir" name));
  os.MkdirAll := fun fs name _ => (fs, Some (denied "mkdir" name));
  os.OpenFile := fun fs name _ _ => (fs, Err (denied "open" name));
  os.Write := fun fs f _ => match f with end;
  os.Close := fun fs f => match f with end
|}.

#[global] Instance files : os.HostFiles unit := {|
  os.ReadFile := fun _ name => Err (denied "open" name);
  os.Remove := fun fs name => (fs, Some (denied "remove" name));
  os.RemoveAll := fun fs name => (fs, Some (denied "RemoveAll" name));
  os.Rename := fun fs name _ => (fs, Some (denied "rename" name))
|}.

End sealedfs.

(** ** A host with a dangling link

    A filesystem that nothing changes: the root holds the directory [d],
    which holds the symbolic link [l], whose target is gone.  [os.Lstat] finds
    the link; [os.Stat], which follows it, does not. *)

Module danglingfs.

Inductive FS : Type := mounted.

Definition dirInfo : os.FileInfo := {| os.Mode := Z.lor os.ModeDir 493; os.ModTime := 0 |}.

Definition linkInfo : os.FileInfo := {| os.Mode := Z.lor os.ModeSymlink 511; os.ModTime := 0 |}.

Definition stat (name : string) : result os.FileInfo :=
  if (name =? "/") || (name =? "/d") then Ok dirInfo
  else Err (PathError "stat" name ENOENT).

Definition lstat (name : string) : result os.FileInfo :=
  if name =? "/d/l" then Ok linkInfo
  else if (name =? "/") || (name =? "/d") then Ok dirInfo
  else Err (PathError "lstat" name ENOENT).

Definition readdirnames (name : string) : result (list string) :=
  if name =? "/" then Ok ["d"]
  else if name =? "/d" then Ok ["l"]
  else Err (PathError "open" name ENOENT).

Definition readOnly (op name : string) : error := PathError op name EACCES.

#[global] Instance host : os.Host FS := {|
  os.File := Empty_set;
  os.Getwd := fun _ => Ok "/";
  os.Stat := fun _ => stat;
  os.Lstat := fun _ => lstat;
  os.Readdirnames := fun _ => readdirnames;
  os.Mkdir := fun fs name _ => (fs, Some (readOnly "mkdir" name));
  os.MkdirAll := fun fs name _ => (fs, Some (readOnly "mkdir" name));
  os.OpenFile := fun fs name _ _ => (fs, Err (readOnly "open" name));
  os.Write := fun fs f _ => match f with end;
  os.Close := fun fs f => match f with end
|}.

End danglingfs.

(** * Facts *)

(** ** Strings *)

Section StringFacts.

Lemma append_nil_r (s : string) : s ++ "" = s.
Proof. induction s as [|c s IH]; simpl; [reflexivity | now rewrite IH]. Qed.

Lemma append_assoc (a b c : string) : (a ++ b) ++ c = a ++ b ++ c.
Proof. induction a as [|x a IH]; simpl; [reflexivity | now rewrite IH]. Qed.

Lemma length_append (a b : string) : length (a ++ b) = length a + length b.
Proof. induction a as [|x a IH]; simpl; [reflexivity | now rewrite IH]. Qed.

Lemma get_append_l (a b : string) (i : nat) :
  i < length a -> get i (a ++ b) = get i a.
Proof. intros Hi. symmetry. now apply append_correct1. Qed.

Lemma get_append_r (a b : string) (i : nat) :
  get (length a + i) (a ++ b) = get i b.
Proof. rewrite Nat.add_comm. symmetry. apply append_correct2. Qed.

Lemma get_length_append (a b : string) : get (length a) (a ++ b) = get 0 b.
Proof. rewrite <- (Nat.add_0_r (length a)) at 1. apply get_append_r. Qed.

Lemma substring_0_length (s : string) : substring 0 (length s) s = s.
Proof. induction s as [|c s IH]; simpl; [reflexivity | now rewrite IH]. Qed.

Lemma substring_0_append (a b : string) : substring 0 (length a) (a ++ b) = a.
Proof.
  induction a as [|x a IH]; simpl.
  - now destruct b.
  - now rewrite IH.
Qed.

Lemma substring_append_r (a b : string) (n : nat) :
  substring (length a) n (a ++ b) = substring 0 n b.
Proof. induction a as [|x a IH]; simpl; [reflexivity | exact IH]. Qed.

Lemma substring_skip_append (a b : string) (i n : nat) :
  substring (length a + i) n (a ++ b) = substring i n b.
Proof. induction a as [|x a IH]; simpl; [reflexivity | exact IH]. Qed.

Lemma substring_0_append_l (a b : string) (n : nat) :
  n <= length a -> substring 0 n (a ++ b) = substring 0 n a.
Proof.
  revert n. induction a as [|x a IH]; intros n Hn; simpl in *.
  - assert (n = 0) by lia. subst n. now destruct b.
  - destruct n as [|n]; [reflexivity|]. rewrite IH by lia. reflexivity.
Qed.

Lemma length_0_iff (s : string) : (length s =? 0)%nat = true <-> s = "".
Proof.
  destruct s; simpl; split; intros Hs; try reflexivity; discriminate.
Qed.

Lemma length_eqb_0 (s : string) : (length s =? 0)%nat = (s =? "").
Proof. now destruct s. Qed.

Lemma length_ltb_0 (s : string) : (0 <? length s)%nat = negb (s =? "").
Proof. now destruct s. Qed.

Lemma noByte_append (c : ascii) (a b : string) :
  noByte c (a ++ b) = noByte c a && noByte c b.
Proof.
  induction a as [|x a IH]; simpl; [reflexivity|].
  rewrite IH. now rewrite andb_assoc.
Qed.

End StringFacts.

(** ** The library functions on the cases of Go's own tests and
    documentation *)

Example TrimSpace_cases :
  strings.TrimSpace "" = "" /\
  strings.TrimSpace "abc" = "abc" /\
  strings.TrimSpace "  abc  " = "abc" /\
  strings.TrimSpace " " = "" /\
  strings.TrimSpace (String "009" (String "010" " a b ")) = "a b" /\
  (* U+00A0 before, U+3000 after: x *)
  strings.TrimSpace
    (String "194" (String "160" (String "x" (String "227" (String "128" (String "128" ""))))))
    = "x" /\
  (* a lone continuation byte is no white space *)
  strings.TrimSpace (String "160" " ") = String "160" "".
Proof. repeat split; reflexivity. Qed.

Example Contains_cases :
  strings.Contains "rw+" "r" = true /\
  strings.Contains "rw+" "+" = true /\
  strings.Contains "w" "r" = false /\
  strings.Contains "" "r" = false /\
  strings.Contains "abc" "" = true /\
  strings.Contains "abc" "bc" = true.
Proof. repeat split; reflexivity. Qed.

Example Ext_cases :
  filepath.Ext "path.go" = ".go" /\
  filepath.Ext "path.pb.go" = ".go" /\
  filepath.Ext "a.dir/b" = "" /\
  filepath.Ext "a.dir/b.go" = ".go" /\
  filepath.Ext "a.dir/" = "" /\
  filepath.Ext "foo." = "." /\
  filepath.Ext ".bashrc" = ".bashrc".
Proof. repeat split; reflexivity. Qed.

Example Clean_cases :
  map filepath.Clean
    ["abc"; "abc/def"; "a/b/c"; "."; ".."; "../.."; "../../abc"; "/abc"; "/";
     ""; "abc/"; "abc/def/"; "a/b/c/"; "./"; "../"; "../../"; "/abc/";
     "abc//def//ghi"; "abc//"; "abc/./def"; "/./abc/def"; "abc/.";
     "abc/def/ghi/../jkl"; "abc/def/../ghi/../jkl"; "abc/def/.."; "abc/def/../..";
     "/abc/def/../.."; "abc/def/../../.."; "/abc/def/../../..";
     "abc/def/../../../ghi/jkl/../../../mno";
     "/../abc"; "abc/./../def"; "abc//./../def"; "abc/../../././../def"]
  = ["abc"; "abc/def"; "a/b/c"; "."; ".."; "../.."; "../../abc"; "/abc"; "/";
     "."; "abc"; "abc/def"; "a/b/c"; "."; ".."; "../.."; "/abc";
     "abc/def/ghi"; "abc"; "abc/def"; "/abc/def"; "abc";
     "abc/def/jkl"; "abc/jkl"; "abc"; ".";
     "/"; ".."; "/"; "../../mno";
     "/abc"; "def"; "def"; "../../def"].
Proof. reflexivity. Qed.

Example Join_cases :
  map filepath.Join
    [[]; [""]; ["a"]; ["a"; "b"]; ["a"; ""]; [""; "b"]; ["/"; "a"]; ["/"; "a/b"]; ["/"; ""];
     ["/a"; "b"]; ["a"; "/b"]; ["/a"; "/b"]; ["a/"; "b"]; ["a/"; ""]; [""; ""]; ["/"; "a"; "b"]]
  = [""; ""; "a"; "a/b"; "a"; "b"; "/a"; "/a/b"; "/";
     "/a/b"; "a/b"; "/a/b"; "a/b"; "a"; ""; "/a/b"].
Proof. reflexivity. Qed.

Example Split_Dir_cases :
  map filepath.Split ["a/b"; "a/b/"; "a/"; "a"; "/"] =
    [("a/", "b"); ("a/b/", ""); ("a/", ""); ("", "a"); ("/", "")] /\
  map filepath.Dir
    [""; "."; "/."; "/"; "/foo"; "x/"; "abc"; "abc/def"; "a/b/.x"; "a/b/c."; "/var/log"]
    = ["."; "."; "/"; "/"; "/"; "x"; "."; "abc"; "a/b"; "a/b"; "/var"].
Proof. split; reflexivity. Qed.

(** ** [filepath.Ext] *)

Section ExtFacts.

Lemma IsPathSeparator_eqb (c : ascii) : os.IsPathSeparator c = Ascii.eqb c "/".
Proof. unfold os.IsPathSeparator, os.PathSeparator. apply Ascii.eqb_sym. Qed.

(** A plain byte: neither a dot nor a separator. *)
Lemma plainExt_cons (c : ascii) (s : string) :
  plainExt (String c s) = true ->
  os.IsPathSeparator c = false /\ Ascii.eqb c "." = false /\ plainExt s = true.
Proof.
  unfold plainExt. cbn [noByte]. rewrite IsPathSeparator_eqb.
  destruct (Ascii.eqb c "."), (Ascii.eqb c "/"); cbn [negb andb]; intros Hc;
    try discriminate; try (rewrite andb_false_r in Hc; discriminate).
  repeat split; assumption.
Qed.

(** The loop walks back over bytes that are neither dots nor separators. *)
Lemma Ext_loop_skip (b2 b1 : string) :
  plainExt b2 = true ->
  filepath.Ext_loop (b1 ++ b2) (length b1 + length b2) = filepath.Ext_loop (b1 ++ b2) (length b1).
Proof.
  revert b1. induction b2 as [|c b2 IH]; intros b1 Hplain.
  - simpl. now rewrite Nat.add_0_r.
  - apply plainExt_cons in Hplain. destruct Hplain as (Hsep & Hdot & Hplain).
    assert (E : b1 ++ String c b2 = (b1 ++ String c "") ++ b2)
      by (now rewrite append_assoc).
    rewrite E.
    replace (length b1 + length (String c b2)) with (length (b1 ++ String c "") + length b2)
      by (rewrite length_append; simpl; lia).
    rewrite IH by assumption.
    rewrite length_append. simpl length. rewrite Nat.add_1_r. simpl.
    rewrite <- E, get_length_append. simpl.
    now rewrite Hsep, Hdot.
Qed.

(** After the last dot of the final segment comes the extension. *)
Lemma Ext_dot (stem old : string) :
  plainExt old = true -> filepath.Ext (stem ++ "." ++ old) = "." ++ old.
Proof.
  intros Hplain. unfold filepath.Ext.
  assert (E : stem ++ "." ++ old = (stem ++ ".") ++ old) by (now rewrite append_assoc).
  rewrite E at 2. rewrite length_append.
  rewrite E, Ext_loop_skip by assumption. rewrite <- E.
  rewrite length_append. simpl length. rewrite Nat.add_1_r. simpl.
  rewrite get_length_append. simpl.
  rewrite length_append. simpl length.
  replace (length stem + S (length old) - length stem) with (length ("." ++ old))
    by (simpl; lia).
  rewrite substring_append_r. apply substring_0_length.
Qed.

(** A final segment without a dot has no extension, whatever the directories
    before it are called. *)
Lemma Ext_after_separator (dir name : string) :
  plainExt name = true -> filepath.Ext (dir ++ "/" ++ name) = "".
Proof.
  intros Hplain. unfold filepath.Ext.
  assert (E : dir ++ "/" ++ name = (dir ++ "/") ++ name) by (now rewrite append_assoc).
  rewrite E at 2. rewrite length_append.
  rewrite E, Ext_loop_skip by assumption. rewrite <- E.
  rewrite length_append. simpl length. rewrite Nat.add_1_r. simpl.
  rewrite get_length_append. reflexivity.
Qed.

Lemma Ext_plain (name : string) : plainExt name = true -> filepath.Ext name = "".
Proof.
  intros Hplain. unfold filepath.Ext.
  change name with ("" ++ name) at 1.
  change (length name) with (length "" + length name).
  now rewrite Ext_loop_skip.
Qed.

End ExtFacts.

(** ** The final segment and its last dot *)

Section SegmentFacts.

(** A path is its directory part, empty or closed by a separator, followed by
    its final segment, which holds no separator. *)
Lemma lastSegment_spec (p : string) :
  exists dir,
    p = dir ++ lastSegment p /\
    noByte "/" (lastSegment p) = true /\
    (dir = "" \/ exists d, dir = d ++ "/").
Proof.
  induction p as [|c p IH].
  - exists "". simpl. auto.
  - destruct IH as (dir & Hp & Hseg & Hdir).
    cbn [lastSegment]. rewrite IsPathSeparator_eqb.
    destruct (Ascii.eqb c "/") eqn:Hc.
    + apply Ascii.eqb_eq in Hc. subst c.
      exists (String "/" dir). cbn [append]. rewrite <- Hp. repeat split; trivial.
      right. destruct Hdir as [-> | (d & ->)].
      * now exists "".
      * now exists (String "/" d).
    + destruct (noByte "/" p) eqn:Hno.
      * exists "". cbn [append noByte]. rewrite Hc, Hno. auto.
      * exists (String c dir). cbn [append]. rewrite <- Hp. repeat split; trivial.
        right. destruct Hdir as [-> | (d & ->)].
        -- simpl in Hp. rewrite <- Hp in Hseg. congruence.
        -- now exists (String c d).
Qed.

Lemma lastSegment_no_separator (name : string) :
  noByte "/" name = true -> lastSegment name = name.
Proof.
  destruct name as [|c name]; [reflexivity|].
  cbn [noByte lastSegment]. rewrite IsPathSeparator_eqb.
  destruct (Ascii.eqb c "/"); cbn [negb andb]; [discriminate|].
  now intros ->.
Qed.

(** A string with a dot splits at its last dot. *)
Lemma last_dot_split (s : string) :
  noByte "." s = false ->
  exists a old, s = a ++ "." ++ old /\ noByte "." old = true.
Proof.
  induction s as [|c s IH]; [discriminate|].
  cbn [noByte]. destruct (noByte "." s) eqn:Hs.
  - rewrite andb_true_r. intros Hc.
    apply negb_false_iff, Ascii.eqb_eq in Hc. subst c.
    now exists "", s.
  - intros _. destruct (IH eq_refl) as (a & old & -> & Hold).
    now exists (String c a), old.
Qed.

(** Every path either has a final segment without a dot, or splits at the
    last dot of its final segment. *)
Lemma final_dot_cases (p : string) :
  noByte "." (lastSegment p) = true \/
  exists stem old, p = stem ++ "." ++ old /\ plainExt old = true.
Proof.
  destruct (noByte "." (lastSegment p)) eqn:Hdot; [now left | right].
  destruct (lastSegment_spec p) as (dir & Hp & Hseg & _).
  destruct (last_dot_split _ Hdot) as (a & old & Hsplit & Hold).
  exists (dir ++ a), old. split.
  - rewrite Hp at 1. rewrite Hsplit. now rewrite append_assoc.
  - unfold plainExt. rewrite Hold. cbn [andb].
    rewrite Hsplit in Hseg. rewrite !noByte_append in Hseg.
    now apply andb_prop in Hseg as (_ & (_ & ?)%andb_prop).
Qed.

Lemma Ext_no_dot (p : string) :
  noByte "." (lastSegment p) = true -> filepath.Ext p = "".
Proof.
  intros Hdot. destruct (lastSegment_spec p) as (dir & Hp & Hseg & Hdir).
  assert (Hplain : plainExt (lastSegment p) = true)
    by (unfold plainExt; now rewrite Hdot, Hseg).
  rewrite Hp. destruct Hdir as [-> | (d & ->)].
  - now apply Ext_plain.
  - rewrite append_assoc. now apply Ext_after_separator.
Qed.

End SegmentFacts.

(** ** [WithSuffix] *)

Section WithSuffixFacts.

Variable s : string.

Lemma WithSuffix_no_ext (p : Path) :
  filepath.Ext p = "" ->
  WithSuffix p s =
    if strings.TrimSpace s =? "" then p else p ++ "." ++ strings.TrimSpace s.
Proof.
  intros HExt. unfold WithSuffix. rewrite HExt. cbn [length Nat.eqb andb].
  rewrite length_eqb_0, length_ltb_0.
  now destruct (strings.TrimSpace s =? "").
Qed.

Lemma WithSuffix_ext (stem old : string) :
  plainExt old = true ->
  WithSuffix (stem ++ "." ++ old) s =
    if strings.TrimSpace s =? "" then stem else stem ++ "." ++ strings.TrimSpace s.
Proof.
  intros Hplain. unfold WithSuffix. rewrite (Ext_dot _ _ Hplain).
  cbn [append length Nat.eqb andb]. rewrite length_ltb_0.
  destruct (strings.TrimSpace s =? "") eqn:Hsuffix; cbn [negb].
  - apply String.eqb_eq in Hsuffix. rewrite Hsuffix, append_nil_r.
    rewrite length_append. cbn [length].
    replace (length stem + S (length old) - S (length old)) with (length stem) by lia.
    apply substring_0_append.
  - rewrite length_append. cbn [length].
    replace (length stem + S (length old) - (S (length old) - 1))
      with (length (stem ++ ".")) by (rewrite length_append; simpl; lia).
    change (String "." old) with ("." ++ old). rewrite <- (append_assoc stem "." old).
    rewrite substring_0_append. now rewrite append_assoc.
Qed.

(** With a requested suffix that is not blank, the path returned ends in a
    dot and the trimmed suffix. *)
Lemma WithSuffix_shape (p : Path) :
  strings.TrimSpace s <> "" ->
  exists stem, WithSuffix p s = stem ++ "." ++ strings.TrimSpace s.
Proof.
  intros Hsome. apply String.eqb_neq in Hsome.
  destruct (final_dot_cases p) as [Hdot | (stem & old & -> & Hold)].
  - exists p. rewrite (WithSuffix_no_ext p (Ext_no_dot _ Hdot)). now rewrite Hsome.
  - exists stem. rewrite (WithSuffix_ext _ _ Hold). now rewrite Hsome.
Qed.

(** The slice [pStr[0 : len(pStr)-oldSuffixLen]] is always in range, and
    [oldSuffixLen -= 1] never goes below zero. *)
Lemma WithSuffix_slice_in_range (p : Path) :
  filepath.Ext p <> "" ->
  1 <= length (filepath.Ext p) <= length p.
Proof.
  intros HExt. destruct (final_dot_cases p) as [Hdot | (stem & old & -> & Hplain)].
  - now rewrite Ext_no_dot in HExt.
  - rewrite (Ext_dot _ _ Hplain), !length_append. simpl. lia.
Qed.

End WithSuffixFacts.

(** The cases of [TestWithSuffix] in [path_test.go]. *)
Example suffixTest_cases :
  WithSuffix "foo.bar" "baz" = "foo.baz" /\
  WithSuffix "foo" "baz" = "foo.baz" /\
  WithSuffix "/foo/bar/baz.a" "baz" = "/foo/bar/baz.baz" /\
  WithSuffix "foo/bar/baz.a" "baz" = "foo/bar/baz.baz" /\
  WithSuffix "/foo/bar.a/baz.zip" "" = "/foo/bar.a/baz" /\
  WithSuffix "foo/bar.a/baz.zip" "" = "foo/bar.a/baz".
Proof. repeat split; reflexivity. Qed.

(** C1.  The policy table of [WithSuffix], with [suffix] the requested suffix
    after [strings.TrimSpace]:
    - a final segment without a dot and an empty [suffix]: the path unchanged;
    - a final segment without a dot and a non-empty [suffix]: ["." ++ suffix]
      appended;
    - a path [stem ++ "." ++ old], where [old] holds no dot and no separator
      (it follows the last dot of the final segment), and a non-empty
      [suffix]: [old] replaced by [suffix], the dot kept;
    - the same path and an empty [suffix]: the extension stripped with its
      dot, [stem] is left.
    Every path is in one of the two situations, and only the final segment
    counts: on [dir ++ "/" ++ name], [WithSuffix] changes [name] as it would
    alone and leaves [dir], dots included, as it is. *)
Theorem WithSuffix_policy_table (p : Path) (s : string) :
  let suffix := strings.TrimSpace s in
  (noByte "." (lastSegment p) = true -> suffix = "" -> WithSuffix p s = p) /\
  (noByte "." (lastSegment p) = true -> suffix <> "" ->
     WithSuffix p s = p ++ "." ++ suffix) /\
  (forall stem old, p = stem ++ "." ++ old -> plainExt old = true -> suffix <> "" ->
     WithSuffix p s = stem ++ "." ++ suffix) /\
  (forall stem old, p = stem ++ "." ++ old -> plainExt old = true -> suffix = "" ->
     WithSuffix p s = stem) /\
  (noByte "." (lastSegment p) = true \/
   exists stem old, p = stem ++ "." ++ old /\ plainExt old = true) /\
  (forall dir name, p = dir ++ "/" ++ name -> noByte "/" name = true ->
     WithSuffix p s = dir ++ "/" ++ WithSuffix name s).
Proof.
  intros suffix.
  assert (Hno : noByte "." (lastSegment p) = true ->
                WithSuffix p s = if suffix =? "" then p else p ++ "." ++ suffix)
    by (intros Hdot; apply WithSuffix_no_ext, Ext_no_dot, Hdot).
  repeat apply conj.
  - intros Hdot Hempty. rewrite (Hno Hdot), Hempty. reflexivity.
  - intros Hdot Hsome. rewrite (Hno Hdot).
    apply String.eqb_neq in Hsome. now rewrite Hsome.
  - intros stem old -> Hplain Hsome. rewrite (WithSuffix_ext s _ _ Hplain).
    apply String.eqb_neq in Hsome. fold suffix. now rewrite Hsome.
  - intros stem old -> Hplain Hempty. rewrite (WithSuffix_ext s _ _ Hplain).
    fold suffix. now rewrite Hempty.
  - apply final_dot_cases.
  - intros dir name -> Hname.
    destruct (final_dot_cases name) as [Hdot | (stem & old & -> & Hplain)].
    + rewrite (lastSegment_no_separator _ Hname) in Hdot.
      assert (Hplain : plainExt name = true) by (unfold plainExt; now rewrite Hdot, Hname).
      rewrite (WithSuffix_no_ext s name (Ext_plain _ Hplain)).
      rewrite (WithSuffix_no_ext s _ (Ext_after_separator dir _ Hplain)).
      destruct (strings.TrimSpace s =? ""); [reflexivity|].
      now rewrite !append_assoc.
    + rewrite (WithSuffix_ext s _ _ Hplain).
      replace (dir ++ "/" ++ stem ++ "." ++ old) with ((dir ++ "/" ++ stem) ++ "." ++ old)
        by (now rewrite !append_assoc).
      rewrite (WithSuffix_ext s _ _ Hplain).
      destruct (strings.TrimSpace s =? ""); now rewrite ?append_assoc.
Qed.

(** The table at work: the third row on ["/foo/bar.a/baz.zip"] and the
    requested suffix [" conf "]. *)
Lemma WithSuffix_policy_table_witness :
  WithSuffix "/foo/bar.a/baz.zip" " conf " = "/foo/bar.a/baz.conf".
Proof.
  destruct (WithSuffix_policy_table "/foo/bar.a/baz.zip" " conf ") as (_ & _ & Hrow & _).
  apply (Hrow "/foo/bar.a/baz" "zip"); [reflexivity | reflexivity | discriminate].
Defined.

(** Applying [WithSuffix] twice need not be applying it once: a suffix with a
    dot in it is added again, a suffix of white space strips one more
    extension, and a suffix with a separator starts a new final segment. *)
Lemma WithSuffix_twice_counterexample :
  "tar.gz" <> "" /\
  WithSuffix "foo" "tar.gz" = "foo.tar.gz" /\
  WithSuffix (WithSuffix "foo" "tar.gz") "tar.gz" = "foo.tar.tar.gz" /\
  WithSuffix (WithSuffix "foo" "tar.gz") "tar.gz" <> WithSuffix "foo" "tar.gz".
Proof. repeat split; try reflexivity; discriminate. Qed.

Example WithSuffix_twice_blank :
  WithSuffix "a.b.c" " " = "a.b" /\ WithSuffix (WithSuffix "a.b.c" " ") " " = "a".
Proof. split; reflexivity. Qed.

Example WithSuffix_twice_separator :
  WithSuffix "foo.x" "a/b" = "foo.a/b" /\
  WithSuffix (WithSuffix "foo.x" "a/b") "a/b" = "foo.a/b.a/b".
Proof. split; reflexivity. Qed.

(** C6, amended.  When the requested suffix, trimmed, is not empty and holds
    neither a dot nor a separator, [WithSuffix] with it is idempotent, and the
    path it returns has that suffix as its extension. *)
Theorem WithSuffix_idempotent (p : Path) (s : string) :
  strings.TrimSpace s <> "" ->
  plainExt (strings.TrimSpace s) = true ->
  WithSuffix (WithSuffix p s) s = WithSuffix p s /\
  filepath.Ext (WithSuffix p s) = "." ++ strings.TrimSpace s.
Proof.
  intros Hsome Hplain. destruct (WithSuffix_shape s p Hsome) as (stem & ->).
  apply String.eqb_neq in Hsome. split.
  - rewrite (WithSuffix_ext s _ _ Hplain). now rewrite Hsome.
  - now apply Ext_dot.
Qed.

Lemma WithSuffix_idempotent_witness :
  WithSuffix (WithSuffix "/foo/bar.a/baz.zip" " conf ") " conf "
    = WithSuffix "/foo/bar.a/baz.zip" " conf " /\
  filepath.Ext (WithSuffix "/foo/bar.a/baz.zip" " conf ") = ".conf".
Proof.
  apply (WithSuffix_idempotent "/foo/bar.a/baz.zip" " conf "); [discriminate | reflexivity].
Defined.

(** ** When [WithSuffix] is not idempotent *)

Section WithSuffixTwice.

(** A string that is not plain splits at its last dot or separator. *)
Lemma last_special_split (t : string) :
  plainExt t = false ->
  exists t1 c t2,
    t = t1 ++ String c t2 /\ (c = "."%char \/ c = "/"%char) /\ plainExt t2 = true.
Proof.
  induction t as [|c t IH]; [discriminate|].
  destruct (plainExt t) eqn:Ht.
  - intros Hc. exists "", c, t. repeat split; trivial.
    unfold plainExt in *. cbn [noByte] in Hc.
    destruct (Ascii.eqb_spec c "."); [now left|].
    destruct (Ascii.eqb_spec c "/"); [now right|].
    cbn [negb andb] in Hc. congruence.
  - intros _. destruct (IH eq_refl) as (t1 & d & t2 & -> & Hd & Ht2).
    now exists (String c t1), d, t2.
Qed.

(** With a suffix that holds a dot or a separator, a second [WithSuffix]
    makes the path longer. *)
Lemma WithSuffix_again_longer (stem s : string) :
  plainExt (strings.TrimSpace s) = false ->
  length (stem ++ "." ++ strings.TrimSpace s) <
  length (WithSuffix (stem ++ "." ++ strings.TrimSpace s) s).
Proof.
  intros Hspecial.
  assert (Hsome : (strings.TrimSpace s =? "") = false)
    by (destruct (strings.TrimSpace s); [discriminate | reflexivity]).
  destruct (last_special_split _ Hspecial) as (t1 & c & t2 & Ht & [-> | ->] & Ht2).
  - (* the last dot of the suffix starts the extension *)
    assert (Hq : stem ++ "." ++ strings.TrimSpace s = (stem ++ "." ++ t1) ++ "." ++ t2)
      by (rewrite Ht; now rewrite !append_assoc).
    rewrite Hq, (WithSuffix_ext s _ _ Ht2), Hsome.
    rewrite !length_append, Ht, !length_append. simpl. lia.
  - (* after the last separator there is no extension *)
    assert (Hq : stem ++ "." ++ strings.TrimSpace s = (stem ++ "." ++ t1) ++ "/" ++ t2)
      by (rewrite Ht; now rewrite !append_assoc).
    assert (HExt : filepath.Ext (stem ++ "." ++ strings.TrimSpace s) = "")
      by (rewrite Hq; now apply Ext_after_separator).
    rewrite (WithSuffix_no_ext s _ HExt), Hsome.
    rewrite !length_append. simpl. lia.
Qed.

(** X4.  For a requested suffix that is not blank, [WithSuffix] is idempotent
    exactly when the trimmed suffix holds neither a dot nor a separator. *)
Theorem WithSuffix_idempotent_iff (p : Path) (s : string) :
  strings.TrimSpace s <> "" ->
  (WithSuffix (WithSuffix p s) s = WithSuffix p s <->
   plainExt (strings.TrimSpace s) = true).
Proof.
  intros Hsome. split.
  - intros Hsame. destruct (plainExt (strings.TrimSpace s)) eqn:Hplain; [reflexivity|].
    exfalso. destruct (WithSuffix_shape s p Hsome) as (stem & Hshape).
    rewrite Hshape in Hsame.
    pose proof (WithSuffix_again_longer stem s Hplain) as Hlonger.
    rewrite Hsame in Hlonger. lia.
  - intros Hplain. destruct (WithSuffix_shape s p Hsome) as (stem & ->).
    rewrite (WithSuffix_ext s _ _ Hplain).
    apply String.eqb_neq in Hsome. now rewrite Hsome.
Qed.

End WithSuffixTwice.

Lemma WithSuffix_idempotent_iff_witness :
  WithSuffix (WithSuffix "foo.bar" "baz") "baz" = WithSuffix "foo.bar" "baz" <->
  plainExt (strings.TrimSpace "baz") = true.
Proof. apply (WithSuffix_idempotent_iff "foo.bar" "baz"). discriminate. Defined.

(** ** The elements of a path *)

Section ElementFacts.

Lemma element_cons (c : ascii) (r : string) :
  os.IsPathSeparator c = false ->
  filepath.element (String c r) = String c (filepath.element r) /\
  filepath.afterElement (String c r) = filepath.afterElement r.
Proof. intros Hc. cbn [filepath.element filepath.afterElement]. now rewrite Hc. Qed.

Lemma element_ends (r : string) :
  filepath.endsElement r = true ->
  filepath.element r = "" /\ filepath.afterElement r = r.
Proof.
  destruct r as [|d r]; [now split|].
  cbn [filepath.endsElement filepath.element filepath.afterElement].
  now intros ->.
Qed.

Lemma elements_unfold (c : ascii) (s : string) :
  elements (String c s) =
    if os.IsPathSeparator c then elements s
    else if filepath.endsElement s then String c "" :: elements s
    else
      match elements s with
      | e :: es => String c e :: es
      | [] => [String c ""]
      end.
Proof. reflexivity. Qed.

(** The first element is what the copy loop of [Clean] reads. *)
Lemma elements_cons (c : ascii) (r : string) :
  os.IsPathSeparator c = false ->
  elements (String c r) =
    filepath.element (String c r) :: elements (filepath.afterElement (String c r)).
Proof.
  revert c. induction r as [|d r IH]; intros c Hc.
  - rewrite elements_unfold, Hc.
    now destruct (element_cons c "" Hc) as (-> & ->).
  - destruct (element_cons c (String d r) Hc) as (-> & ->). rewrite elements_unfold, Hc.
    cbn [filepath.endsElement].
    destruct (os.IsPathSeparator d) eqn:Hd.
    + now destruct (element_ends (String d r) Hd) as (-> & ->).
    + now rewrite (IH d Hd).
Qed.

Lemma elements_separator (c : ascii) (r : string) :
  os.IsPathSeparator c = true -> elements (String c r) = elements r.
Proof. intros Hc. cbn [elements]. now rewrite Hc. Qed.

Lemma elements_app_sep (a b : string) :
  elements (a ++ "/" ++ b) = (elements a ++ elements b)%list.
Proof.
  induction a as [|c a IH].
  - reflexivity.
  - cbn [append] in IH |- *. rewrite !elements_unfold.
    destruct (os.IsPathSeparator c) eqn:Hc; [exact IH|].
    rewrite IH. destruct a as [|d a].
    + reflexivity.
    + cbn [append filepath.endsElement].
      destruct (os.IsPathSeparator d) eqn:Hd; [reflexivity|].
      rewrite (elements_cons d a Hd). reflexivity.
Qed.

(** The elements of a path are not empty and hold no separator. *)
Lemma elements_are_elements (s : string) : Forall isElement (elements s).
Proof.
  induction s as [|c s IH]; [constructor|].
  rewrite elements_unfold. destruct (os.IsPathSeparator c) eqn:Hc; [exact IH|].
  assert (Hone : isElement (String c "")).
  { split; [discriminate|]. cbn [noByte]. rewrite IsPathSeparator_eqb in Hc. now rewrite Hc. }
  destruct (filepath.endsElement s); [now constructor|].
  destruct (elements s) as [|e es]; [now constructor|].
  inversion IH as [|? ? (He & Hno) Hes]; subst. constructor; [|assumption].
  split; [discriminate|]. cbn [noByte]. rewrite IsPathSeparator_eqb in Hc. now rewrite Hc, Hno.
Qed.

Lemma elements_single (e : string) : isElement e -> elements e = [e].
Proof.
  intros (He & Hno). induction e as [|c e IH]; [congruence|].
  cbn [noByte] in Hno. apply andb_prop in Hno as (Hc & Hno).
  rewrite elements_unfold, IsPathSeparator_eqb. apply negb_true_iff in Hc. rewrite Hc.
  destruct e as [|d e]; [reflexivity|].
  cbn [filepath.endsElement]. rewrite IsPathSeparator_eqb.
  pose proof Hno as Hd. cbn [noByte] in Hd. apply andb_prop in Hd as (Hd & _).
  apply negb_true_iff in Hd. rewrite Hd.
  now rewrite IH.
Qed.

Lemma elements_concat (es : list string) :
  Forall isElement es -> elements (String.concat "/" es) = es.
Proof.
  induction es as [|e es IH]; intros Hes; [reflexivity|].
  inversion Hes as [|? ? He Hes']; subst.
  destruct es as [|e' es].
  - cbn [concat]. now apply elements_single.
  - change (concat "/" (e :: e' :: es)) with (e ++ "/" ++ concat "/" (e' :: es)).
    rewrite elements_app_sep, (elements_single e He), (IH Hes'). reflexivity.
Qed.

Lemma elements_render (rooted : bool) (es : list string) :
  Forall isElement es -> elements (render rooted es) = es.
Proof.
  intros Hes. unfold render. destruct rooted; [|now apply elements_concat].
  change ("/" ++ concat "/" es) with ("" ++ "/" ++ concat "/" es).
  rewrite elements_app_sep. now apply elements_concat.
Qed.

End ElementFacts.

(** ** Elements kept in normal form *)

Section LexicalFacts.

Variable rooted : bool.

Lemma plainElement_spec (e : string) :
  plainElement e = true <-> isElement e /\ e <> "." /\ e <> "..".
Proof.
  unfold plainElement, isElement.
  destruct (String.eqb_spec e ""), (String.eqb_spec e "."), (String.eqb_spec e "..");
    destruct (noByte "/" e); cbn; intuition congruence.
Qed.

Lemma dotdot_isElement : isElement "..".
Proof. split; [discriminate | reflexivity]. Qed.

Lemma Normal_nil : Normal rooted [].
Proof. exists [], []. repeat split; auto. Qed.

Lemma Normal_elements (kept : list string) : Normal rooted kept -> Forall isElement kept.
Proof.
  intros (plains & ups & -> & Hplains & Hups & _). apply Forall_app. split.
  - eapply Forall_impl; [|exact Hplains]. intros e He. now apply plainElement_spec in He.
  - eapply Forall_impl; [|exact Hups]. intros e <-. exact dotdot_isElement.
Qed.

(** Taking the last element off a normal form leaves a normal form, and
    reading that element again puts it back. *)
Lemma Normal_cons_inv (x : string) (l : list string) :
  Normal rooted (x :: l) -> Normal rooted l /\ lexicalStep rooted l x = x :: l.
Proof.
  intros (plains & ups & Hkept & Hplains & Hups & Hroot).
  destruct plains as [|p ps]; cbn [app] in Hkept.
  - subst ups. inversion Hups as [|? ? Hx Hl]; subst.
    assert (Hr : rooted = false) by (destruct rooted; [now specialize (Hroot eq_refl)|reflexivity]).
    split.
    + exists [], l. repeat split; auto. intros; congruence.
    + unfold lexicalStep. cbn [String.eqb Ascii.eqb Bool.eqb]. rewrite Hr.
      destruct l as [|top below]; [reflexivity|].
      inversion Hl as [|? ? Htop _]; subst. reflexivity.
  - injection Hkept as -> ->. inversion Hplains as [|? ? Hp Hps]; subst.
    split.
    + now exists ps, ups.
    + apply plainElement_spec in Hp as (_ & Hdot & Hdotdot).
      unfold lexicalStep. apply String.eqb_neq in Hdot, Hdotdot. now rewrite Hdot, Hdotdot.
Qed.

Lemma lexicalStep_Normal (kept : list string) (e : string) :
  Normal rooted kept -> isElement e -> Normal rooted (lexicalStep rooted kept e).
Proof.
  intros HN He. unfold lexicalStep.
  destruct (String.eqb_spec e "."); [exact HN|].
  destruct (String.eqb_spec e "..").
  - subst e. destruct kept as [|top below].
    + destruct rooted eqn:Hr; [exact HN|].
      exists [], [".."]. repeat split; auto. intros; congruence.
    + destruct (String.eqb_spec top "..").
      * subst top. destruct HN as (plains & ups & Hkept & Hplains & Hups & Hroot).
        destruct plains as [|p ps]; cbn [app] in Hkept.
        -- exists [], (".." :: ups). subst ups. repeat split; auto.
           intros Hr. now specialize (Hroot Hr).
        -- injection Hkept as <- _. inversion Hplains as [|? ? Hp _]; subst.
           now apply plainElement_spec in Hp.
      * now apply Normal_cons_inv in HN.
  - destruct HN as (plains & ups & -> & Hplains & Hups & Hroot).
    exists (e :: plains), ups. repeat split; auto.
    constructor; [|assumption]. now apply plainElement_spec.
Qed.

Lemma lexicalStep_plain (kept : list string) (e : string) :
  plainElement e = true -> lexicalStep rooted kept e = e :: kept.
Proof.
  intros (_ & Hdot & Hdd)%plainElement_spec. unfold lexicalStep.
  apply String.eqb_neq in Hdot, Hdd. now rewrite Hdot, Hdd.
Qed.

Lemma fold_lexicalStep_Normal (es kept : list string) :
  Normal rooted kept -> Forall isElement es ->
  Normal rooted (fold_left (lexicalStep rooted) es kept).
Proof.
  revert kept. induction es as [|e es IH]; intros kept HN Hes; [exact HN|].
  inversion Hes; subst. cbn [fold_left]. apply IH; [|assumption].
  now apply lexicalStep_Normal.
Qed.

(** Reading the elements of a normal form gives it back. *)
Lemma lexical_fixed (kept : list string) :
  Normal rooted kept -> fold_left (lexicalStep rooted) (rev kept) [] = kept.
Proof.
  induction kept as [|x l IH]; intros HN; [reflexivity|].
  apply Normal_cons_inv in HN as (HN & Hstep).
  cbn [rev]. rewrite fold_left_app. cbn [fold_left]. now rewrite (IH HN).
Qed.

End LexicalFacts.

(** ** From elements to paths *)

Section RenderFacts.

Lemma concat_snoc (es : list string) (e : string) :
  String.concat "/" (es ++ [e]) =
    match es with
    | [] => e
    | _ => String.concat "/" es ++ "/" ++ e
    end.
Proof.
  induction es as [|x es IH]; [reflexivity|].
  destruct es as [|y es]; [reflexivity|].
  change (concat "/" ((x :: y :: es) ++ [e])) with (x ++ "/" ++ concat "/" ((y :: es) ++ [e])).
  rewrite IH. change (concat "/" (x :: y :: es)) with (x ++ "/" ++ concat "/" (y :: es)).
  now rewrite !append_assoc.
Qed.

Lemma concat_cons_length (e : string) (es : list string) :
  length e <= length (String.concat "/" (e :: es)).
Proof.
  destruct es as [|y es]; [cbn [concat]; lia|].
  change (concat "/" (e :: y :: es)) with (e ++ "/" ++ concat "/" (y :: es)).
  rewrite length_append. lia.
Qed.

Lemma isElement_length (e : string) : isElement e -> 1 <= length e.
Proof. intros (He & _). destruct e; [congruence | simpl; lia]. Qed.

Lemma render_snoc (rooted : bool) (es : list string) (e : string) :
  Forall isElement es ->
  render rooted (es ++ [e]) =
    (let out := render rooted es in
     if rooted && negb (length out =? 1)%nat || negb rooted && negb (length out =? 0)%nat
     then out ++ "/" else out) ++ e.
Proof.
  intros Hes. unfold render. rewrite concat_snoc. destruct es as [|x es].
  - now destruct rooted.
  - inversion Hes as [|? ? Hx _]; subst. apply isElement_length in Hx.
    pose proof (concat_cons_length x es) as Hlen. cbv zeta.
    destruct rooted; cbn [andb orb negb append length].
    + destruct (Nat.eqb_spec (S (length (concat "/" (x :: es)))) 1) as [E|_]; [lia|].
      cbn [negb orb andb append]. f_equal. now rewrite append_assoc.
    + destruct (Nat.eqb_spec (length (concat "/" (x :: es))) 0) as [E|_]; [lia|].
      cbn [negb orb andb append]. now rewrite append_assoc.
Qed.

Lemma render_length_app (rooted : bool) (a b : list string) :
  length (render rooted a) <= length (render rooted (a ++ b)).
Proof.
  induction b as [|e b IH] using rev_ind; [now rewrite app_nil_r|].
  rewrite app_assoc. unfold render in *. rewrite !length_append in *.
  rewrite concat_snoc. destruct (a ++ b)%list; [simpl in *; lia|].
  rewrite !length_append. lia.
Qed.

Lemma render_length_snoc (rooted : bool) (a : list string) (e : string) :
  isElement e -> length (render rooted a) < length (render rooted (a ++ [e])).
Proof.
  intros He. apply isElement_length in He. unfold render. rewrite !length_append, concat_snoc.
  destruct a; [simpl; lia|]. rewrite !length_append. lia.
Qed.

Lemma IsAbs_cons (c : ascii) (r : string) : filepath.IsAbs (String c r) = os.IsPathSeparator c.
Proof.
  unfold filepath.IsAbs, strings.HasPrefix, os.IsPathSeparator, os.PathSeparator.
  cbn [prefix]. destruct (ascii_dec "/" c) as [<-|Hc].
  - now destruct r.
  - symmetry. now apply Ascii.eqb_neq.
Qed.

Lemma isElement_not_rooted (e : string) : isElement e -> filepath.IsAbs e = false.
Proof.
  intros (He & Hno). destruct e as [|c e]; [congruence|].
  rewrite IsAbs_cons, IsPathSeparator_eqb. cbn [noByte] in Hno.
  apply andb_prop in Hno as (Hc & _). now apply negb_true_iff in Hc.
Qed.

Lemma render_IsAbs (rooted : bool) (es : list string) :
  Forall isElement es -> filepath.IsAbs (render rooted es) = rooted.
Proof.
  intros Hes. unfold render. destruct rooted; [apply IsAbs_cons|].
  cbn [append]. destruct es as [|e es]; [reflexivity|].
  inversion Hes as [|? ? He _]; subst.
  pose proof (isElement_not_rooted e He) as Hrel. destruct He as (He & _).
  destruct e as [|c e]; [congruence|]. rewrite IsAbs_cons in Hrel.
  destruct es as [|y es]; cbn [concat append]; now rewrite IsAbs_cons.
Qed.

End RenderFacts.

(** ** The loop of [filepath.Clean] *)

Section BacktrackFacts.

Lemma noByte_get (t : string) (j : nat) (x : ascii) :
  noByte "/" t = true -> get j t = Some x -> os.IsPathSeparator x = false.
Proof.
  revert j. induction t as [|c t IH]; intros j Hno Hget; [discriminate|].
  cbn [noByte] in Hno. apply andb_prop in Hno as (Hc & Hno).
  destruct j as [|j]; cbn [get] in Hget.
  - injection Hget as <-. rewrite IsPathSeparator_eqb. now apply negb_true_iff.
  - now apply (IH j).
Qed.

Lemma backtrack_stop (buf : string) (dotdot w : nat) :
  w <= dotdot \/ filepath.isSepAt buf w = true -> filepath.backtrack buf dotdot w = w.
Proof.
  destruct w as [|w]; [reflexivity|]. cbn [filepath.backtrack]. intros [Hw | Hsep].
  - destruct (Nat.ltb_spec dotdot (S w)); [lia | reflexivity].
  - rewrite Hsep. cbn [negb]. now rewrite andb_false_r.
Qed.

Lemma backtrack_skip (buf : string) (dotdot w0 k : nat) :
  dotdot <= w0 ->
  (forall i, w0 < i <= w0 + k -> filepath.isSepAt buf i = false) ->
  filepath.backtrack buf dotdot (w0 + k) = filepath.backtrack buf dotdot w0.
Proof.
  intros Hdd. induction k as [|k IH]; intros Hskip; [now rewrite Nat.add_0_r|].
  rewrite Nat.add_succ_r. cbn [filepath.backtrack].
  rewrite (Hskip (S (w0 + k))) by lia.
  destruct (Nat.ltb_spec dotdot (S (w0 + k))); [|lia]. cbn [negb andb].
  apply IH. intros i Hi. apply Hskip. lia.
Qed.

(** Backtracking over an element [t] that follows [A ++ c]: the buffer is cut
    after [A], when [c] is a separator or [A] is where [..] must stop. *)
Lemma backtrack_element (A t : string) (c : ascii) (dotdot : nat) :
  noByte "/" t = true ->
  dotdot <= length A ->
  length A = dotdot \/ os.IsPathSeparator c = true ->
  filepath.backtrack (A ++ String c t) dotdot (length (A ++ String c t) - 1) = length A.
Proof.
  intros Hno Hdd Hstop.
  replace (length (A ++ String c t) - 1) with (length A + length t)
    by (rewrite length_append; simpl; lia).
  rewrite backtrack_skip; [| exact Hdd |].
  - apply backtrack_stop. destruct Hstop as [Hlen | Hsep]; [left; lia | right].
    unfold filepath.isSepAt. rewrite get_length_append. exact Hsep.
  - intros i Hi. unfold filepath.isSepAt.
    replace i with (length A + S (i - length A - 1)) by lia.
    rewrite get_append_r. cbn [get].
    destruct (get (i - length A - 1) t) as [x|] eqn:Hget; [|reflexivity].
    exact (noByte_get _ _ _ Hno Hget).
Qed.

End BacktrackFacts.

Section CopyFacts.

Lemma element_noByte (s : string) : noByte "/" (filepath.element s) = true.
Proof.
  induction s as [|c s IH]; [reflexivity|]. cbn [filepath.element].
  destruct (os.IsPathSeparator c) eqn:Hc; [reflexivity|].
  cbn [noByte]. rewrite IsPathSeparator_eqb in Hc. now rewrite Hc, IH.
Qed.

Lemma element_empty_iff (s : string) :
  filepath.element s = "" <-> filepath.endsElement s = true.
Proof.
  destruct s as [|c s]; [now split|]. cbn [filepath.element filepath.endsElement].
  destruct (os.IsPathSeparator c); split; congruence.
Qed.

Lemma element_dot_iff (s : string) :
  filepath.element s = "." <->
  filepath.startsDot s && filepath.endsElement (filepath.behead s) = true.
Proof.
  destruct s as [|c s]; [now split|].
  cbn [filepath.element filepath.startsDot filepath.behead].
  destruct (os.IsPathSeparator c) eqn:Hc.
  - split; [discriminate|]. intros (Hdot & _)%andb_prop.
    apply Ascii.eqb_eq in Hdot. subst c. discriminate.
  - destruct (Ascii.eqb_spec c ".") as [->|Hdot]; cbn [andb].
    + rewrite <- element_empty_iff. split; [now intros [= ->] | now intros ->].
    + split; [intros [= -> _]; congruence | discriminate].
Qed.

Lemma afterElement_length (s : string) : length (filepath.afterElement s) <= length s.
Proof.
  induction s as [|c s IH]; [reflexivity|]. cbn [filepath.afterElement].
  destruct (os.IsPathSeparator c); simpl; lia.
Qed.

End CopyFacts.

Section CleanLoop.

Lemma Forall_plain_isElement (plains : list string) :
  Forall (fun e => plainElement e = true) plains -> Forall isElement plains.
Proof.
  intros Hplains. eapply Forall_impl; [|exact Hplains].
  intros e He. now apply plainElement_spec in He.
Qed.

Lemma Forall_dotdot_isElement (ups : list string) :
  Forall (eq "..") ups -> Forall isElement ups.
Proof.
  intros Hups. eapply Forall_impl; [|exact Hups]. intros e <-. exact dotdot_isElement.
Qed.

Lemma Clean_loop_unfold (fuel : nat) (rooted : bool) (c : ascii) (rest1 out : string)
  (dotdot : nat) :
  filepath.Clean_loop (S fuel) rooted (String c rest1) out dotdot =
    if os.IsPathSeparator c then filepath.Clean_loop fuel rooted rest1 out dotdot
    else if Ascii.eqb c "." && filepath.endsElement rest1 then
      filepath.Clean_loop fuel rooted rest1 out dotdot
    else if Ascii.eqb c "." && filepath.startsDot rest1
            && filepath.endsElement (filepath.behead rest1) then
      let rest2 := filepath.behead rest1 in
      if (dotdot <? length out)%nat then
        let w := filepath.backtrack out dotdot (length out - 1) in
        filepath.Clean_loop fuel rooted rest2 (substring 0 w out) dotdot
      else if negb rooted then
        let out := if (0 <? length out)%nat then out ++ "/" else out in
        let out := out ++ ".." in
        filepath.Clean_loop fuel rooted rest2 out (length out)
      else filepath.Clean_loop fuel rooted rest2 out dotdot
    else
      let out :=
        if rooted && negb (length out =? 1)%nat || negb rooted && negb (length out =? 0)%nat
        then out ++ "/" else out in
      filepath.Clean_loop fuel rooted (filepath.afterElement (String c rest1))
        (out ++ filepath.element (String c rest1)) dotdot.
Proof. reflexivity. Qed.

(** A plain element is appended, after a separator if need be. *)
Lemma Inv_push (rooted : bool) (kept : list string) (out e : string) (dotdot : nat) :
  Inv rooted kept out dotdot -> plainElement e = true ->
  Inv rooted (e :: kept)
    ((if rooted && negb (length out =? 1)%nat || negb rooted && negb (length out =? 0)%nat
      then out ++ "/" else out) ++ e) dotdot.
Proof.
  intros (plains & ups & -> & Hplains & Hups & Hroot & -> & ->) He.
  exists (e :: plains), ups. repeat split; auto.
  cbn [rev app]. rewrite render_snoc; [reflexivity|].
  apply Forall_rev, Forall_app. split;
    [now apply Forall_plain_isElement | now apply Forall_dotdot_isElement].
Qed.

(** A [..] element removes the last plain element, or is kept when the path
    is not rooted and nothing is left to remove, or is dropped at the root. *)
Lemma Inv_dotdot (rooted : bool) (kept : list string) (out : string) (dotdot : nat) :
  Inv rooted kept out dotdot ->
  let kept' := lexicalStep rooted kept ".." in
  if (dotdot <? length out)%nat then
    Inv rooted kept' (substring 0 (filepath.backtrack out dotdot (length out - 1)) out) dotdot
  else if negb rooted then
    Inv rooted kept' ((if (0 <? length out)%nat then out ++ "/" else out) ++ "..")
      (length ((if (0 <? length out)%nat then out ++ "/" else out) ++ ".."))
  else Inv rooted kept' out dotdot.
Proof.
  intros (plains & ups & -> & Hplains & Hups & Hroot & -> & ->).
  pose proof (Forall_dotdot_isElement _ Hups) as Hupse.
  destruct plains as [|top ps]; cbn [app].
  - (* nothing to remove *)
    rewrite Nat.ltb_irrefl. destruct rooted eqn:Hr; cbn [negb].
    + rewrite (Hroot eq_refl). cbn. exists [], []. repeat split; auto.
    + assert (Hkept : lexicalStep false ups ".." = ".." :: ups).
      { unfold lexicalStep. cbn [String.eqb Ascii.eqb Bool.eqb].
        destruct ups as [|top below]; [reflexivity|].
        inversion Hups as [|? ? Htop _]; subst. reflexivity. }
      cbv zeta. rewrite Hkept.
      assert (Hout : render false (rev (".." :: ups)) =
                     (if (0 <? length (render false (rev ups)))%nat
                      then render false (rev ups) ++ "/" else render false (rev ups)) ++ "..").
      { cbn [rev]. rewrite render_snoc by now apply Forall_rev.
        cbn [andb orb negb]. now destruct (length (render false (rev ups))). }
      rewrite <- Hout. exists [], (".." :: ups). repeat split; auto. intros; congruence.
  - (* the last plain element goes *)
    inversion Hplains as [|? ? Htop Hps]; subst.
    apply plainElement_spec in Htop as ((Htop & Hno) & _ & Hdd).
    pose proof (Forall_plain_isElement _ Hps) as Hpse.
    assert (Hbelow : Forall isElement (rev (ps ++ ups)))
      by (apply Forall_rev, Forall_app; now split).
    assert (Hle : length (render rooted (rev ups)) <= length (render rooted (rev (ps ++ ups))))
      by (rewrite rev_app_distr; apply render_length_app).
    cbn [rev].
    assert (Hlt : length (render rooted (rev (ps ++ ups)))
                  < length (render rooted (rev (ps ++ ups) ++ [top])))
      by (apply render_length_snoc; now split).
    destruct (Nat.ltb_spec (length (render rooted (rev ups)))
                (length (render rooted (rev (ps ++ ups) ++ [top])))); [|lia].
    assert (Hkept : lexicalStep rooted (top :: ps ++ ups) ".." = (ps ++ ups)%list).
    { unfold lexicalStep. cbn [String.eqb Ascii.eqb Bool.eqb].
      apply String.eqb_neq in Hdd. now rewrite Hdd. }
    cbv zeta. rewrite Hkept.
    assert (Hcut : substring 0
              (filepath.backtrack (render rooted (rev (ps ++ ups) ++ [top]))
                 (length (render rooted (rev ups)))
                 (length (render rooted (rev (ps ++ ups) ++ [top])) - 1))
              (render rooted (rev (ps ++ ups) ++ [top]))
            = render rooted (rev (ps ++ ups))).
    { rewrite render_snoc by assumption. cbv zeta.
      set (X := render rooted (rev (ps ++ ups))) in *.
      destruct (rooted && negb (length X =? 1)%nat || negb rooted && negb (length X =? 0)%nat)
        eqn:Hcond.
      - rewrite append_assoc. cbn [append].
        rewrite backtrack_element; auto. apply substring_0_append.
      - destruct top as [|c0 t0]; [congruence|].
        cbn [noByte] in Hno. apply andb_prop in Hno as (_ & Hno).
        rewrite backtrack_element; auto; [apply substring_0_append|].
        left. destruct rooted eqn:Hr; cbn [andb orb negb] in Hcond;
          rewrite ?orb_false_r in Hcond.
        + rewrite (Hroot eq_refl) in *. cbn [rev render append concat length] in *.
          apply negb_false_iff, Nat.eqb_eq in Hcond. lia.
        + apply negb_false_iff, Nat.eqb_eq in Hcond. lia. }
    rewrite Hcut. exists ps, ups. repeat split; auto.
Qed.

End CleanLoop.

Section CleanFacts.

(** The loop computes the path of the elements that lexical processing
    keeps. *)
Lemma Clean_loop_elements (rooted : bool) (fuel : nat) :
  forall (rest out : string) (dotdot : nat) (kept : list string),
    length rest <= fuel ->
    Inv rooted kept out dotdot ->
    filepath.Clean_loop fuel rooted rest out dotdot =
      render rooted (rev (fold_left (lexicalStep rooted) (elements rest) kept)).
Proof.
  induction fuel as [|fuel IH]; intros rest out dotdot kept Hfuel HInv.
  - destruct rest; [|simpl in Hfuel; lia].
    destruct HInv as (? & ? & _ & _ & _ & _ & -> & _). reflexivity.
  - destruct rest as [|c rest1].
    + destruct HInv as (? & ? & _ & _ & _ & _ & -> & _). reflexivity.
    + cbn [length] in Hfuel. rewrite Clean_loop_unfold.
      destruct (os.IsPathSeparator c) eqn:Hc.
      { rewrite (elements_separator _ _ Hc). apply IH; [lia | exact HInv]. }
      rewrite (elements_cons _ _ Hc). cbn [fold_left].
      destruct (element_cons c rest1 Hc) as (He & Hafter). rewrite He, Hafter.
      destruct (Ascii.eqb_spec c ".") as [-> | Hdot]; cbn [andb].
      * destruct (filepath.endsElement rest1) eqn:Hend.
        { (* . element *)
          destruct (element_ends _ Hend) as (-> & ->).
          apply IH; [lia | exact HInv]. }
        destruct (filepath.startsDot rest1 && filepath.endsElement (filepath.behead rest1))
          eqn:Hdd.
        { (* .. element *)
          pose proof (proj2 (element_dot_iff rest1) Hdd) as Hel. rewrite Hel.
          assert (Hrest2 : filepath.afterElement rest1 = filepath.behead rest1
                           /\ length (filepath.behead rest1) <= fuel).
          { destruct rest1 as [|d rest2]; [discriminate|].
            cbn [filepath.startsDot filepath.behead] in *.
            apply andb_prop in Hdd as (Hd & Hend2). apply Ascii.eqb_eq in Hd. subst d.
            cbn [filepath.afterElement]. change (os.IsPathSeparator ".") with false. cbv iota.
            destruct (element_ends _ Hend2) as (_ & ->). simpl in Hfuel.
            split; [reflexivity | lia]. }
          destruct Hrest2 as (-> & Hlen).
          pose proof (Inv_dotdot _ _ _ _ HInv) as Hstep. cbv zeta in Hstep |- *.
          destruct (dotdot <? length out)%nat; [now apply IH|].
          destruct rooted; cbn [negb] in Hstep |- *; now apply IH. }
        (* an element that starts with a dot *)
        assert (Hplain : plainElement (String "." (filepath.element rest1)) = true).
        { apply plainElement_spec. repeat split.
          - discriminate.
          - cbn [noByte]. now rewrite element_noByte.
          - intros [= Hempty]. apply element_empty_iff in Hempty. congruence.
          - intros [= Hel]. apply element_dot_iff in Hel. congruence. }
        rewrite (lexicalStep_plain _ _ _ Hplain).
        apply IH; [pose proof (afterElement_length rest1); lia|].
        now apply Inv_push.
      * (* real path element *)
        assert (Hplain : plainElement (String c (filepath.element rest1)) = true).
        { apply plainElement_spec. rewrite IsPathSeparator_eqb in Hc.
          repeat split; try discriminate; try (intros [= -> _]; congruence).
          cbn [noByte]. now rewrite Hc, element_noByte. }
        rewrite (lexicalStep_plain _ _ _ Hplain).
        apply IH; [pose proof (afterElement_length rest1); lia|].
        now apply Inv_push.
Qed.

(** [Clean] is lexical processing of the elements of the path. *)
Theorem Clean_elements (path : string) : filepath.Clean path = cleanElements path.
Proof.
  unfold filepath.Clean, cleanElements, cleanOf, lexical.
  destruct path as [|c path1]; [reflexivity|].
  rewrite IsAbs_cons. cbv zeta. rewrite length_eqb_0.
  destruct (os.IsPathSeparator c) eqn:Hc.
  - rewrite (elements_separator _ _ Hc).
    rewrite (Clean_loop_elements true _ path1 "/" 1 []); [reflexivity | simpl; lia |].
    exists [], []. repeat split; auto.
  - rewrite (Clean_loop_elements false _ (String c path1) "" 0 []); [reflexivity | lia |].
    exists [], []. repeat split; auto.
Qed.

(** More fuel than the length of the path changes nothing: the loop has
    ended. *)
Lemma Clean_loop_fuel (rooted : bool) (fuel : nat) (rest out : string) (dotdot : nat)
  (kept : list string) :
  length rest <= fuel -> Inv rooted kept out dotdot ->
  filepath.Clean_loop fuel rooted rest out dotdot =
    filepath.Clean_loop (length rest) rooted rest out dotdot.
Proof.
  intros Hfuel HInv.
  rewrite (Clean_loop_elements rooted fuel rest out dotdot kept Hfuel HInv).
  now rewrite (Clean_loop_elements rooted (length rest) rest out dotdot kept (le_n _) HInv).
Qed.

Lemma lexical_elements (rooted : bool) (path : string) :
  Normal rooted (fold_left (lexicalStep rooted) (elements path) []).
Proof.
  apply fold_lexicalStep_Normal; [apply Normal_nil | apply elements_are_elements].
Qed.

(** [Clean] keeps a rooted path rooted and a relative path relative. *)
Lemma Clean_IsAbs (path : string) : filepath.IsAbs (filepath.Clean path) = filepath.IsAbs path.
Proof.
  rewrite Clean_elements. unfold cleanElements, cleanOf, lexical. cbv zeta.
  pose proof (Normal_elements _ _ (lexical_elements (filepath.IsAbs path) path)) as Hes.
  apply Forall_rev in Hes.
  pose proof (render_IsAbs (filepath.IsAbs path) _ Hes) as Hr.
  destruct (String.eqb_spec (render (filepath.IsAbs path)
              (rev (fold_left (lexicalStep (filepath.IsAbs path)) (elements path) []))) "")
    as [E|_]; [|exact Hr].
  rewrite E in Hr. now rewrite <- Hr.
Qed.

(** [Clean] is idempotent. *)
Lemma Clean_idempotent (path : string) :
  filepath.Clean (filepath.Clean path) = filepath.Clean path.
Proof.
  rewrite !Clean_elements.
  set (rooted := filepath.IsAbs path).
  pose proof (lexical_elements rooted path) as HN.
  set (kept := fold_left (lexicalStep rooted) (elements path) []) in *.
  pose proof (Normal_elements _ _ HN) as Hes. apply Forall_rev in Hes.
  assert (Hshape : cleanElements path = "." \/
                   (cleanElements path = render rooted (rev kept) /\
                    render rooted (rev kept) <> "")).
  { unfold cleanElements, cleanOf, lexical. cbv zeta. fold rooted. fold kept.
    destruct (String.eqb_spec (render rooted (rev kept)) ""); [now left | now right]. }
  destruct Hshape as [-> | (-> & Hne)]; [reflexivity|].
  unfold cleanElements, cleanOf, lexical. cbv zeta.
  rewrite (render_IsAbs rooted _ Hes), (elements_render rooted _ Hes).
  rewrite (lexical_fixed rooted kept HN).
  apply String.eqb_neq in Hne. now rewrite Hne.
Qed.

End CleanFacts.

(** ** [filepath.Join] and [JoinPath] *)

Section JoinFacts.

Lemma IsAbs_append (p q : string) : p <> "" -> filepath.IsAbs (p ++ q) = filepath.IsAbs p.
Proof. destruct p as [|c p]; [congruence|]. intros _. cbn [append]. now rewrite !IsAbs_cons. Qed.

(** Joining onto a receiver that is not empty: the elements of the receiver,
    then those of the component, cleaned; the root is the receiver's. *)
Lemma Join_elements (p c : string) :
  p <> "" ->
  filepath.Join [p; c] = cleanOf (filepath.IsAbs p) (elements p ++ elements c).
Proof.
  intros Hp. cbn [filepath.Join]. apply String.eqb_neq in Hp. rewrite Hp. cbn [negb].
  change (strings.Join [p; c] "/") with (p ++ "/" ++ c).
  rewrite Clean_elements. unfold cleanElements.
  apply String.eqb_neq in Hp. now rewrite (IsAbs_append _ _ Hp), elements_app_sep.
Qed.

Lemma IsAbs_nonempty (path : string) : filepath.IsAbs path = true -> path <> "".
Proof. now intros Habs ->. Qed.

(** Joined to a rooted directory, a name is rooted and clean. *)
Lemma Join_rooted (dir n : string) :
  filepath.IsAbs dir = true ->
  filepath.IsAbs (filepath.Join [dir; n]) = true /\
  filepath.Clean (filepath.Join [dir; n]) = filepath.Join [dir; n].
Proof.
  intros Habs. pose proof (IsAbs_nonempty _ Habs) as Hne.
  cbn [filepath.Join]. apply String.eqb_neq in Hne. rewrite Hne. cbn [negb].
  change (strings.Join [dir; n] "/") with (dir ++ "/" ++ n).
  apply String.eqb_neq in Hne.
  split; [now rewrite Clean_IsAbs, IsAbs_append | apply Clean_idempotent].
Qed.

(** Reading the elements of a clean path is reading those of the path. *)
Lemma fold_cleanOf (rooted : bool) (es : list string) :
  Forall isElement es ->
  fold_left (lexicalStep rooted) (elements (cleanOf rooted es)) [] =
    fold_left (lexicalStep rooted) es [] /\
  filepath.IsAbs (cleanOf rooted es) = rooted /\
  cleanOf rooted es <> "".
Proof.
  intros Hes. unfold cleanOf, lexical. cbv zeta.
  pose proof (fold_lexicalStep_Normal rooted es [] (Normal_nil rooted) Hes) as HN.
  set (kept := fold_left (lexicalStep rooted) es []) in *.
  pose proof (Normal_elements _ _ HN) as Hkept. apply Forall_rev in Hkept.
  pose proof (render_IsAbs rooted _ Hkept) as Habs.
  destruct (String.eqb_spec (render rooted (rev kept)) "") as [E|Hne].
  - rewrite E in Habs. cbn in Habs. subst rooted. repeat split; [|discriminate].
    destruct kept as [|x l]; [reflexivity|]. exfalso.
    apply (f_equal length) in E. cbn [rev] in E.
    pose proof (render_length_snoc false (rev l) x) as Hlt.
    apply Forall_app in Hkept as (_ & Hx). inversion Hx; subst.
    specialize (Hlt ltac:(assumption)). cbn [length] in E. lia.
  - repeat split; [|exact Habs|exact Hne].
    rewrite (elements_render rooted _ Hkept). now apply lexical_fixed.
Qed.

Lemma cleanOf_app (rooted : bool) (es es' : list string) :
  Forall isElement es ->
  cleanOf rooted (elements (cleanOf rooted es) ++ es') = cleanOf rooted (es ++ es').
Proof.
  intros Hes. destruct (fold_cleanOf rooted es Hes) as (Hfold & _).
  unfold cleanOf at 1 3. unfold lexical. now rewrite !fold_left_app, Hfold.
Qed.

(** [JoinPath] on elements: those of the receiver, then those of each
    component in turn. *)
Lemma JoinPath_elements (cs : list Path) :
  forall (p c : Path), p <> "" ->
    JoinPath p (c :: cs) =
      cleanOf (filepath.IsAbs p) (elements p ++ flat_map elements (c :: cs)).
Proof.
  induction cs as [|c' cs IH]; intros p c Hp.
  - cbn [flat_map]. rewrite app_nil_r. now apply Join_elements.
  - change (JoinPath p (c :: c' :: cs)) with (JoinPath (filepath.Join [p; c]) (c' :: cs)).
    rewrite (Join_elements _ _ Hp).
    assert (Hes : Forall isElement (elements p ++ elements c))
      by (apply Forall_app; split; apply elements_are_elements).
    destruct (fold_cleanOf (filepath.IsAbs p) _ Hes) as (_ & Habs & Hne).
    rewrite (IH _ c' Hne), Habs, (cleanOf_app _ _ _ Hes).
    now rewrite <- app_assoc.
Qed.

(** Plain elements are kept as they are. *)
Lemma cleanOf_plain (rooted : bool) (es : list string) :
  Forall (fun e => plainElement e = true) es ->
  render rooted es <> "" ->
  cleanOf rooted es = render rooted es.
Proof.
  intros Hes Hne. unfold cleanOf, lexical. cbv zeta.
  assert (HN : Normal rooted (rev es)).
  { exists (rev es), []. rewrite app_nil_r. repeat split; auto. now apply Forall_rev. }
  assert (Hfold : fold_left (lexicalStep rooted) es [] = rev es).
  { rewrite <- (rev_involutive es) at 1. now apply lexical_fixed. }
  rewrite Hfold, rev_involutive.
  apply String.eqb_neq in Hne. now rewrite Hne.
Qed.

End JoinFacts.

(** The cases of [TestJoinPath] in [path_test.go]. *)
Example TestJoinPath_cases :
  JoinPath "/tmp/" ["foo"; "bar"] = "/tmp/foo/bar" /\
  JoinPath "/tmp" ["foo/bar"] = "/tmp/foo/bar" /\
  JoinPath "foo" ["bar"] = "foo/bar" /\
  JoinPath "foo/bar" ["baz"] = "foo/bar/baz".
Proof. repeat split; reflexivity. Qed.

(** ** The queries [Exists], [IsDir], [IsFile] *)

Section QueryFacts.

Context {FS : Type} {H : os.Host FS}.

Lemma Exists_true_iff (fs : FS) (p : Path) :
  Exists fs p = true <->
  exists absPath fi, filepath.Abs fs p = Ok absPath /\ os.Stat fs absPath = Ok fi.
Proof.
  unfold Exists. split.
  - destruct (filepath.Abs fs p) as [absPath|]; [|discriminate].
    destruct (os.Stat fs absPath) as [fi|] eqn:HStat; [|discriminate].
    intros _. now exists absPath, fi.
  - intros (absPath & fi & -> & ->). reflexivity.
Qed.

Lemma IsDir_true_iff (fs : FS) (p : Path) :
  IsDir fs p = true <->
  exists absPath fi, filepath.Abs fs p = Ok absPath /\ os.Stat fs absPath = Ok fi /\
                     os.IsDir (os.Mode fi) = true.
Proof.
  unfold IsDir. split.
  - destruct (filepath.Abs fs p) as [absPath|]; [|discriminate].
    destruct (os.Stat fs absPath) as [fi|] eqn:HStat; [|discriminate].
    cbv zeta. destruct (os.IsDir (os.Mode fi)) eqn:Hdir; [|discriminate].
    intros _. now exists absPath, fi.
  - intros (absPath & fi & -> & -> & Hdir). cbv zeta. now rewrite Hdir.
Qed.

Lemma IsFile_true_iff (fs : FS) (p : Path) :
  IsFile fs p = true <->
  exists absPath fi, filepath.Abs fs p = Ok absPath /\ os.Stat fs absPath = Ok fi /\
                     os.IsRegular (os.Mode fi) = true.
Proof.
  unfold IsFile. split.
  - destruct (filepath.Abs fs p) as [absPath|]; [|discriminate].
    destruct (os.Stat fs absPath) as [fi|] eqn:HStat; [|discriminate].
    cbv zeta. destruct (os.IsRegular (os.Mode fi)) eqn:Hreg; [|discriminate].
    intros _. now exists absPath, fi.
  - intros (absPath & fi & -> & -> & Hreg). cbv zeta. now rewrite Hreg.
Qed.

Lemma IsDir_Exists (fs : FS) (p : Path) : IsDir fs p = true -> Exists fs p = true.
Proof.
  rewrite IsDir_true_iff, Exists_true_iff.
  intros (absPath & fi & HAbs & HStat & _). now exists absPath, fi.
Qed.

Lemma IsFile_Exists (fs : FS) (p : Path) : IsFile fs p = true -> Exists fs p = true.
Proof.
  rewrite IsFile_true_iff, Exists_true_iff.
  intros (absPath & fi & HAbs & HStat & _). now exists absPath, fi.
Qed.

(** C4.  [Exists], [IsDir] and [IsFile] are functions into [bool]: on every
    path and every state of every host they return a boolean and no error.
    When [filepath.Abs] fails, or when [os.Stat] of the absolute path fails,
    with whatever error (permission denied, no such file, invalid name), all
    three return [false]; a path that does not exist is neither a directory
    nor a file. *)
Theorem queries_collapse_failures (fs : FS) (p : Path) :
  (forall err, filepath.Abs fs p = Err err ->
     Exists fs p = false /\ IsDir fs p = false /\ IsFile fs p = false) /\
  (forall absPath err, filepath.Abs fs p = Ok absPath -> os.Stat fs absPath = Err err ->
     Exists fs p = false /\ IsDir fs p = false /\ IsFile fs p = false) /\
  (Exists fs p = false -> IsDir fs p = false /\ IsFile fs p = false) /\
  (Exists fs p = false <->
     (exists err, filepath.Abs fs p = Err err) \/
     (exists absPath err, filepath.Abs fs p = Ok absPath /\ os.Stat fs absPath = Err err)).
Proof.
  split; [|split; [|split]].
  - intros err HAbs. unfold Exists, IsDir, IsFile. now rewrite HAbs.
  - intros absPath err HAbs HStat. unfold Exists, IsDir, IsFile. now rewrite HAbs, HStat.
  - intros HExists. split.
    + destruct (IsDir fs p) eqn:Hdir; [|reflexivity].
      apply IsDir_Exists in Hdir. congruence.
    + destruct (IsFile fs p) eqn:Hfile; [|reflexivity].
      apply IsFile_Exists in Hfile. congruence.
  - unfold Exists. destruct (filepath.Abs fs p) as [absPath|err].
    + destruct (os.Stat fs absPath) as [fi|err] eqn:HStat.
      * split; [discriminate|]. intros [(err & Herr) | (a & err & Ha & Herr)]; [discriminate|].
        injection Ha as <-. congruence.
      * split; [|reflexivity]. intros _. right. now exists absPath, err.
    + split; [|reflexivity]. intros _. left. now exists err.
Qed.

End QueryFacts.

(** Permission denied on the host that refuses every access; a lost working
    directory and a missing file on the in-memory host. *)
Lemma queries_collapse_failures_witness :
  (Exists tt "/locked/secret" = false /\ IsDir tt "/locked/secret" = false /\
   IsFile tt "/locked/secret" = false) /\
  (Exists memfs.lost "passwd" = false /\ IsDir memfs.lost "passwd" = false /\
   IsFile memfs.lost "passwd" = false) /\
  (IsDir memfs.sample "/foo/bar" = false /\ IsFile memfs.sample "/foo/bar" = false).
Proof.
  repeat apply conj.
  1-3: apply (proj1 (proj2 (queries_collapse_failures tt "/locked/secret"))
                "/locked/secret" (sealedfs.denied "stat" "/locked/secret")); reflexivity.
  1-3: apply (proj1 (queries_collapse_failures memfs.lost "passwd")
                (SyscallError "getwd" ENOENT)); reflexivity.
  1-2: apply (proj1 (proj2 (proj2 (queries_collapse_failures memfs.sample "/foo/bar"))));
       reflexivity.
Defined.

(** ** [Resolve] *)

Section ResolveFacts.

Context {FS : Type} {H : os.Host FS}.

(** The absolute form of a path is clean; when it is rooted, as it is whenever
    [os.Getwd] returns a rooted name, its own absolute form is itself. *)
Lemma Abs_clean (fs : FS) (p absPath : string) :
  filepath.Abs fs p = Ok absPath -> filepath.IsAbs absPath = true ->
  filepath.Clean absPath = absPath.
Proof.
  unfold filepath.Abs. destruct (filepath.IsAbs p).
  - intros [= <-] _. apply Clean_idempotent.
  - destruct (os.Getwd fs) as [wd|]; [|discriminate]. intros [= <-].
    cbn [filepath.Join]. destruct (negb (wd =? "")); [intros _; apply Clean_idempotent|].
    destruct (negb (p =? "")); [intros _; apply Clean_idempotent | discriminate].
Qed.

Lemma Abs_of_absolute (fs : FS) (p absPath : string) :
  filepath.Abs fs p = Ok absPath -> filepath.IsAbs absPath = true ->
  filepath.Abs fs absPath = Ok absPath.
Proof.
  intros HAbs Hrooted. pose proof (Abs_clean fs p absPath HAbs Hrooted) as Hclean.
  unfold filepath.Abs. now rewrite Hrooted, Hclean.
Qed.

(** C3.  [Resolve] fails exactly when [filepath.Abs] fails or the absolute
    path does not exist ([Exists] of it is [false], which for a rooted
    absolute path says that [os.Stat] of it fails); with every error it hands
    back the receiver [p] itself.  When the absolute path exists, [Resolve]
    returns it and no error. *)
Theorem Resolve_spec (fs : FS) (p : Path) :
  (forall err, filepath.Abs fs p = Err err -> Resolve fs p = (p, Some err)) /\
  (forall absPath, filepath.Abs fs p = Ok absPath -> Exists fs absPath = false ->
     Resolve fs p =
       (p, Some (fmt.Errorf ("Cannot resolve path that does not exist: " ++ absPath)))) /\
  (forall absPath, filepath.Abs fs p = Ok absPath -> Exists fs absPath = true ->
     Resolve fs p = (absPath, None)) /\
  (snd (Resolve fs p) <> None <->
     (exists err, filepath.Abs fs p = Err err) \/
     (exists absPath, filepath.Abs fs p = Ok absPath /\ Exists fs absPath = false)) /\
  (snd (Resolve fs p) <> None -> fst (Resolve fs p) = p) /\
  (forall absPath, filepath.Abs fs p = Ok absPath -> filepath.IsAbs absPath = true ->
     (Exists fs absPath = false <-> exists err, os.Stat fs absPath = Err err)).
Proof.
  unfold Resolve. split; [|split; [|split; [|split; [|split]]]].
  - now intros err ->.
  - intros absPath -> HExists. cbv zeta. now rewrite HExists.
  - intros absPath -> HExists. cbv zeta. now rewrite HExists.
  - destruct (filepath.Abs fs p) as [absPath|err]; cbv zeta.
    + destruct (Exists fs absPath) eqn:HExists; cbn [negb snd]; split.
      * intros Hnil. now contradiction Hnil.
      * intros [(err & Herr) | (a & Ha & Hno)]; [discriminate|].
        injection Ha as <-. congruence.
      * intros _. right. now exists absPath.
      * discriminate.
    + cbn [snd]. split; [|discriminate]. intros _. left. now exists err.
  - destruct (filepath.Abs fs p) as [absPath|err]; cbv zeta; [|reflexivity].
    destruct (Exists fs absPath); cbn [negb fst snd]; [|reflexivity].
    intros Hnil. now contradiction Hnil.
  - intros absPath HAbs Hrooted. unfold Exists.
    rewrite (Abs_of_absolute fs p absPath HAbs Hrooted).
    destruct (os.Stat fs absPath) as [fi|err]; split; try discriminate; try reflexivity.
    + intros (err & Herr). discriminate.
    + intros _. now exists err.
Qed.

End ResolveFacts.

(** [TestResolve] and [TestNoResolve] of [path_test.go], on the in-memory
    host, whose working directory is [/tmp]. *)
Lemma Resolve_spec_witness :
  Resolve memfs.sample "fjdksafdsljakfldsjf" =
    ("fjdksafdsljakfldsjf",
     Some (fmt.Errorf "Cannot resolve path that does not exist: /tmp/fjdksafdsljakfldsjf")) /\
  Resolve memfs.sample "/etc/../etc/passwd" = ("/etc/passwd", None) /\
  Resolve memfs.lost "passwd" = ("passwd", Some (SyscallError "getwd" ENOENT)).
Proof.
  repeat apply conj.
  - apply (proj1 (proj2 (Resolve_spec memfs.sample "fjdksafdsljakfldsjf"))); reflexivity.
  - apply (proj1 (proj2 (proj2 (Resolve_spec memfs.sample "/etc/../etc/passwd")))); reflexivity.
  - apply (proj1 (Resolve_spec memfs.lost "passwd")); reflexivity.
Defined.

(** ** The in-memory host creates directories *)

Section MemfsFacts.

Import memfs.

Lemma lookup_app (k k' : string) (n : Node) (ns : list (string * Node)) :
  lookup k (ns ++ [(k', n)]) =
    match lookup k ns with
    | Some n' => Some n'
    | None => if k' =? k then Some n else None
    end.
Proof.
  induction ns as [|[k0 n0] ns IH]; cbn [lookup app]; [reflexivity|].
  now destruct (k0 =? k).
Qed.

(** [mkdirs] keeps what is there and leaves a directory at every name of its
    list; the ones it had to create have the permissions it was given. *)
Lemma mkdirs_spec (perm : Z) (ks : list string) :
  forall ns ns', mkdirs perm ks ns = (ns', None) ->
    (forall k n, lookup k ns = Some n -> lookup k ns' = Some n) /\
    (forall k, In k ks ->
       exists perm', lookup k ns' = Some (Dir perm') /\ (lookup k ns = None -> perm' = perm)).
Proof.
  induction ks as [|k0 ks IH]; intros ns ns' Hrun; cbn [mkdirs] in Hrun.
  - injection Hrun as <-. split; [trivial | intros k []].
  - destruct (lookup k0 ns) as [[perm0|perm0 data]|] eqn:Hk0; [| discriminate |].
    + destruct (IH _ _ Hrun) as (Hkeep & Hdirs). split; [exact Hkeep|].
      intros k [<- | Hin]; [|now apply Hdirs].
      exists perm0. split; [now apply Hkeep | congruence].
    + destruct (IH _ _ Hrun) as (Hkeep & Hdirs).
      assert (Hstep : forall k n, lookup k ns = Some n ->
                                  lookup k (ns ++ [(k0, Dir perm)]) = Some n)
        by (intros k n Hk; rewrite lookup_app; now rewrite Hk).
      split; [intros k n Hk; now apply Hkeep, Hstep|].
      intros k [<- | Hin].
      * exists perm. split; [|reflexivity].
        apply Hkeep. rewrite lookup_app, Hk0. now rewrite String.eqb_refl.
      * destruct (Hdirs k Hin) as (perm' & Hk & Hnew). exists perm'. split; [exact Hk|].
        intros Hnone. destruct (k0 =? k) eqn:Hsame.
        -- (* [k] is [k0], created with [perm] one step earlier, and kept *)
           apply String.eqb_eq in Hsame. subst k0.
           assert (Hthere : lookup k (ns ++ [(k, Dir perm)]) = Some (Dir perm))
             by (rewrite lookup_app, Hk0; now rewrite String.eqb_refl).
           apply Hkeep in Hthere. congruence.
        -- apply Hnew. rewrite lookup_app, Hnone. now rewrite Hsame.
Qed.

End MemfsFacts.

Lemma Clean_nonempty (path : string) : filepath.Clean path <> "".
Proof.
  unfold filepath.Clean. destruct path as [|c path]; [discriminate|].
  cbv zeta. rewrite length_eqb_0.
  match goal with |- context [if ?out =? "" then _ else _] => destruct (String.eqb_spec out "") end;
    [discriminate | assumption].
Qed.

Lemma self_in_ancestors (k : string) : k <> "" -> In k (memfs.ancestors k).
Proof.
  intros Hk. unfold memfs.ancestors. apply in_map_iff.
  exists (length k). split; [apply substring_0_length|].
  apply filter_In. split.
  - apply in_seq. destruct k; [congruence | simpl; lia].
  - now rewrite Nat.eqb_refl.
Qed.

Section MemfsNames.

Import memfs.

(** The key of a name is its absolute form, rooted and clean. *)
Lemma key_Abs (fs : FS) (name k : string) :
  key fs name = Some k ->
  filepath.Abs fs name = Ok k /\ filepath.IsAbs k = true /\ filepath.Clean k = k.
Proof.
  unfold key, filepath.Abs. destruct (name =? ""); [discriminate|].
  destruct (filepath.IsAbs name) eqn:Hname.
  - intros [= <-]. repeat split; [now rewrite Clean_IsAbs | apply Clean_idempotent].
  - cbn [os.Getwd host]. unfold getwd.
    destruct (filepath.IsAbs (cwd fs)) eqn:Hcwd; [|discriminate].
    intros [= <-]. split; [reflexivity | now apply Join_rooted].
Qed.

Lemma key_of_key (fs fs' : FS) (name k : string) :
  key fs name = Some k -> key fs' k = Some k.
Proof.
  intros (_ & Hrooted & Hclean)%key_Abs. unfold key.
  destruct (String.eqb_spec k "") as [->|_]; [discriminate|].
  now rewrite Hrooted, Hclean.
Qed.

Lemma IsDir_ModeDir (perm : Z) : os.IsDir (Z.lor os.ModeDir perm) = true.
Proof.
  unfold os.IsDir. apply negb_true_iff, Z.eqb_neq. intros Hzero.
  apply (f_equal (fun m => Z.testbit m 31)) in Hzero.
  rewrite Z.land_spec, Z.lor_spec in Hzero. discriminate.
Qed.

(** A directory in the table is a directory for [IsDir]. *)
Lemma lookup_IsDir (fs : FS) (name k : string) (perm : Z) :
  key fs name = Some k -> lookup k (nodes fs) = Some (Dir perm) -> IsDir fs name = true.
Proof.
  intros Hkey Hk. pose proof (key_of_key fs fs _ _ Hkey) as Hkk.
  apply key_Abs in Hkey as (HAbs & _).
  apply IsDir_true_iff. exists k, (info (Dir perm)). split; [exact HAbs|].
  cbn [os.Stat host]. unfold stat. rewrite Hkk, Hk. split; [reflexivity|].
  apply IsDir_ModeDir.
Qed.

End MemfsNames.

(** ** [Mkdir] *)

(** C2.  On every host, [Mkdir] of a path that exists returns an error and
    the state it was given; of a path that does not exist it is
    [os.MkdirAll(p, 0755)]: the state and the error are those of that call,
    which creates the directory with its missing ancestors, the mode [0755]
    going through the umask.  On the in-memory host this reads: after a
    [Mkdir] without error the path is a directory, as is each of its
    ancestors, and those that were missing have the mode [0755 &^ umask]. *)
Theorem Mkdir_spec :
  (forall (FS : Type) (H : os.Host FS) (fs : FS) (p : Path),
     Exists fs p = true ->
     Mkdir fs p =
       (fs, Some (fmt.Errorf ("Cannot make directory " ++ p ++ " because it already exists")))) /\
  (forall (FS : Type) (H : os.Host FS) (fs : FS) (p : Path),
     Exists fs p = false -> Mkdir fs p = os.MkdirAll fs p 493%Z) /\
  (forall (fs fs' : memfs.FS) (p : Path),
     Exists fs p = false -> Mkdir fs p = (fs', None) ->
     IsDir fs' p = true /\
     exists k,
       memfs.key fs p = Some k /\
       In k (memfs.ancestors k) /\
       forall a, In a (memfs.ancestors k) ->
         exists perm,
           memfs.lookup a (memfs.nodes fs') = Some (memfs.Dir perm) /\
           (memfs.lookup a (memfs.nodes fs) = None ->
            perm = Z.land 493%Z (Z.lnot (memfs.umask fs)))).
Proof.
  split; [|split].
  - intros FS H fs p HExists. unfold Mkdir. now rewrite HExists.
  - intros FS H fs p HExists. unfold Mkdir. now rewrite HExists.
  - intros fs fs' p HExists Hrun.
    unfold Mkdir in Hrun. rewrite HExists in Hrun.
    cbn [os.MkdirAll memfs.host] in Hrun. unfold memfs.mkdirAll in Hrun.
    destruct (memfs.key fs p) as [k|] eqn:Hkey; [|discriminate].
    destruct (memfs.mkdirs _ (memfs.ancestors k) (memfs.nodes fs)) as [ns e] eqn:Hmk.
    destruct e as [e|]; [discriminate|].
    injection Hrun as <-.
    destruct (mkdirs_spec _ _ _ _ Hmk) as (_ & Hdirs).
    assert (Hself : In k (memfs.ancestors k)).
    { apply self_in_ancestors. apply key_Abs in Hkey as (_ & Hrooted & _).
      now apply IsAbs_nonempty. }
    split.
    + destruct (Hdirs k Hself) as (perm & Hk & _).
      apply (lookup_IsDir _ p k perm); [exact Hkey | exact Hk].
    + exists k. split; [reflexivity|]. split; [exact Hself|]. exact Hdirs.
Qed.

(** [Mkdir] of [/usr], which exists, and of [a/b/c] from [/tmp], where only
    [/tmp] exists: [/tmp/a/b] is created on the way, with the mode
    [0755 &^ 027 = 0750]. *)
Lemma Mkdir_spec_witness :
  Mkdir memfs.sample "/usr" =
    (memfs.sample, Some (fmt.Errorf "Cannot make directory /usr because it already exists")) /\
  IsDir memfs.sample "a/b/c" = false /\
  IsDir (fst (Mkdir memfs.sample "a/b/c")) "a/b/c" = true /\
  memfs.lookup "/tmp/a/b" (memfs.nodes memfs.sample) = None /\
  memfs.lookup "/tmp/a/b" (memfs.nodes (fst (Mkdir memfs.sample "a/b/c")))
    = Some (memfs.Dir 488).
Proof.
  split; [apply (proj1 Mkdir_spec _ _ memfs.sample "/usr"); reflexivity|].
  split; [reflexivity|].
  assert (Hrun : Mkdir memfs.sample "a/b/c" = (fst (Mkdir memfs.sample "a/b/c"), None))
    by reflexivity.
  destruct (proj2 (proj2 Mkdir_spec) memfs.sample _ "a/b/c" eq_refl Hrun) as (Hdir & _).
  split; [exact Hdir|]. split; reflexivity.
Defined.

(** ** [OpenWithPermissions] *)

Section OpenFacts.

Context {FS : Type} {H : os.Host FS}.

(** The flag word is the access mode, with [O_APPEND] and [O_CREATE] or-ed
    in. *)
Lemma openFlag_eq (fs : FS) (p : Path) (mode : string) :
  openFlag fs p mode =
    Z.lor
      (Z.lor
         (if strings.Contains mode "r" && strings.Contains mode "w" then os.O_RDWR
          else if strings.Contains mode "r" then os.O_RDONLY
          else if strings.Contains mode "w" then os.O_WRONLY
          else os.O_RDONLY)
         (if strings.Contains mode "+" then os.O_APPEND else 0%Z))
      (if Exists fs p then 0%Z else os.O_CREATE).
Proof.
  unfold openFlag. cbv zeta.
  destruct (strings.Contains mode "r"), (strings.Contains mode "w"),
    (strings.Contains mode "+"), (Exists fs p); reflexivity.
Qed.

(** C5.  [OpenWithPermissions] fails, without touching the host, when the
    path is a directory; otherwise it is [os.OpenFile] with the flag word
    [openFlag]: its access mode is read-write when [mode] contains ["r"] and
    ["w"], read-only when it contains ["r"] but not ["w"], write-only when it
    contains ["w"] but not ["r"]; the append bit is set exactly when [mode]
    contains ["+"], and the create bit exactly when the path does not
    exist. *)
Theorem OpenWithPermissions_flags (fs : FS) (p : Path) (mode : string) (perms : os.FileMode) :
  let r := strings.Contains mode "r" in
  let w := strings.Contains mode "w" in
  let plus := strings.Contains mode "+" in
  let flag := openFlag fs p mode in
  (IsDir fs p = true ->
     OpenWithPermissions fs p mode perms =
       (fs, Err (fmt.Errorf ("Cannot open " ++ p ++ " because it is a directory.")))) /\
  (IsDir fs p = false ->
     OpenWithPermissions fs p mode perms = os.OpenFile fs p flag perms) /\
  (r = true -> w = true -> os.accessMode flag = os.O_RDWR) /\
  (r = true -> w = false -> os.accessMode flag = os.O_RDONLY) /\
  (r = false -> w = true -> os.accessMode flag = os.O_WRONLY) /\
  Z.land flag os.O_APPEND = (if plus then os.O_APPEND else 0%Z) /\
  Z.land flag os.O_CREATE = (if Exists fs p then 0%Z else os.O_CREATE) /\
  flag = Z.lor (Z.lor (os.accessMode flag) (if plus then os.O_APPEND else 0%Z))
               (if Exists fs p then 0%Z else os.O_CREATE).
Proof.
  cbv zeta. unfold OpenWithPermissions.
  split; [now intros -> | split; [now intros -> |]].
  rewrite !openFlag_eq.
  destruct (strings.Contains mode "r"), (strings.Contains mode "w"),
    (strings.Contains mode "+"), (Exists fs p);
    repeat apply conj; intros; try discriminate; reflexivity.
Qed.

(** C10.  A mode string with neither ["r"] nor ["w"] opens read-only: the
    access mode of the flag word is [O_RDONLY], the default the flag starts
    from, still with [O_APPEND] for a ["+"] and [O_CREATE] for a path that
    does not exist. *)
Theorem OpenWithPermissions_default_read_only
  (fs : FS) (p : Path) (mode : string) (perms : os.FileMode) :
  strings.Contains mode "r" = false ->
  strings.Contains mode "w" = false ->
  os.accessMode (openFlag fs p mode) = os.O_RDONLY /\
  openFlag fs p mode =
    Z.lor (Z.lor os.O_RDONLY (if strings.Contains mode "+" then os.O_APPEND else 0%Z))
          (if Exists fs p then 0%Z else os.O_CREATE) /\
  (IsDir fs p = false ->
   OpenWithPermissions fs p mode perms =
     os.OpenFile fs p
       (Z.lor (Z.lor os.O_RDONLY (if strings.Contains mode "+" then os.O_APPEND else 0%Z))
              (if Exists fs p then 0%Z else os.O_CREATE)) perms).
Proof.
  intros Hr Hw.
  assert (Hflag : openFlag fs p mode =
    Z.lor (Z.lor os.O_RDONLY (if strings.Contains mode "+" then os.O_APPEND else 0%Z))
          (if Exists fs p then 0%Z else os.O_CREATE))
    by (rewrite openFlag_eq, Hr, Hw; reflexivity).
  split; [|split].
  - rewrite Hflag. destruct (strings.Contains mode "+"), (Exists fs p); reflexivity.
  - exact Hflag.
  - intros Hdir. unfold OpenWithPermissions. now rewrite Hdir, Hflag.
Qed.

End OpenFacts.

(** Opening ["/etc/passwd"], which exists, with ["rw+"], and the missing
    ["f"] with ["w"]; opening the directory ["/etc"]. *)
Lemma OpenWithPermissions_flags_witness :
  os.accessMode (openFlag memfs.sample "/etc/passwd" "rw+") = os.O_RDWR /\
  openFlag memfs.sample "/etc/passwd" "rw+" = Z.lor os.O_RDWR os.O_APPEND /\
  os.accessMode (openFlag memfs.sample "f" "w") = os.O_WRONLY /\
  openFlag memfs.sample "f" "w" = Z.lor os.O_WRONLY os.O_CREATE /\
  OpenWithPermissions memfs.sample "/etc" "r" 420%Z =
    (memfs.sample, Err (fmt.Errorf "Cannot open /etc because it is a directory.")).
Proof.
  pose proof (OpenWithPermissions_flags memfs.sample "/etc/passwd" "rw+" 420%Z) as Hrw.
  pose proof (OpenWithPermissions_flags memfs.sample "f" "w" 420%Z) as Hw.
  pose proof (OpenWithPermissions_flags memfs.sample "/etc" "r" 420%Z) as Hdir.
  cbv zeta in Hrw, Hw, Hdir.
  repeat apply conj.
  - now apply Hrw.
  - etransitivity; [apply Hrw | reflexivity].
  - now apply Hw.
  - etransitivity; [apply Hw | reflexivity].
  - now apply Hdir.
Defined.

(** The empty mode on a file that exists, and ["+"] on one that does not. *)
Lemma OpenWithPermissions_default_read_only_witness :
  openFlag memfs.sample "/etc/passwd" "" = os.O_RDONLY /\
  openFlag memfs.sample "f" "+" = Z.lor (Z.lor os.O_RDONLY os.O_APPEND) os.O_CREATE /\
  os.accessMode (openFlag memfs.sample "f" "+") = os.O_RDONLY.
Proof.
  pose proof (OpenWithPermissions_default_read_only memfs.sample "/etc/passwd" "" 420%Z
                eq_refl eq_refl) as Hempty.
  pose proof (OpenWithPermissions_default_read_only memfs.sample "f" "+" 420%Z
                eq_refl eq_refl) as Hplus.
  repeat apply conj.
  - etransitivity; [apply Hempty | reflexivity].
  - etransitivity; [apply Hplus | reflexivity].
  - apply Hplus.
Defined.

(** ** [WriteBytes] *)

Section WriteFacts.

Context {FS : Type} {H : os.Host FS}.

(** Once the file is created, [WriteBytes] is the write followed by the
    deferred [Close]; it returns the error of the write. *)
Lemma WriteBytes_created (fs fs1 : FS) (p : Path) (data : string) (outfile : os.File) :
  os.Create fs p = (fs1, Ok outfile) ->
  WriteBytes fs p data =
    (fst (os.Close (fst (os.Write fs1 outfile data)) outfile),
     snd (snd (os.Write fs1 outfile data))).
Proof.
  intros HCreate. unfold WriteBytes, defer. rewrite HCreate.
  destruct (os.Write fs1 outfile data) as [fs2 [n [err|]]]; cbn [fst snd];
    now destruct (os.Close fs2 outfile).
Qed.

Lemma WriteBytes_not_created (fs fs1 : FS) (p : Path) (data : string) (err : error) :
  os.Create fs p = (fs1, Err err) -> WriteBytes fs p data = (fs1, Some err).
Proof. intros HCreate. unfold WriteBytes. now rewrite HCreate. Qed.

End WriteFacts.

Section MemfsFiles.

Import memfs.

Lemma close_releases (fs : FS) (fd : nat) : nameOf fd (opened (fst (close fs fd))) = None.
Proof.
  unfold close. destruct (nameOf fd (opened fs)) eqn:Hfd; cbn [fst]; [|exact Hfd].
  cbn [opened withOpened]. clear Hfd.
  induction (opened fs) as [|[fd' k] o IH]; cbn [filter fst nameOf]; [reflexivity|].
  destruct (fd' =? fd)%nat eqn:Hsame; cbn [negb nameOf]; [exact IH|].
  now rewrite Hsame.
Qed.

Lemma alloc_opens (fs fs1 : FS) (k : string) (fd : nat) :
  alloc fs k = (fs1, Ok fd) -> nameOf fd (opened fs1) = Some k.
Proof.
  unfold alloc. intros [= <- <-]. cbn [opened withOpened nameOf].
  now rewrite Nat.eqb_refl.
Qed.

Lemma openFile_opens (fs fs1 : FS) (name : string) (flag : Z) (perm : os.FileMode) (fd : nat) :
  openFile fs name flag perm = (fs1, Ok fd) -> nameOf fd (opened fs1) <> None.
Proof.
  unfold openFile. intros Hopen.
  assert (Hk : exists k, nameOf fd (opened fs1) = Some k);
    [|destruct Hk as (k & ->); discriminate].
  destruct (key fs name) as [k|]; [|discriminate]. exists k.
  repeat match type of Hopen with
         | alloc _ _ = _ => now apply alloc_opens in Hopen
         | (_, Err _) = _ => discriminate Hopen
         | context [match ?x with _ => _ end] => destruct x
         end.
Qed.

End MemfsFiles.

(** C9.  On every host, when [os.Create] returns a file, [WriteBytes] ends
    with [Close] of that file: the state it returns is the state after the
    deferred [Close], run after the write, whether the write returned an error
    or not, and the error it returns is the error of the write.  On the
    in-memory host the file is in the table of open files after [os.Create]
    and no longer there when [WriteBytes] returns. *)
Theorem WriteBytes_closes_file :
  (forall (FS : Type) (H : os.Host FS) (fs fs1 : FS) (p : Path) (data : string)
          (outfile : os.File),
     os.Create fs p = (fs1, Ok outfile) ->
     exists fs2 n werr,
       os.Write fs1 outfile data = (fs2, (n, werr)) /\
       WriteBytes fs p data = (fst (os.Close fs2 outfile), werr)) /\
  (forall (fs fs1 : memfs.FS) (p : Path) (data : string) (fd : nat),
     os.Create fs p = (fs1, Ok fd) ->
     memfs.nameOf fd (memfs.opened fs1) <> None /\
     memfs.nameOf fd (memfs.opened (fst (WriteBytes fs p data))) = None).
Proof.
  split.
  - intros FS H fs fs1 p data outfile HCreate.
    rewrite (WriteBytes_created _ _ _ data _ HCreate).
    destruct (os.Write fs1 outfile data) as [fs2 [n werr]].
    now exists fs2, n, werr.
  - intros fs fs1 p data fd HCreate. split.
    + exact (openFile_opens _ _ _ _ _ _ HCreate).
    + rewrite (WriteBytes_created _ _ _ data _ HCreate). cbn [fst].
      apply close_releases.
Qed.

(** Both ways out, on the in-memory host with its 64 free bytes: five bytes
    are written; seventy are refused.  Either way no file stays open. *)
Lemma WriteBytes_closes_file_witness :
  (snd (WriteBytes memfs.sample "f" "hello") = None /\
   memfs.lookup "/tmp/f" (memfs.nodes (fst (WriteBytes memfs.sample "f" "hello")))
     = Some (memfs.File 416 "hello") /\
   memfs.nameOf 3 (memfs.opened (fst (WriteBytes memfs.sample "f" "hello"))) = None) /\
  (snd (WriteBytes memfs.sample "f"
          "0123456789012345678901234567890123456789012345678901234567890123456789")
     = Some (PathError "write" "/tmp/f" ENOSPC) /\
   memfs.nameOf 3
     (memfs.opened
        (fst (WriteBytes memfs.sample "f"
                "0123456789012345678901234567890123456789012345678901234567890123456789")))
     = None).
Proof.
  split.
  - split; [reflexivity | split; [reflexivity|]].
    exact (proj2 (proj2 WriteBytes_closes_file memfs.sample _ "f" "hello" 3 eq_refl)).
  - split; [reflexivity|].
    exact (proj2 (proj2 WriteBytes_closes_file memfs.sample _ "f" _ 3 eq_refl)).
Defined.

(** ** [filepath.Match] *)

Section MatchFuel.

Lemma from_length (n : nat) (s : string) : length (filepath.from n s) = length s - n.
Proof.
  revert s. induction n as [|n IH]; intros [|c s]; cbn [filepath.from length]; auto.
Qed.

Lemma behead_length (s : string) : length (filepath.behead s) = length s - 1.
Proof. destruct s; cbn; lia. Qed.

(** A rune read in a string that is not empty has at least one byte. *)
Lemma DecodeRuneInString_width (s : string) :
  s <> "" -> 1 <= snd (utf8.DecodeRuneInString s).
Proof.
  destruct s as [|c0 t1]; [congruence|]. intros _. unfold utf8.DecodeRuneInString.
  repeat match goal with
         | |- context [if ?b then _ else _] => destruct b
         | |- context [match ?x with _ => _ end] => destruct x
         end; cbn [snd]; lia.
Qed.

Lemma getEsc_shorter (chunk nchunk : string) (r : N) :
  filepath.getEsc chunk = Ok (r, nchunk) -> length nchunk < length chunk.
Proof.
  unfold filepath.getEsc. destruct chunk as [|c chunk1]; [discriminate|].
  destruct (Ascii.eqb c "-" || Ascii.eqb c "]"); [discriminate|].
  set (chunk := if Ascii.eqb c "\" then chunk1 else String c chunk1).
  assert (Hlen : length chunk <= length (String c chunk1))
    by (unfold chunk; destruct (Ascii.eqb c "\"); cbn [length]; lia).
  destruct (String.eqb_spec chunk "") as [|Hne]; [discriminate|].
  pose proof (DecodeRuneInString_width chunk Hne) as Hw.
  destruct (utf8.DecodeRuneInString chunk) as [r0 n]. cbn [snd] in Hw.
  destruct ((r0 =? utf8.RuneError)%N && (n =? 1)%nat); [discriminate|].
  cbv zeta. destruct (filepath.from n chunk =? ""); [discriminate|].
  intros [= _ <-]. rewrite from_length.
  assert (1 <= length chunk) by (destruct chunk; [congruence | cbn; lia]). lia.
Qed.

(** More fuel than the length of the chunk changes nothing in the loop over
    the ranges, and the loop returns less than it read. *)
Lemma classRanges_fuel (fuel : nat) :
  forall (fuel' : nat) (chunk : string) (r : N) (match_ : bool) (nrange : nat),
    length chunk <= fuel -> length chunk <= fuel' ->
    filepath.classRanges fuel chunk r match_ nrange =
    filepath.classRanges fuel' chunk r match_ nrange.
Proof.
  induction fuel as [|fuel IH]; intros fuel' chunk r match_ nrange Hfuel Hfuel'.
  - destruct chunk; [|cbn in Hfuel; lia]. now destruct fuel'.
  - destruct fuel' as [|fuel'].
    + destruct chunk; [|cbn in Hfuel'; lia]. reflexivity.
    + cbn [filepath.classRanges].
      destruct (filepath.startsWith "]" chunk && (0 <? nrange)%nat); [reflexivity|].
      destruct (filepath.getEsc chunk) as [[lo chunk1]|err] eqn:Hlo; [|reflexivity].
      apply getEsc_shorter in Hlo.
      destruct (filepath.startsWith "-" chunk1).
      * destruct (filepath.getEsc (filepath.behead chunk1)) as [[hi chunk2]|err] eqn:Hhi;
          [|reflexivity].
        apply getEsc_shorter in Hhi. rewrite behead_length in Hhi.
        apply IH; lia.
      * apply IH; lia.
Qed.

Lemma classRanges_shorter (fuel : nat) :
  forall (chunk chunk' : string) (r : N) (match_ b : bool) (nrange : nat),
    filepath.classRanges fuel chunk r match_ nrange = Ok (chunk', b) ->
    length chunk' < length chunk.
Proof.
  induction fuel as [|fuel IH]; intros chunk chunk' r match_ b nrange;
    cbn [filepath.classRanges].
  - destruct (filepath.startsWith "]" chunk && (0 <? nrange)%nat) eqn:Hend; [|discriminate].
    intros [= <- _]. destruct chunk; [discriminate | cbn; lia].
  - destruct (filepath.startsWith "]" chunk && (0 <? nrange)%nat) eqn:Hend.
    { intros [= <- _]. destruct chunk; [discriminate | cbn; lia]. }
    destruct (filepath.getEsc chunk) as [[lo chunk1]|err] eqn:Hlo; [|discriminate].
    apply getEsc_shorter in Hlo.
    destruct (filepath.startsWith "-" chunk1).
    + destruct (filepath.getEsc (filepath.behead chunk1)) as [[hi chunk2]|err] eqn:Hhi;
        [|discriminate].
      apply getEsc_shorter in Hhi. rewrite behead_length in Hhi.
      intros Hrun. apply IH in Hrun. lia.
    + intros Hrun. apply IH in Hrun. lia.
Qed.

(** More fuel than the length of the chunk changes nothing in
    [matchChunk]. *)
Lemma matchChunk_loop_fuel (fuel : nat) :
  forall (fuel' : nat) (chunk s : string) (failed : bool),
    length chunk <= fuel -> length chunk <= fuel' ->
    filepath.matchChunk_loop fuel chunk s failed =
    filepath.matchChunk_loop fuel' chunk s failed.
Proof.
  induction fuel as [|fuel IH]; intros fuel' chunk s failed Hfuel Hfuel'.
  - destruct chunk; [|cbn in Hfuel; lia]. now destruct fuel'.
  - destruct fuel' as [|fuel'].
    + destruct chunk; [|cbn in Hfuel'; lia]. reflexivity.
    + destruct chunk as [|c chunk1]; [reflexivity|].
      cbn [length] in Hfuel, Hfuel'. cbn [filepath.matchChunk_loop]. cbv zeta.
      destruct (Ascii.eqb c "[").
      * destruct (if negb (if negb failed && (s =? "") then true else failed)
                  then let '(r, n) := utf8.DecodeRuneInString s in (r, filepath.from n s)
                  else (0%N, s)) as [r s1].
        set (chunk := if filepath.startsWith "^" chunk1 then filepath.behead chunk1 else chunk1).
        assert (Hlen : length chunk <= length chunk1)
          by (unfold chunk; destruct (filepath.startsWith "^" chunk1);
              rewrite ?behead_length; lia).
        destruct (filepath.classRanges (length chunk) chunk r false 0) as [[chunk3 m]|err] eqn:Hc;
          [|reflexivity].
        apply classRanges_shorter in Hc. apply IH; lia.
      * destruct (Ascii.eqb c "?").
        -- destruct (if negb (if negb failed && (s =? "") then true else failed)
                     then _ else _) as [failed1 s1].
           apply IH; lia.
        -- set (chunk := if Ascii.eqb c "\" then chunk1 else String c chunk1).
           assert (Hlen : length chunk <= S (length chunk1))
             by (unfold chunk; destruct (Ascii.eqb c "\"); cbn [length]; lia).
           destruct chunk as [|d chunk2]; [reflexivity|]. cbn [length] in Hlen.
           destruct (if negb (if negb failed && (s =? "") then true else failed)
                     then _ else _) as [failed1 s1].
           apply IH; lia.
Qed.

Lemma scanStars_shorter (pattern : string) :
  forall (star star' : bool) (rest : string),
    filepath.scanStars pattern star = (star', rest) ->
    filepath.startsWith "*" rest = false /\
    (rest = pattern \/ length rest < length pattern).
Proof.
  induction pattern as [|c pattern IH]; intros star star' rest; cbn [filepath.scanStars].
  - intros [= _ <-]. split; [reflexivity | now left].
  - destruct (Ascii.eqb c "*") eqn:Hc.
    + intros Hrun. apply IH in Hrun as (Hrest & [->|Hlt]); split; auto; right; cbn; lia.
    + intros [= _ <-]. split; [exact Hc | now left].
Qed.

Lemma scanEnd_positive (c : ascii) (pattern : string) :
  Ascii.eqb c "*" = false -> 1 <= filepath.scanEnd (String c pattern) false.
Proof.
  intros Hc. cbn [filepath.scanEnd]. rewrite Hc.
  destruct (Ascii.eqb c "\"); [destruct pattern; lia|].
  destruct (Ascii.eqb c "["); [lia|]. destruct (Ascii.eqb c "]"); lia.
Qed.

(** A pattern that is not empty loses at least one byte to [scanChunk]. *)
Lemma scanChunk_shorter (pattern chunk rest : string) (star : bool) :
  pattern <> "" ->
  filepath.scanChunk pattern = (star, chunk, rest) ->
  length rest < length pattern.
Proof.
  intros Hne. unfold filepath.scanChunk.
  destruct (filepath.scanStars pattern false) as [star' p1] eqn:Hstars.
  apply scanStars_shorter in Hstars as (Hnostar & Hp1).
  intros [= _ _ <-]. rewrite from_length.
  destruct Hp1 as [->|Hlt]; [|lia].
  destruct pattern as [|c pattern]; [congruence|].
  pose proof (scanEnd_positive c pattern Hnostar). cbn [length] in *. lia.
Qed.

Lemma checkRest_fuel (fuel : nat) :
  forall (fuel' : nat) (pattern : string),
    length pattern <= fuel -> length pattern <= fuel' ->
    filepath.checkRest fuel pattern = filepath.checkRest fuel' pattern.
Proof.
  induction fuel as [|fuel IH]; intros fuel' pattern Hfuel Hfuel'.
  - destruct pattern; [|cbn in Hfuel; lia]. now destruct fuel'.
  - destruct fuel' as [|fuel'].
    + destruct pattern; [|cbn in Hfuel'; lia]. reflexivity.
    + cbn [filepath.checkRest].
      destruct (String.eqb_spec pattern "") as [|Hne]; [reflexivity|].
      destruct (filepath.scanChunk pattern) as [[star chunk] rest] eqn:Hscan.
      apply scanChunk_shorter in Hscan; [|exact Hne].
      destruct (filepath.matchChunk chunk ""); [|reflexivity].
      apply IH; lia.
Qed.

(** More fuel than the length of the pattern changes nothing in [Match]:
    the loop has ended. *)
Lemma Match_loop_fuel (fuel : nat) :
  forall (fuel' : nat) (pattern name : string),
    length pattern <= fuel -> length pattern <= fuel' ->
    filepath.Match_loop fuel pattern name = filepath.Match_loop fuel' pattern name.
Proof.
  induction fuel as [|fuel IH]; intros fuel' pattern name Hfuel Hfuel'.
  - destruct pattern; [|cbn in Hfuel; lia]. now destruct fuel'.
  - destruct fuel' as [|fuel'].
    + destruct pattern; [|cbn in Hfuel'; lia]. reflexivity.
    + cbn [filepath.Match_loop].
      destruct (String.eqb_spec pattern "") as [|Hne]; [reflexivity|].
      destruct (filepath.scanChunk pattern) as [[star chunk] rest] eqn:Hscan.
      apply scanChunk_shorter in Hscan; [|exact Hne].
      destruct (star && (chunk =? "")); [reflexivity|].
      destruct (filepath.matchChunk chunk name) as [[t ok]|err]; [|reflexivity].
      destruct (ok && ((t =? "") || negb (rest =? ""))); [apply IH; lia|].
      destruct (if star then filepath.starSkip chunk (rest =? "") name else None)
        as [[t'|err]|]; [apply IH; lia | reflexivity | reflexivity].
Qed.

End MatchFuel.

(** [Match] on the cases of Go's own test: literals, stars and question
    marks, which do not cross a separator, character classes and escapes;
    [U+263A], [U+03B1] and [U+03B6] are written by their bytes.  Then the
    patterns that are refused. *)
Example Match_cases :
  map (fun t => filepath.Match (fst t) (snd t))
    [("abc", "abc"); ("*", "abc"); ("*c", "abc"); ("a*", "a"); ("a*", "abc"); ("a*", "ab/c");
     ("a*/b", "abc/b"); ("a*/b", "a/c/b");
     ("a*b*c*d*e*/f", "axbxcxdxe/f"); ("a*b*c*d*e*/f", "axbxcxdxexxx/f");
     ("a*b*c*d*e*/f", "axbxcxdxe/xxx/f"); ("a*b*c*d*e*/f", "axbxcxdxexxx/fff");
     ("a*b?c*x", "abxbbxdbxebxczzx"); ("a*b?c*x", "abxbbxdbxebxczzy");
     ("ab[c]", "abc"); ("ab[b-d]", "abc"); ("ab[e-g]", "abc");
     ("ab[^c]", "abc"); ("ab[^b-d]", "abc"); ("ab[^e-g]", "abc");
     ("a\*b", "a*b"); ("a\*b", "ab");
     ("a?b", String "a" (String "226" (String "152" (String "186" "b"))));
     ("a[^a]b", String "a" (String "226" (String "152" (String "186" "b"))));
     ("a???b", String "a" (String "226" (String "152" (String "186" "b"))));
     ("a[^a][^a][^a]b", String "a" (String "226" (String "152" (String "186" "b"))));
     ("[a-" ++ String "206" (String "182" "]*"), String "206" (String "177" ""));
     ("*[a-" ++ String "206" (String "182" "]"), "A");
     ("a?b", "a/b"); ("a*b", "a/b");
     ("[\]a]", "]"); ("[\-]", "-"); ("[x\-]", "x"); ("[x\-]", "-"); ("[x\-]", "z");
     ("[\-x]", "x"); ("[\-x]", "-"); ("[\-x]", "a"); ("*x", "xxx");
     ("*.conf", "host.conf"); ("*.conf", "passwd"); ("*.conf", ".conf"); ("", "")]
  = map Ok
    [true; true; true; true; true; false;
     true; false;
     true; true;
     false; false;
     true; false;
     true; true; false;
     false; false; true;
     true; false;
     true; true; false; false;
     true; false;
     false; false;
     true; true; true; true; false;
     true; true; false; true;
     true; false; true; true].
Proof. vm_compute. reflexivity. Qed.

Example Match_bad_cases :
  map (fun t => filepath.Match (fst t) (snd t))
    [("[]a]", "]"); ("[-]", "-"); ("[x-]", "x"); ("[x-]", "-"); ("[x-]", "z");
     ("[-x]", "x"); ("[-x]", "-"); ("[-x]", "a"); ("\", "a"); ("[a-b-c]", "a");
     ("[", "a"); ("[^", "a"); ("[^bc", "a"); ("a[", "a"); ("a[", "ab"); ("a[", "x");
     ("a/b[", "x")]
  = map (fun _ => Err ErrBadPattern) (seq 0 17).
Proof. vm_compute. reflexivity. Qed.

(** ** Patterns that end with a text *)

Section MatchLiteral.

(** The metacharacters of a pattern. *)
Lemma hasMeta_cons (c : ascii) (s : string) :
  filepath.hasMeta (String c s) =
    (Ascii.eqb c "*" || Ascii.eqb c "?" || Ascii.eqb c "[" || Ascii.eqb c "\")
    || filepath.hasMeta s.
Proof.
  unfold filepath.hasMeta. cbn [strings.ContainsAny]. f_equal.
  unfold strings.Contains, strings.HasPrefix. cbn [String.prefix].
  destruct (Ascii.eqb_spec c "*") as [->|H1]; [reflexivity|].
  destruct (Ascii.eqb_spec c "?") as [->|H2]; [reflexivity|].
  destruct (Ascii.eqb_spec c "[") as [->|H3]; [reflexivity|].
  destruct (Ascii.eqb_spec c "\") as [->|H4]; [reflexivity|].
  repeat match goal with
         | |- context [ascii_dec ?a ?b] => destruct (ascii_dec a b); [congruence|]
         end.
  reflexivity.
Qed.

Lemma hasMeta_append (a b : string) :
  filepath.hasMeta (a ++ b) = filepath.hasMeta a || filepath.hasMeta b.
Proof.
  induction a as [|c a IH]; [reflexivity|].
  cbn [append]. rewrite !hasMeta_cons, IH. now rewrite orb_assoc.
Qed.

Lemma prefix_split (a s : string) :
  String.prefix a s = true -> s = a ++ filepath.from (length a) s.
Proof.
  revert s. induction a as [|c a IH]; intros s; [reflexivity|].
  destruct s as [|x s]; cbn [String.prefix]; [discriminate|].
  destruct (ascii_dec c x) as [->|]; [|discriminate].
  intros Hp. cbn [length filepath.from append]. f_equal. now apply IH.
Qed.

(** A chunk without metacharacter matches the strings that begin with it. *)
Lemma matchChunk_loop_literal (lit : string) :
  filepath.hasMeta lit = false ->
  forall (fuel : nat) (s : string) (failed : bool),
    length lit <= fuel ->
    filepath.matchChunk_loop fuel lit s failed =
      if negb failed && String.prefix lit s then Ok (filepath.from (length lit) s, true)
      else Ok ("", false).
Proof.
  induction lit as [|c lit IH]; intros Hmeta fuel s failed Hfuel.
  - destruct fuel, failed, s; reflexivity.
  - rewrite hasMeta_cons in Hmeta. apply orb_false_elim in Hmeta as (Hc & Hlit).
    apply orb_false_elim in Hc as (Hc & Hback).
    apply orb_false_elim in Hc as (Hc & Hopen).
    apply orb_false_elim in Hc as (Hstar & Hquest).
    destruct fuel as [|fuel]; [cbn in Hfuel; lia|]. cbn [length] in Hfuel.
    cbn [filepath.matchChunk_loop]. rewrite Hopen, Hquest, Hback. cbv zeta.
    destruct failed; cbn [negb andb].
    + rewrite IH by (auto; lia). reflexivity.
    + destruct s as [|x s].
      * cbn [String.eqb negb]. rewrite IH by (auto; lia). reflexivity.
      * cbn [String.eqb negb filepath.startsWith filepath.from String.prefix length].
        rewrite IH by (auto; lia).
        destruct (ascii_dec c x) as [->|Hne].
        -- rewrite Ascii.eqb_refl. reflexivity.
        -- destruct (Ascii.eqb_spec x c); [congruence | reflexivity].
Qed.

Lemma matchChunk_literal (lit s : string) :
  filepath.hasMeta lit = false ->
  filepath.matchChunk lit s =
    if String.prefix lit s then Ok (filepath.from (length lit) s, true) else Ok ("", false).
Proof.
  intros Hmeta. unfold filepath.matchChunk.
  now rewrite (matchChunk_loop_literal lit Hmeta _ s false (le_n _)).
Qed.

Lemma scanEnd_no_star_below (n : nat) :
  forall pattern inrange,
    length pattern <= n -> noByte "*" pattern = true ->
    filepath.scanEnd pattern inrange = length pattern.
Proof.
  induction n as [|n IH]; intros pattern inrange Hlen Hno.
  - destruct pattern; [reflexivity | cbn in Hlen; lia].
  - destruct pattern as [|c pattern]; [reflexivity|].
    cbn [noByte] in Hno. apply andb_prop in Hno as (Hc & Hno).
    apply negb_true_iff in Hc. cbn [length] in Hlen. cbn [filepath.scanEnd length].
    destruct (Ascii.eqb c "\").
    + destruct pattern as [|d pattern]; [reflexivity|].
      cbn [noByte] in Hno. apply andb_prop in Hno as (_ & Hno).
      cbn [length] in *. rewrite IH; [reflexivity | lia | exact Hno].
    + destruct (Ascii.eqb c "["); [rewrite IH; [reflexivity | lia | exact Hno]|].
      destruct (Ascii.eqb c "]"); [rewrite IH; [reflexivity | lia | exact Hno]|].
      rewrite Hc. rewrite IH; [reflexivity | lia | exact Hno].
Qed.

Lemma scanEnd_no_star (pattern : string) :
  noByte "*" pattern = true ->
  forall inrange, filepath.scanEnd pattern inrange = length pattern.
Proof. intros Hno inrange. now apply (scanEnd_no_star_below (length pattern)). Qed.

Lemma hasMeta_no_star (s : string) : filepath.hasMeta s = false -> noByte "*" s = true.
Proof.
  induction s as [|c s IH]; [reflexivity|]. rewrite hasMeta_cons.
  intros Hmeta. apply orb_false_elim in Hmeta as (Hc & Hs).
  cbn [noByte]. rewrite (IH Hs), andb_true_r.
  destruct (Ascii.eqb c "*"); [discriminate | reflexivity].
Qed.

Lemma from_all (s : string) : filepath.from (length s) s = "".
Proof. induction s as [|c s IH]; [reflexivity | exact IH]. Qed.

Lemma scanChunk_star_literal (lit : string) :
  filepath.hasMeta lit = false ->
  filepath.scanChunk (String "*" lit) = (true, lit, "").
Proof.
  intros Hmeta. pose proof (hasMeta_no_star lit Hmeta) as Hno.
  unfold filepath.scanChunk. cbn [filepath.scanStars]. change (Ascii.eqb "*" "*") with true.
  cbv iota.
  assert (Hstars : filepath.scanStars lit true = (true, lit)).
  { destruct lit as [|c lit]; [reflexivity|]. cbn [filepath.scanStars noByte] in *.
    apply andb_prop in Hno as (Hc & _). apply negb_true_iff in Hc. now rewrite Hc. }
  rewrite Hstars, (scanEnd_no_star lit Hno). now rewrite substring_0_length, from_all.
Qed.

(** After a star, a chunk without metacharacter that ends the pattern is
    looked for further in the name, as long as no separator is skipped. *)
Lemma starSkip_literal (lit : string) :
  filepath.hasMeta lit = false ->
  forall (name : string) (r : result string),
    filepath.starSkip lit true name = Some r ->
    r = Ok "" /\ exists pre, name = pre ++ lit /\ noByte "/" pre = true.
Proof.
  intros Hmeta. induction name as [|c name IH]; intros r; cbn [filepath.starSkip];
    [discriminate|].
  rewrite IsPathSeparator_eqb. destruct (Ascii.eqb c "/") eqn:Hc; [discriminate|].
  assert (Hmore : filepath.starSkip lit true name = Some r ->
                  r = Ok "" /\ exists pre, String c name = pre ++ lit /\ noByte "/" pre = true).
  { intros Hrun. destruct (IH r Hrun) as (-> & pre & -> & Hpre). split; [reflexivity|].
    exists (String c pre). split; [reflexivity|]. cbn [noByte]. now rewrite Hc, Hpre. }
  rewrite (matchChunk_literal lit name Hmeta).
  destruct (String.prefix lit name) eqn:Hprefix; [|exact Hmore].
  destruct (String.eqb_spec (filepath.from (length lit) name) "") as [Hrest|_];
    cbn [negb andb]; [|exact Hmore].
  intros [= <-]. rewrite Hrest. split; [reflexivity|].
  apply prefix_split in Hprefix. rewrite Hrest, append_nil_r in Hprefix.
  exists (String c ""). split; [now rewrite Hprefix|]. cbn [noByte]. now rewrite Hc.
Qed.

(** A star before a text without metacharacter matches the names that end
    with the text, after bytes none of which is a separator. *)
Lemma Match_star_literal (lit name : string) :
  lit <> "" -> filepath.hasMeta lit = false ->
  filepath.Match (String "*" lit) name = Ok true ->
  exists pre, name = pre ++ lit /\ noByte "/" pre = true.
Proof.
  intros Hne Hmeta. unfold filepath.Match. cbn [length filepath.Match_loop String.eqb].
  rewrite (scanChunk_star_literal lit Hmeta).
  destruct (String.eqb_spec lit "") as [|_]; [contradiction|]. cbn [andb].
  rewrite (matchChunk_literal lit name Hmeta). cbn [String.eqb negb orb].
  assert (Hskip : match filepath.starSkip lit true name with
                  | Some (Ok t) => filepath.Match_loop (length lit) "" t
                  | Some (Err err) => Err err
                  | None => filepath.checkRest (length "") ""
                  end = Ok true ->
                  exists pre, name = pre ++ lit /\ noByte "/" pre = true).
  { destruct (filepath.starSkip lit true name) as [r|] eqn:Hrun.
    - destruct (starSkip_literal lit Hmeta name r Hrun) as (_ & Hpre). intros _. exact Hpre.
    - cbn. discriminate. }
  destruct (String.prefix lit name) eqn:Hprefix; [|rewrite orb_false_r; exact Hskip].
  destruct (String.eqb_spec (filepath.from (length lit) name) "") as [Hrest|_];
    cbn [andb orb]; [|exact Hskip].
  intros _. apply prefix_split in Hprefix. rewrite Hrest, append_nil_r in Hprefix.
  exists "". split; [exact Hprefix | reflexivity].
Qed.

End MatchLiteral.

(** ** [filepath.Glob] and [Glob] *)

Section SplitFacts.

Lemma Split_loop_rooted (c : ascii) (r : string) (n : nat) :
  os.IsPathSeparator c = true -> 1 <= n -> 1 <= filepath.Split_loop (String c r) n.
Proof.
  intros Hc. induction n as [|i IH]; intros Hn; [lia|].
  cbn [filepath.Split_loop].
  destruct (get i (String c r)) as [x|] eqn:Hget; [|lia].
  destruct (os.IsPathSeparator x) eqn:Hx; [lia|].
  apply IH. destruct i; [|lia]. cbn [get] in Hget. congruence.
Qed.

Lemma substring_0_cons (n : nat) (c : ascii) (r : string) :
  substring 0 (S n) (String c r) = String c (substring 0 n r).
Proof. reflexivity. Qed.

(** The directory that [Glob] reads for a rooted pattern is rooted. *)
Lemma cleanGlobPath_Split_rooted (pattern : string) :
  filepath.IsAbs pattern = true ->
  filepath.IsAbs (filepath.cleanGlobPath (fst (filepath.Split pattern))) = true.
Proof.
  destruct pattern as [|c r]; [discriminate|]. rewrite IsAbs_cons. intros Hc.
  unfold filepath.Split. cbv zeta. cbn [fst].
  pose proof (Split_loop_rooted c r (length (String c r)) Hc ltac:(simpl; lia)) as Hk.
  destruct (filepath.Split_loop (String c r) (length (String c r))) as [|k]; [lia|].
  rewrite substring_0_cons. set (d := substring 0 k r).
  unfold filepath.cleanGlobPath.
  destruct (String.eqb_spec (String c d) ""); [discriminate|].
  destruct (String.eqb_spec (String c d) "/") as [E|Hne]; [now rewrite E|].
  destruct d as [|x d].
  - exfalso. apply Hne. rewrite IsPathSeparator_eqb in Hc. apply Ascii.eqb_eq in Hc. now subst c.
  - cbn [length Nat.sub]. rewrite ?Nat.sub_0_r, substring_0_cons. now rewrite IsAbs_cons.
Qed.

Lemma In_insertString (n m : string) (names : list string) :
  In n (filepath.insertString m names) -> n = m \/ In n names.
Proof.
  induction names as [|x names IH]; cbn [filepath.insertString].
  - intros [<- | []]. now left.
  - destruct (String.leb m x).
    + intros [<- | Hin]; [now left | now right].
    + intros [<- | Hin]; [right; now left|].
      destruct (IH Hin) as [-> | Hin']; [now left | right; now right].
Qed.

Lemma In_sortStrings (n : string) (names : list string) :
  In n (filepath.sortStrings names) -> In n names.
Proof.
  unfold filepath.sortStrings. induction names as [|x names IH]; cbn [fold_right]; [trivial|].
  intros Hin. apply In_insertString in Hin as [-> | Hin]; [now left | right; now apply IH].
Qed.

End SplitFacts.

Section GlobFacts.

Context {FS : Type} {H : os.Host FS}.

Lemma fold_left_snoc {A : Type} (l acc : list A) :
  fold_left (fun acc x => (acc ++ [x])%list) l acc = (acc ++ l)%list.
Proof.
  revert acc. induction l as [|x l IH]; intros acc; cbn [fold_left].
  - now rewrite app_nil_r.
  - rewrite IH. now rewrite <- app_assoc.
Qed.

(** What the loop over the names appends: a name that matches, joined to the
    directory. *)
Lemma globNames_listed (P : string -> Prop) (dir pattern : string) (names : list string) :
  (forall n, In n names -> filepath.Match pattern n = Ok true -> P (filepath.Join [dir; n])) ->
  forall m ms e,
    Forall P m ->
    filepath.globNames dir pattern names m = (ms, e) ->
    Forall P ms.
Proof.
  induction names as [|n names IH]; intros Hnames m ms e Hm Hrun; cbn [filepath.globNames] in Hrun.
  - now injection Hrun as <- _.
  - destruct (filepath.Match pattern n) as [matched|err] eqn:Hmatch;
      [|now injection Hrun as <- _].
    apply (IH (fun n' Hn' => Hnames n' (or_intror Hn')) _ _ _) in Hrun; [exact Hrun|].
    destruct matched; [|exact Hm].
    apply Forall_app. split; [exact Hm|]. constructor; [|constructor].
    apply Hnames; [now left | exact Hmatch].
Qed.

(** What [glob] appends: entries of the directory whose name matches. *)
Lemma glob_listed (P : string -> Prop) (fs : FS) (dir pattern : string)
  (matches ms : list string) (e : option error) :
  (forall fi names n,
     os.Stat fs dir = Ok fi -> os.IsDir (os.Mode fi) = true ->
     os.Readdirnames fs dir = Ok names -> In n names ->
     filepath.Match pattern n = Ok true ->
     P (filepath.Join [dir; n])) ->
  Forall P matches ->
  filepath.glob fs dir pattern matches = (ms, e) ->
  Forall P ms.
Proof.
  intros Hentry Hmatches. unfold filepath.glob. cbv zeta.
  destruct (os.Stat fs dir) as [fi|] eqn:HStat; [|now intros [= <- _]].
  destruct (os.IsDir (os.Mode fi)) eqn:HIsDir; cbn [negb]; [|now intros [= <- _]].
  destruct (os.Readdirnames fs dir) as [names|] eqn:Hnames; [|now intros [= <- _]].
  apply globNames_listed; [|exact Hmatches].
  intros n Hn Hmatch. apply (Hentry fi names n); auto. now apply In_sortStrings.
Qed.

Lemma globDirs_listed (P Q : string -> Prop) (fs : FS) (file : string) (m : list string) :
  (forall d fi names n,
     Q d -> os.Stat fs d = Ok fi -> os.IsDir (os.Mode fi) = true ->
     os.Readdirnames fs d = Ok names -> In n names ->
     filepath.Match file n = Ok true ->
     P (filepath.Join [d; n])) ->
  Forall Q m ->
  forall matches ms e,
    Forall P matches ->
    filepath.globDirs fs m file matches = (ms, e) ->
    Forall P ms.
Proof.
  intros Hentry. induction m as [|d m IH]; intros Hm matches ms e Hmatches Hrun;
    cbn [filepath.globDirs] in Hrun.
  - now injection Hrun as <- _.
  - inversion Hm as [|? ? Hd Hm']; subst.
    destruct (filepath.glob fs d file matches) as [matches' [err|]] eqn:Hglob.
    + injection Hrun as <- _.
      apply (glob_listed P fs d file matches matches' (Some err)); auto.
      intros fi names n. now apply Hentry.
    + apply (IH Hm' matches' ms e); [|exact Hrun].
      apply (glob_listed P fs d file matches matches' None); auto.
      intros fi names n. now apply Hentry.
Qed.

(** Every path that [filepath.Glob] lists for a pattern is one that the
    pattern lists in the sense of [Globbed]. *)
Lemma globWithLimit_Globbed (fs : FS) (fuel : nat) :
  forall (pattern : string) (ms : list string) (e : option error),
    filepath.globWithLimit fuel fs pattern = (ms, e) ->
    Forall (Globbed fs pattern) ms.
Proof.
  induction fuel as [|fuel IH]; intros pattern ms e Hrun; cbn [filepath.globWithLimit] in Hrun.
  - injection Hrun as <- _. constructor.
  - destruct (filepath.Match pattern "") as [_|err]; [|injection Hrun as <- _; constructor].
    destruct (filepath.hasMeta pattern) eqn:Hmeta; cbn [negb] in Hrun.
    + destruct (filepath.Split pattern) as [d file] eqn:HSplit.
      assert (Hd : d = fst (filepath.Split pattern)) by now rewrite HSplit.
      assert (Hfile : file = snd (filepath.Split pattern)) by now rewrite HSplit.
      clear HSplit. subst d file.
      set (dir := filepath.cleanGlobPath (fst (filepath.Split pattern))) in *.
      set (file := snd (filepath.Split pattern)) in *.
      destruct (filepath.hasMeta dir) eqn:Hdmeta; cbn [negb] in Hrun.
      * destruct (dir =? pattern); [injection Hrun as <- _; constructor|].
        destruct (filepath.globWithLimit fuel fs dir) as [m [err|]] eqn:Hm;
          [injection Hrun as <- _; constructor|].
        apply IH in Hm.
        apply (globDirs_listed (Globbed fs pattern) (Globbed fs dir) fs file m) in Hrun;
          [exact Hrun | | exact Hm | constructor].
        intros d fi names n Hd HStat HIsDir Hnames Hn Hmatch.
        now apply (Globbed_below fs pattern d n names fi).
      * apply (glob_listed (Globbed fs pattern) fs dir file [] ms e); [|constructor|exact Hrun].
        intros fi names n HStat HIsDir Hnames Hn Hmatch.
        now apply (Globbed_entry fs pattern dir n names fi).
    + destruct (os.Lstat fs pattern) as [fi|] eqn:HLstat; injection Hrun as <- _;
        constructor; [|constructor].
      now apply (Globbed_literal fs pattern fi).
Qed.

(** What a rooted pattern lists is rooted and clean, when the pattern itself
    is clean or has a metacharacter. *)
Lemma Globbed_rooted (fs : FS) (pattern m : string) :
  Globbed fs pattern m ->
  filepath.IsAbs pattern = true ->
  (filepath.hasMeta pattern = false -> filepath.Clean pattern = pattern) ->
  filepath.IsAbs m = true /\ filepath.Clean m = m.
Proof.
  induction 1 as [pattern fi Hmeta HLstat
                 |pattern dir n names fi Hmeta Hdir Hdmeta HStat HIsDir Hnames Hn Hmatch
                 |pattern dir n names fi Hmeta Hdmeta Hbelow IH HStat HIsDir Hnames Hn Hmatch];
    intros Hrooted Hclean.
  - split; [exact Hrooted | now apply Hclean].
  - apply Join_rooted. subst dir. now apply cleanGlobPath_Split_rooted.
  - apply Join_rooted. apply IH; [now apply cleanGlobPath_Split_rooted | congruence].
Qed.

(** Where no link dangles, what a pattern lists is found by [os.Stat]. *)
Lemma Globbed_found {N : NoDanglingLink H} (fs : FS) (pattern m : string) :
  Globbed fs pattern m -> exists fi, os.Stat fs m = Ok fi.
Proof.
  intros [pattern' fi Hmeta HLstat
         |pattern' dir n names fi Hmeta Hdir Hdmeta HStat HIsDir Hnames Hn Hmatch
         |pattern' dir n names fi Hmeta Hdmeta Hbelow HStat HIsDir Hnames Hn Hmatch].
  - exact (Lstat_Stat fs _ fi HLstat).
  - exact (Readdirnames_Stat fs dir names n Hnames Hn).
  - exact (Readdirnames_Stat fs dir names n Hnames Hn).
Qed.

(** A rooted, clean name resolves to itself exactly when [os.Stat] finds
    it. *)
Lemma Resolve_self_iff (fs : FS) (m : Path) :
  filepath.IsAbs m = true -> filepath.Clean m = m ->
  (Resolve fs m = (m, None) <-> exists fi, os.Stat fs m = Ok fi).
Proof.
  intros Hrooted Hclean. unfold Resolve, Exists, filepath.Abs.
  rewrite Hrooted, Hclean. cbv zeta. rewrite Hrooted, Hclean.
  destruct (os.Stat fs m) as [fi|err]; cbn [negb]; split.
  - intros _. now exists fi.
  - reflexivity.
  - discriminate.
  - intros (fi & [=]).
Qed.

Lemma Glob_not_directory (fs : FS) (p : Path) (pattern : string) :
  IsDir fs p = false ->
  Glob fs p pattern = ([], Some (fmt.Errorf ("Glob only works on directories: " ++ p))).
Proof. intros HIsDir. unfold Glob. now rewrite HIsDir. Qed.

Lemma Glob_directory (fs : FS) (p : Path) (pattern : string) :
  IsDir fs p = true ->
  exists absPath,
    filepath.Abs fs p = Ok absPath /\
    Glob fs p pattern =
      match filepath.Glob fs (filepath.Join [absPath; pattern]) with
      | (_, Some err) => ([], Some err)
      | (matches, None) => (matches, None)
      end.
Proof.
  intros HIsDir. pose proof HIsDir as Hq.
  apply IsDir_true_iff in Hq as (absPath & fi & HAbs & _).
  exists absPath. split; [exact HAbs|].
  unfold Glob. rewrite HIsDir, HAbs. cbn [negb]. cbv zeta.
  destruct (filepath.Glob fs (filepath.Join [absPath; pattern])) as [matches [err|]];
    [reflexivity|].
  now rewrite fold_left_snoc.
Qed.

(** A path that [Glob] returns is one that [filepath.Glob] lists for the
    joined pattern. *)
Lemma Glob_listed (fs : FS) (p : Path) (pattern : string) (paths : list Path)
  (e : option error) (m : Path) :
  Glob fs p pattern = (paths, e) -> In m paths ->
  exists absPath,
    filepath.Abs fs p = Ok absPath /\
    Globbed fs (filepath.Join [absPath; pattern]) m /\
    In m (fst (filepath.Glob fs (filepath.Join [absPath; pattern]))).
Proof.
  intros Hrun Hm.
  destruct (IsDir fs p) eqn:HIsDir.
  2:{ rewrite (Glob_not_directory _ _ _ HIsDir) in Hrun. injection Hrun as <- _.
      now destruct Hm. }
  destruct (Glob_directory fs p pattern HIsDir) as (absPath & HAbs & Hglob).
  rewrite Hglob in Hrun.
  destruct (filepath.Glob fs (filepath.Join [absPath; pattern])) as [matches [err|]] eqn:Hms.
  { injection Hrun as <- _. now destruct Hm. }
  injection Hrun as <- _.
  exists absPath. split; [exact HAbs|]. split; [|now rewrite Hms].
  pose proof (globWithLimit_Globbed fs _ _ _ _ Hms) as Hall.
  rewrite Forall_forall in Hall. now apply Hall.
Qed.

End GlobFacts.

Section RootedFacts.

Context {FS : Type} {H : os.Host FS} {R : RootedGetwd H}.

(** The absolute form of a path is rooted. *)
Lemma Abs_rooted (fs : FS) (p absPath : string) :
  filepath.Abs fs p = Ok absPath -> filepath.IsAbs absPath = true.
Proof.
  unfold filepath.Abs. destruct (filepath.IsAbs p) eqn:Habs.
  - intros [= <-]. now rewrite Clean_IsAbs.
  - destruct (os.Getwd fs) as [wd|] eqn:Hwd; [|discriminate].
    intros [= <-]. apply Join_rooted. exact (Getwd_rooted fs wd Hwd).
Qed.

End RootedFacts.

(** The in-memory host returns a rooted working directory and has no link to
    dangle. *)
Lemma memfs_lookup_In (k : string) (ns : list (string * memfs.Node)) :
  In k (map fst ns) -> exists n, memfs.lookup k ns = Some n.
Proof.
  induction ns as [|[k' n'] ns IH]; [intros []|].
  cbn [map fst memfs.lookup]. intros [-> | Hin].
  - rewrite String.eqb_refl. now exists n'.
  - destruct (k' =? k); [now exists n' | now apply IH].
Qed.

#[global] Instance memfs_rooted : RootedGetwd memfs.host.
Proof.
  intros fs wd. cbn [os.Getwd memfs.host]. unfold memfs.getwd.
  destruct (filepath.IsAbs (memfs.cwd fs)) eqn:Habs; [|discriminate].
  now intros [= <-].
Qed.

#[global] Instance memfs_no_dangling : NoDanglingLink memfs.host.
Proof.
  split.
  - intros fs name fi Hfi. now exists fi.
  - intros fs dir names n. cbn [os.Readdirnames os.Stat memfs.host].
    unfold memfs.readdirnames.
    destruct (memfs.key fs dir) as [kd|]; [|discriminate].
    destruct (memfs.lookup kd (memfs.nodes fs)) as [[perm|perm data]|]; try discriminate.
    intros [= <-] Hn. apply in_map_iff in Hn as (k & <- & Hk).
    apply filter_In in Hk as (Hk & Hentry).
    unfold memfs.isEntry in Hentry. cbv zeta in Hentry.
    apply andb_prop in Hentry as (_ & Hkey).
    unfold memfs.stat.
    destruct (memfs.key fs (filepath.Join [dir; lastSegment k])) as [k'|]; [|discriminate].
    apply String.eqb_eq in Hkey. subst k'.
    destruct (memfs_lookup_In _ _ Hk) as (node & ->). now exists (memfs.info node).
Qed.

#[global] Instance danglingfs_rooted : RootedGetwd danglingfs.host.
Proof. now intros fs wd [= <-]. Qed.

(** ** [Resolve] once more *)

Section ResolveTwice.

Context {FS : Type} {H : os.Host FS} {R : RootedGetwd H}.

(** X2.  On a host whose working directory is rooted, what [Resolve]
    returns without error resolves to itself. *)
Theorem Resolve_idempotent (fs : FS) (p q : Path) :
  Resolve fs p = (q, None) -> Resolve fs q = (q, None).
Proof.
  unfold Resolve at 1. destruct (filepath.Abs fs p) as [absPath|err] eqn:HAbs; [|discriminate].
  cbv zeta. destruct (Exists fs absPath) eqn:HExists; cbn [negb]; [|discriminate].
  intros [= <-].
  pose proof (Abs_of_absolute fs p absPath HAbs (Abs_rooted fs p absPath HAbs)) as HAbs'.
  unfold Resolve. rewrite HAbs'. cbv zeta. now rewrite HExists.
Qed.

End ResolveTwice.

(** On the in-memory host, and on the host with the link that dangles, where
    the directory [/d] is spelled from the root. *)
Lemma Resolve_idempotent_witness :
  Resolve memfs.sample "/etc/passwd" = ("/etc/passwd", None) /\
  Resolve danglingfs.mounted "/d" = ("/d", None).
Proof.
  split.
  - apply (Resolve_idempotent memfs.sample "../etc/./passwd" "/etc/passwd"). reflexivity.
  - apply (Resolve_idempotent danglingfs.mounted "d/." "/d"). reflexivity.
Defined.

(** ** The [Mkdir] of [src/unnamed/part_000] *)

(** X1.  On the in-memory host, the [Mkdir] of [src/unnamed/part_000] creates
    one directory or nothing.  Whenever it returns an error the state is as
    it was, and it returns an error when the directory that is to hold the
    new one is missing: no ancestor is created.  When it succeeds, the path
    did not exist, the directory that holds it did, and the table of entries
    has one entry more, a directory at the path, whose mode is the
    permissions of the parent with [0700] added, through the umask. *)
Theorem part_000_Mkdir_one_directory (fs fs' : memfs.FS) (p : Path) (e : option error) :
  part_000.Mkdir fs p = (fs', e) ->
  (e <> None -> fs' = fs) /\
  (forall k, memfs.key fs p = Some k ->
             memfs.lookup (filepath.Dir k) (memfs.nodes fs) = None -> e <> None) /\
  (e = None ->
   exists k perms perm0,
     memfs.key fs p = Some k /\
     memfs.lookup k (memfs.nodes fs) = None /\
     memfs.lookup (filepath.Dir k) (memfs.nodes fs) = Some (memfs.Dir perm0) /\
     Permissions fs (Parent p) = (perms, None) /\
     memfs.nodes fs' =
       (memfs.nodes fs ++
        [(k, memfs.Dir (Z.land (Z.land (Z.lor perms 448) 511) (Z.lnot (memfs.umask fs))))])%list /\
     IsDir fs' p = true).
Proof.
  unfold part_000.Mkdir. destruct (Exists fs p) eqn:HExists.
  { intros [= <- <-]. repeat split; auto; discriminate. }
  destruct (Permissions fs (Parent p)) as [perms [err|]] eqn:HPerm.
  { intros [= <- <-]. repeat split; auto; discriminate. }
  cbn [os.Mkdir memfs.host]. unfold memfs.mkdir.
  destruct (memfs.key fs p) as [k|] eqn:Hkey.
  2:{ intros [= <- <-]. repeat split; auto; discriminate. }
  destruct (memfs.lookup k (memfs.nodes fs)) as [n|] eqn:Hk.
  { intros [= <- <-]. repeat split; auto; discriminate. }
  destruct (memfs.lookup (filepath.Dir k) (memfs.nodes fs)) as [[perm0|perm0 data]|] eqn:Hparent.
  2,3: intros [= <- <-]; repeat split; auto; discriminate.
  intros [= <- <-]. split; [intros He; now contradiction He|]. split.
  - intros k' [= <-]. congruence.
  - intros _. exists k, perms, perm0.
    split; [reflexivity|]. split; [exact Hk|]. split; [exact Hparent|].
    split; [reflexivity|]. split; [reflexivity|].
    eapply (lookup_IsDir _ p k); [exact Hkey|].
    cbn [memfs.nodes memfs.withNodes]. rewrite lookup_app, Hk. now rewrite String.eqb_refl.
Qed.

(** [a/b/c] below [/tmp] is not created, for want of [/tmp/a/b]; [a] is, with
    the permissions of [/tmp], which has them all, through the umask [027]. *)
Lemma part_000_Mkdir_one_directory_witness :
  part_000.Mkdir memfs.sample "a/b/c" =
    (memfs.sample, Some (PathError "stat" "/tmp/a/b" ENOENT)) /\
  snd (part_000.Mkdir memfs.sample "/nowhere/a") <> None /\
  memfs.nodes (fst (part_000.Mkdir memfs.sample "a")) =
    (memfs.nodes memfs.sample ++ [("/tmp/a", memfs.Dir 488)])%list.
Proof.
  split; [reflexivity|]. split.
  - assert (Hrun : part_000.Mkdir memfs.sample "/nowhere/a" =
                   (fst (part_000.Mkdir memfs.sample "/nowhere/a"),
                    snd (part_000.Mkdir memfs.sample "/nowhere/a"))) by reflexivity.
    apply (proj1 (proj2 (part_000_Mkdir_one_directory memfs.sample _ "/nowhere/a" _ Hrun))
             "/nowhere/a"); reflexivity.
  - assert (Hrun : part_000.Mkdir memfs.sample "a" =
                   (fst (part_000.Mkdir memfs.sample "a"), None)) by reflexivity.
    destruct (proj2 (proj2 (part_000_Mkdir_one_directory memfs.sample _ "a" None Hrun))
                eq_refl) as (k & perms & perm0 & Hkey & _ & _ & HPerm & Hnodes & _).
    injection Hkey as <-. injection HPerm as <-. exact Hnodes.
Defined.

(** ** A directory is not a file *)

Section Exclusive.

Context {FS : Type} {H : os.Host FS}.

Lemma IsDir_not_IsRegular (m : os.FileMode) : os.IsDir m = true -> os.IsRegular m = false.
Proof.
  unfold os.IsDir, os.IsRegular, os.ModeType. intros Hdir.
  apply negb_true_iff, Z.eqb_neq in Hdir. apply Z.eqb_neq. intros Hzero.
  rewrite Z.land_lor_distr_r in Hzero. apply Z.lor_eq_0_iff in Hzero as (Hzero & _).
  contradiction.
Qed.

(** X3.  [IsDir] and [IsFile] never both hold of a path. *)
Theorem IsDir_IsFile_exclusive (fs : FS) (p : Path) :
  IsDir fs p = true -> IsFile fs p = false.
Proof.
  intros (absPath & fi & HAbs & HStat & Hdir)%IsDir_true_iff.
  unfold IsFile. rewrite HAbs, HStat. cbv zeta.
  now rewrite (IsDir_not_IsRegular _ Hdir).
Qed.

End Exclusive.

Lemma IsDir_IsFile_exclusive_witness : IsFile memfs.sample "/usr" = false.
Proof. apply (IsDir_IsFile_exclusive memfs.sample "/usr"). reflexivity. Defined.

(** ** Strings read from the end *)

Section SnocFacts.

Lemma string_snoc_cases (s : string) : s = "" \/ exists s' c, s = s' ++ String c "".
Proof.
  induction s as [|x s IH]; [now left|right].
  destruct IH as [->|(s' & c & ->)].
  - now exists "", x.
  - now exists (String x s'), c.
Qed.

Lemma string_rev_ind (P : string -> Prop) :
  P "" -> (forall s c, P s -> P (s ++ String c "")) -> forall s, P s.
Proof.
  intros Hnil Hsnoc s.
  remember (length s) as n eqn:Hn. revert s Hn.
  induction n as [|n IH]; intros s Hn.
  - destruct s; [exact Hnil | discriminate].
  - destruct (string_snoc_cases s) as [->|(s' & c & ->)]; [discriminate|].
    apply Hsnoc, IH. rewrite length_append in Hn. cbn in Hn. lia.
Qed.

Lemma get_snoc (s : string) (c : ascii) : get (length s) (s ++ String c "") = Some c.
Proof. now rewrite get_length_append. Qed.

Lemma length_snoc (s : string) (c : ascii) : length (s ++ String c "") = S (length s).
Proof. rewrite length_append. cbn. lia. Qed.

End SnocFacts.

(** ** [filepath.Base], [filepath.Split] and [Name] *)

Section BaseFacts.

Lemma stripTrailing_prefix (a b : string) (n : nat) :
  n <= length a -> filepath.stripTrailing (a ++ b) n = filepath.stripTrailing a n.
Proof.
  induction n as [|i IH]; intros Hn; [reflexivity|].
  cbn [filepath.stripTrailing]. rewrite get_append_l by lia.
  destruct (get i a) as [c|]; [|reflexivity].
  destruct (os.IsPathSeparator c); [apply IH; lia | reflexivity].
Qed.

Lemma Split_loop_prefix (a b : string) (n : nat) :
  n <= length a -> filepath.Split_loop (a ++ b) n = filepath.Split_loop a n.
Proof.
  induction n as [|i IH]; intros Hn; [reflexivity|].
  cbn [filepath.Split_loop]. rewrite get_append_l by lia.
  destruct (get i a) as [c|]; [|reflexivity].
  destruct (os.IsPathSeparator c); [reflexivity | apply IH; lia].
Qed.

Lemma elements_nil_snoc (t : string) (c : ascii) :
  elements t = [] -> os.IsPathSeparator c = true -> elements (t ++ String c "") = [].
Proof.
  intros Ht Hc. induction t as [|x t IH].
  - cbn [append]. rewrite elements_unfold, Hc. reflexivity.
  - cbn [append]. rewrite elements_unfold in Ht |- *.
    destruct (os.IsPathSeparator x); [now apply IH|].
    destruct (filepath.endsElement t); [discriminate|].
    destruct (elements t); discriminate.
Qed.

Lemma elements_nil_cases (t : string) :
  elements t = [] -> t = "" \/ exists t', t = "/" ++ t' /\ elements t' = [].
Proof.
  destruct t as [|x t]; [now left|]. intros Ht. right.
  rewrite elements_unfold in Ht. rewrite IsPathSeparator_eqb in Ht.
  destruct (Ascii.eqb_spec x "/") as [->|_].
  - now exists t.
  - destruct (filepath.endsElement t); [discriminate|].
    destruct (elements t); discriminate.
Qed.

(** A path is what is left once its trailing separators are stripped,
    followed by separators only. *)
Lemma stripTrailing_spec (p : string) :
  exists q t,
    p = q ++ t /\ elements t = [] /\
    (q = "" \/ exists q' c, q = q' ++ String c "" /\ os.IsPathSeparator c = false) /\
    filepath.stripTrailing p (length p) = length q.
Proof.
  induction p as [|s c IH] using string_rev_ind.
  - exists "", "". repeat split; now try left.
  - destruct IH as (q & t & Hp & Ht & Hq & Hstrip).
    rewrite length_snoc. cbn [filepath.stripTrailing]. rewrite get_snoc.
    destruct (os.IsPathSeparator c) eqn:Hc.
    + exists q, (t ++ String c ""). repeat split.
      * now rewrite <- append_assoc, <- Hp.
      * now apply elements_nil_snoc.
      * exact Hq.
      * now rewrite stripTrailing_prefix.
    + exists (s ++ String c ""), "". repeat split.
      * now rewrite append_nil_r.
      * right. now exists s, c.
      * now rewrite length_snoc.
Qed.

Lemma Split_loop_name (d e : string) :
  noByte "/" e = true ->
  filepath.Split_loop (d ++ e) (length d + length e) = filepath.Split_loop d (length d).
Proof.
  induction e as [|s c IH] using string_rev_ind; intros He.
  - cbn [length]. now rewrite Nat.add_0_r, append_nil_r.
  - rewrite noByte_append in He. apply andb_prop in He as [Hs Hc].
    cbn [noByte] in Hc. rewrite andb_true_r in Hc.
    rewrite length_snoc, Nat.add_succ_r. cbn [filepath.Split_loop].
    rewrite <- append_assoc, <- length_append, get_snoc.
    rewrite IsPathSeparator_eqb.
    destruct (Ascii.eqb c "/"); [discriminate|].
    rewrite Split_loop_prefix by lia. rewrite length_append. now apply IH.
Qed.

Lemma Split_loop_dir (d : string) :
  d = "" \/ (exists d', d = d' ++ "/") -> filepath.Split_loop d (length d) = length d.
Proof.
  intros [->|(d' & ->)]; [reflexivity|].
  rewrite length_snoc. cbn [filepath.Split_loop]. now rewrite get_snoc.
Qed.

Lemma Split_dir_name (d e : string) :
  noByte "/" e = true -> d = "" \/ (exists d', d = d' ++ "/") ->
  filepath.Split (d ++ e) = (d, e).
Proof.
  intros He Hd. unfold filepath.Split.
  rewrite length_append, Split_loop_name, Split_loop_dir by assumption.
  rewrite substring_0_append.
  replace (length d + length e - length d) with (length e) by lia.
  now rewrite substring_append_r, substring_0_length.
Qed.


Lemma snoc_inj (a b : string) (x y : ascii) :
  a ++ String x "" = b ++ String y "" -> a = b /\ x = y.
Proof.
  revert b. induction a as [|c a IH]; intros [|d b] Heq; cbn in Heq.
  - now injection Heq as ->.
  - injection Heq as -> Heq. now destruct b.
  - injection Heq as -> Heq. now destruct a.
  - injection Heq as -> Heq. apply IH in Heq as [-> ->]. now split.
Qed.

Lemma elements_element_seps (e t : string) :
  isElement e -> elements t = [] -> elements (e ++ t) = [e].
Proof.
  intros He Ht. destruct (elements_nil_cases t Ht) as [->|(t' & -> & Ht')].
  - rewrite append_nil_r. now apply elements_single.
  - rewrite elements_app_sep, Ht', app_nil_r. now apply elements_single.
Qed.

Lemma elements_dir_app (d s : string) :
  d = "" \/ (exists d', d = d' ++ "/") -> elements (d ++ s) = (elements d ++ elements s)%list.
Proof.
  intros [->|(d' & ->)]; [reflexivity|].
  rewrite append_assoc, elements_app_sep.
  change (d' ++ "/") with (d' ++ "/" ++ ""). now rewrite elements_app_sep, app_nil_r.
Qed.

(** The three shapes of a path, and [filepath.Base] on each: the empty path;
    separators only; or a last element [e], after a directory part [d] and
    before trailing separators [t]. *)
Lemma Base_cases (p : string) :
  (p = "" /\ filepath.Base p = ".") \/
  (p <> "" /\ elements p = [] /\ filepath.Base p = "/") \/
  (exists d e t,
     p = d ++ e ++ t /\ isElement e /\ (d = "" \/ exists d', d = d' ++ "/") /\
     elements t = [] /\ filepath.Base p = e /\ elements p = (elements d ++ [e])%list).
Proof.
  destruct p as [|c0 p0]; [now left|right].
  set (p := String c0 p0).
  assert (Hne : p <> "") by discriminate.
  assert (HBase : filepath.Base p =
    let path := substring 0 (filepath.stripTrailing p (length p)) p in
    let k := filepath.Split_loop path (length path) in
    let path := if (0 <? k)%nat then substring k (length path - k) path else path in
    if path =? "" then "/" else path) by reflexivity.
  clearbody p.
  destruct (stripTrailing_spec p) as (q & t & Hp & Ht & Hq & Hstrip).
  rewrite Hstrip in HBase. subst p. rewrite substring_0_append in HBase. cbv zeta in HBase.
  destruct Hq as [->|(q' & c & Hq & Hc)].
  - left. now repeat split.
  - right.
    destruct (lastSegment_spec q) as (d & Hsplit & He & Hd).
    set (e := lastSegment q) in *.
    assert (Hene : e <> "").
    { intros Hempty. rewrite Hempty, append_nil_r in Hsplit.
      destruct Hd as [->|(d' & ->)].
      - rewrite Hq in Hsplit. now destruct q'.
      - rewrite Hq in Hsplit. apply snoc_inj in Hsplit as [_ ->]. discriminate. }
    assert (Hk : filepath.Split_loop q (length q) = length d).
    { rewrite Hsplit at 1 2. rewrite length_append, Split_loop_name by exact He.
      now apply Split_loop_dir. }
    rewrite Hk in HBase.
    assert (Hlast : (if (0 <? length d)%nat then substring (length d) (length q - length d) q
                     else q) = e).
    { destruct (0 <? length d)%nat eqn:Hpos.
      - rewrite Hsplit at 2. rewrite substring_append_r.
        replace (length q - length d) with (length e)
          by (rewrite Hsplit at 1; rewrite length_append; lia).
        apply substring_0_length.
      - apply Nat.ltb_ge in Hpos. destruct d; [exact Hsplit | cbn in Hpos; lia]. }
    rewrite Hlast in HBase.
    exists d, e, t. repeat split; try assumption.
    + now rewrite <- append_assoc, <- Hsplit.
    + rewrite HBase. destruct (String.eqb_spec e ""); [contradiction | reflexivity].
    + rewrite Hsplit, append_assoc, elements_dir_app by exact Hd.
      f_equal. apply elements_element_seps; [now split | exact Ht].
Qed.


Lemma Base_last_element (p : string) :
  filepath.Base p =
    match rev (elements p) with
    | e :: _ => e
    | [] => if p =? "" then "." else "/"
    end.
Proof.
  destruct (Base_cases p)
    as [[-> ->]|[(Hne & Hel & ->)|(d & e & t & Hp & He & Hd & Ht & -> & Hel)]].
  - reflexivity.
  - rewrite Hel. cbn [rev]. now destruct (String.eqb_spec p "").
  - now rewrite Hel, rev_app_distr.
Qed.

End BaseFacts.

(** X5.  [Name] returns the last element of the path, the text between
    separators that comes last, whatever separators follow it; [.] for the
    empty path and [/] for a path of separators only.  So a name is never
    empty, and holds a separator only when it is [/] itself. *)
Theorem Name_last_element (p : Path) :
  Name p =
    match rev (elements p) with
    | e :: _ => e
    | [] => if p =? "" then "." else "/"
    end /\
  Name p <> "" /\
  (Name p = "/" \/ noByte "/" (Name p) = true).
Proof.
  unfold Name.
  destruct (Base_cases p)
    as [[-> ->]|[(Hne & Hel & ->)|(d & e & t & Hp & He & Hd & Ht & -> & Hel)]].
  - repeat split; [discriminate | now right].
  - rewrite Hel. cbn [rev]. destruct (String.eqb_spec p ""); [contradiction|].
    repeat split; [discriminate | now left].
  - rewrite Hel, rev_app_distr. cbn [rev app].
    repeat split; [apply He | right; apply He].
Qed.

(** The cases of [TestName] and [TestParent], and those of Go's own test of
    [filepath.Base]. *)
Example TestName_cases :
  Name "/var/log/messages" = "messages" /\
  Name "foo" = "foo" /\
  Name "foo/bar.baz" = "bar.baz" /\
  map Name [""; "."; "/."; "/"; "////"; "x/"; "abc"; "abc/def"; "a/b/.x"; "a/b/c."; "a/b/c.x"]
    = ["."; "."; "."; "/"; "/"; "x"; "abc"; "def"; ".x"; "c."; "c.x"] /\
  Parent "/var/log" = "/var".
Proof. repeat split; reflexivity. Qed.

(** ** [Parent], [Name] and [JoinPath] *)

Section ParentFacts.

(** Lexical processing of what it has kept changes nothing. *)
Lemma cleanOf_lexical (rooted : bool) (es : list string) :
  Forall isElement es -> cleanOf rooted (lexical rooted es) = cleanOf rooted es.
Proof.
  intros Hes. unfold cleanOf, lexical. cbv zeta.
  rewrite lexical_fixed; [reflexivity|].
  apply fold_lexicalStep_Normal; [apply Normal_nil | exact Hes].
Qed.

(** The clean path of a list of elements followed by a plain one: the path
    of what is kept of the list, a separator unless that is empty or the
    root, and the plain element. *)
Lemma cleanOf_snoc_plain (rooted : bool) (es : list string) (e : string) :
  Forall isElement es -> plainElement e = true ->
  exists d,
    cleanOf rooted (es ++ [e]) = d ++ e /\
    (d = "" \/ exists d', d = d' ++ "/") /\
    elements d = lexical rooted es /\
    filepath.IsAbs d = rooted.
Proof.
  intros Hes He.
  pose proof (fold_lexicalStep_Normal rooted es [] (Normal_nil rooted) Hes) as HN.
  set (kept := fold_left (lexicalStep rooted) es []) in *.
  assert (Hks : Forall isElement (rev kept))
    by (apply Forall_rev; now apply (Normal_elements rooted)).
  assert (Hel : isElement e) by (now apply plainElement_spec in He).
  assert (Hlex : lexical rooted (es ++ [e]) = (rev kept ++ [e])%list).
  { unfold lexical. rewrite fold_left_app. cbn [fold_left]. fold kept.
    now rewrite lexicalStep_plain. }
  assert (Hrender : render rooted (rev kept ++ [e]) <> "").
  { intros Hempty. pose proof (render_length_snoc rooted (rev kept) e Hel) as Hlt.
    rewrite Hempty in Hlt. cbn in Hlt. lia. }
  unfold cleanOf. cbv zeta. rewrite Hlex.
  destruct (String.eqb_spec (render rooted (rev kept ++ [e])) "") as [E|_]; [contradiction|].
  rewrite render_snoc by exact Hks. cbv zeta.
  change (lexical rooted es) with (rev kept).
  set (out := render rooted (rev kept)).
  pose proof (elements_render rooted _ Hks) as Helems. fold out in Helems.
  pose proof (render_IsAbs rooted _ Hks) as Habs. fold out in Habs.
  destruct (rooted && negb (length out =? 1)%nat || negb rooted && negb (length out =? 0)%nat)
    eqn:Hcond.
  - exists (out ++ "/"). repeat split.
    + right. now exists out.
    + change (out ++ "/") with (out ++ "/" ++ ""). now rewrite elements_app_sep, app_nil_r.
    + rewrite IsAbs_append; [exact Habs|].
      intros Hout. rewrite Hout in Hcond, Habs. cbn in Habs. subst rooted. discriminate.
  - exists out. repeat split; try assumption.
    destruct rooted; cbn [andb orb negb] in Hcond; rewrite ?orb_false_r in Hcond;
      apply negb_false_iff, Nat.eqb_eq in Hcond.
    + right. exists "". destruct out as [|c [|c' o]]; try discriminate.
      rewrite IsAbs_cons, IsPathSeparator_eqb in Habs.
      apply Ascii.eqb_eq in Habs. now subst c.
    + left. now destruct out.
Qed.

Lemma Name_dir_name (d e : string) :
  isElement e -> d = "" \/ (exists d', d = d' ++ "/") -> Name (d ++ e) = e.
Proof.
  intros He Hd. unfold Name. rewrite Base_last_element.
  rewrite elements_dir_app by exact Hd. rewrite (elements_single e He), rev_app_distr.
  reflexivity.
Qed.

Lemma Parent_dir_name (d e : string) :
  noByte "/" e = true -> d = "" \/ (exists d', d = d' ++ "/") ->
  Parent (d ++ e) = filepath.Clean d.
Proof.
  intros He Hd. unfold Parent, filepath.Dir. now rewrite Split_dir_name.
Qed.

End ParentFacts.

Section JoinAll.

Lemma elements_concat_all (p : string) (ps : list string) :
  elements (String.concat "/" (p :: ps)) = flat_map elements (p :: ps).
Proof.
  revert p. induction ps as [|c cs IH]; intros p.
  - cbn [String.concat flat_map]. now rewrite app_nil_r.
  - change (String.concat "/" (p :: c :: cs)) with (p ++ "/" ++ String.concat "/" (c :: cs)).
    rewrite elements_app_sep, IH. reflexivity.
Qed.

Lemma IsAbs_concat (p : string) (ps : list string) :
  p <> "" -> filepath.IsAbs (String.concat "/" (p :: ps)) = filepath.IsAbs p.
Proof.
  intros Hp. destruct ps as [|c cs]; [reflexivity|].
  change (String.concat "/" (p :: c :: cs)) with (p ++ "/" ++ String.concat "/" (c :: cs)).
  now apply IsAbs_append.
Qed.

Lemma Join_nonempty_head (p : string) (ps : list string) :
  p <> "" -> filepath.Join (p :: ps) = filepath.Clean (String.concat "/" (p :: ps)).
Proof.
  intros Hp. cbn [filepath.Join]. now destruct (String.eqb_spec p "").
Qed.

Lemma Clean_concat (p : string) (ps : list string) :
  p <> "" ->
  filepath.Clean (String.concat "/" (p :: ps)) =
    cleanOf (filepath.IsAbs p) (flat_map elements (p :: ps)).
Proof.
  intros Hp. rewrite Clean_elements. unfold cleanElements.
  now rewrite IsAbs_concat, elements_concat_all.
Qed.

Lemma JoinPath_nonempty (p c : Path) (cs : list Path) :
  p <> "" -> JoinPath p (c :: cs) = filepath.Join (p :: c :: cs).
Proof.
  intros Hp. rewrite Join_nonempty_head, Clean_concat by exact Hp.
  now apply JoinPath_elements.
Qed.

Lemma JoinPath_cons (p c : Path) (cs : list Path) :
  JoinPath p (c :: cs) = JoinPath (filepath.Join [p; c]) cs.
Proof. reflexivity. Qed.

Lemma JoinPath_empty (cs : list Path) : JoinPath "" cs = filepath.Join cs.
Proof.
  induction cs as [|c cs IH]; [reflexivity|].
  rewrite JoinPath_cons.
  change (filepath.Join ("" :: c :: cs)) with (filepath.Join (c :: cs)).
  destruct (String.eqb_spec c "") as [->|Hc].
  - exact IH.
  - transitivity (JoinPath (filepath.Clean c) cs).
    { f_equal. cbn [filepath.Join]. now destruct (String.eqb_spec c ""). }
    rewrite Join_nonempty_head, Clean_concat by exact Hc.
    destruct cs as [|c2 cs].
    + cbn [JoinPath fold_left flat_map]. rewrite app_nil_r. apply Clean_elements.
    + rewrite JoinPath_elements by apply Clean_nonempty.
      rewrite Clean_IsAbs, Clean_elements. unfold cleanElements.
      apply cleanOf_app, elements_are_elements.
Qed.

Lemma Join_clean (elem : list string) :
  filepath.Join elem <> "" -> filepath.Clean (filepath.Join elem) = filepath.Join elem.
Proof.
  induction elem as [|e elem IH]; [now intros []|].
  cbn [filepath.Join]. destruct (negb (e =? "")); [intros _; apply Clean_idempotent | exact IH].
Qed.

End JoinAll.

Section JoinEvery.

(** [filepath.Join] skips the empty strings it is given first, and cleans
    the rest: the first string that is not empty says whether the result is
    rooted, and the elements of all of them are read in turn. *)
Lemma Join_first_nonempty (empties rest : list string) (f : string) :
  Forall (eq "") empties -> f <> "" ->
  filepath.Join (empties ++ f :: rest) =
    cleanOf (filepath.IsAbs f) (flat_map elements (empties ++ f :: rest)).
Proof.
  intros Hempties Hf. induction Hempties as [|e empties <- _ IH]; cbn [app].
  - rewrite Join_nonempty_head by exact Hf. now apply Clean_concat.
  - exact IH.
Qed.

Lemma Join_all_empty (elem : list string) : Forall (eq "") elem -> filepath.Join elem = "".
Proof. induction 1 as [|e elem <- _ IH]; [reflexivity | exact IH]. Qed.

Lemma JoinPath_Join (p : Path) (paths : list Path) :
  paths <> [] -> JoinPath p paths = filepath.Join (p :: paths).
Proof.
  destruct paths as [|c cs]; [congruence|]. intros _.
  destruct (String.eqb_spec p "") as [->|Hp].
  - exact (JoinPath_empty (c :: cs)).
  - now apply JoinPath_nonempty.
Qed.

Lemma first_nonempty (l : list string) :
  List.Exists (fun b => b <> "") l ->
  exists empties f rest, l = (empties ++ f :: rest)%list /\ Forall (eq "") empties /\ f <> "".
Proof.
  induction l as [|x l IH]; intros Hex; [inversion Hex|].
  destruct (String.eqb_spec x "") as [->|Hx].
  - inversion Hex as [? ? Hhead|? ? Htail]; subst; [congruence|].
    destruct (IH Htail) as (empties & f & rest & -> & Hempties & Hf).
    exists ("" :: empties), f, rest. repeat split; auto.
  - exists [], x, l. repeat split; auto.
Qed.

End JoinEvery.



(** X6.  Joining the components one after the other, as the loop of
    [JoinPath] does, gives what one [filepath.Join] of the receiver and all
    the components gives: empty strings are skipped wherever they stand, the
    receiver included.  With no component the receiver comes back as it is;
    otherwise the result is empty, when all the strings are, or a clean
    path. *)
Theorem JoinPath_is_Join (p : Path) (paths : list Path) :
  JoinPath p paths =
    match paths with
    | [] => p
    | _ :: _ => filepath.Join (p :: paths)
    end /\
  (paths <> [] -> JoinPath p paths <> "" ->
   filepath.Clean (JoinPath p paths) = JoinPath p paths).
Proof.
  assert (HJoin : forall c cs, JoinPath p (c :: cs) = filepath.Join (p :: c :: cs)).
  { intros c cs. destruct (String.eqb_spec p "") as [->|Hp].
    - exact (JoinPath_empty (c :: cs)).
    - now apply JoinPath_nonempty. }
  destruct paths as [|c cs]; [split; [reflexivity | now intros []]|].
  split; [apply HJoin|]. intros _. rewrite HJoin. apply Join_clean.
Qed.

(** Three components on a receiver with a trailing separator; and an empty
    receiver, which lets the first component that is not empty root the path. *)
Lemma JoinPath_is_Join_witness :
  JoinPath "/tmp/" ["foo"; "bar"] = filepath.Join ["/tmp/"; "foo"; "bar"] /\
  filepath.Clean (JoinPath "/tmp/" ["foo"; "bar"]) = JoinPath "/tmp/" ["foo"; "bar"] /\
  JoinPath "" [""; "/x"; ""] = "/x".
Proof.
  split; [exact (proj1 (JoinPath_is_Join "/tmp/" ["foo"; "bar"]))|].
  split; [|exact (proj1 (JoinPath_is_Join "" [""; "/x"; ""]))].
  apply (proj2 (JoinPath_is_Join "/tmp/" ["foo"; "bar"])); [discriminate|].
  intros E. vm_compute in E. discriminate E.
Defined.

(** X7.  [Parent] and [Name] take apart what [JoinPath] put together: for a
    receiver that is not empty and a component that is one plain element
    (not empty, without separator, neither [.] nor [..]), the parent of the
    joined path is the receiver, cleaned, and its name is the component. *)
Theorem Parent_Name_of_JoinPath (p : Path) (e : string) :
  p <> "" -> plainElement e = true ->
  Parent (JoinPath p [e]) = filepath.Clean p /\ Name (JoinPath p [e]) = e.
Proof.
  intros Hp He.
  assert (Hel : isElement e) by (now apply plainElement_spec in He).
  change (JoinPath p [e]) with (filepath.Join [p; e]).
  rewrite Join_elements by exact Hp. rewrite (elements_single e Hel).
  destruct (cleanOf_snoc_plain (filepath.IsAbs p) (elements p) e (elements_are_elements p) He)
    as (d & -> & Hd & Hel_d & Habs).
  split.
  - rewrite Parent_dir_name by (exact Hd || apply Hel).
    rewrite !Clean_elements. unfold cleanElements. rewrite Hel_d, Habs.
    apply cleanOf_lexical, elements_are_elements.
  - now apply Name_dir_name.
Qed.

(** The receiver comes back cleaned. *)
Lemma Parent_Name_of_JoinPath_witness :
  Parent (JoinPath "/var/../var/log" ["messages"]) = "/var/log" /\
  Name (JoinPath "/var/../var/log" ["messages"]) = "messages".
Proof.
  apply (Parent_Name_of_JoinPath "/var/../var/log" "messages"); [discriminate | reflexivity].
Defined.

(** X8.  A path that does not end in a separator is its parent joined with
    its name, up to cleaning: [p.Parent().JoinPath(Path(p.Name()))] is
    [filepath.Clean(p)].  (With a trailing separator this fails: the parent of
    [a/] is [a] and its name is [a].) *)
Theorem JoinPath_Parent_Name (p : Path) :
  lastSegment p <> "" -> JoinPath (Parent p) [Name p] = filepath.Clean p.
Proof.
  intros Hlast.
  destruct (lastSegment_spec p) as (d & Hp & He & Hd).
  remember (lastSegment p) as e eqn:Heq. clear Heq. subst p.
  assert (Hel : isElement e) by now split.
  rewrite Parent_dir_name, Name_dir_name by assumption.
  change (JoinPath (filepath.Clean d) [e]) with (filepath.Join [filepath.Clean d; e]).
  rewrite Join_elements by apply Clean_nonempty.
  rewrite Clean_IsAbs, (Clean_elements d). unfold cleanElements.
  rewrite cleanOf_app by apply elements_are_elements.
  rewrite (Clean_elements (d ++ e)). unfold cleanElements.
  rewrite elements_dir_app by exact Hd.
  f_equal. destruct d as [|c d].
  - cbn [append]. symmetry. now apply isElement_not_rooted.
  - symmetry. now apply IsAbs_append.
Qed.

(** The case of [TestName], with a doubled separator. *)
Lemma JoinPath_Parent_Name_witness :
  JoinPath (Parent "/var//log/messages") [Name "/var//log/messages"] = "/var/log/messages".
Proof. apply (JoinPath_Parent_Name "/var//log/messages"). discriminate. Defined.

(** X9.  A suffix without separator leaves the file where it is: the parent
    of [p.WithSuffix(s)] is the parent of [p], whether [s] is blank, replaces
    an extension or is added to the name. *)
Theorem WithSuffix_keeps_Parent (p : Path) (s : string) :
  noByte "/" (strings.TrimSpace s) = true -> Parent (WithSuffix p s) = Parent p.
Proof.
  intros Hs. set (t := strings.TrimSpace s) in *.
  assert (Hsame : forall d n n' : string,
            (d = "" \/ exists d', d = d' ++ "/") -> noByte "/" n = true -> noByte "/" n' = true ->
            Parent (d ++ n') = Parent (d ++ n)).
  { intros d n n' Hd Hn Hn'. now rewrite !Parent_dir_name. }
  destruct (final_dot_cases p) as [Hno|(stem & old & Hp & Hold)].
  - rewrite (WithSuffix_no_ext s p (Ext_no_dot p Hno)). fold t.
    destruct (t =? ""); [reflexivity|].
    destruct (lastSegment_spec p) as (d & Hp & Hn & Hd).
    remember (lastSegment p) as n eqn:Heq. clear Heq Hno. subst p.
    rewrite append_assoc.
    apply Hsame; [exact Hd | exact Hn |].
    rewrite noByte_append, Hn. cbn [noByte append]. now rewrite Hs.
  - subst p. rewrite (WithSuffix_ext s stem old Hold). fold t.
    destruct (lastSegment_spec stem) as (d & Hstem & Hn & Hd).
    remember (lastSegment stem) as n eqn:Heq. clear Heq. subst stem.
    apply andb_prop in Hold as (_ & Hold).
    assert (Hn_old : noByte "/" (n ++ "." ++ old) = true).
    { rewrite noByte_append, Hn. cbn [noByte append]. now rewrite Hold. }
    rewrite (append_assoc d n ("." ++ old)).
    destruct (t =? "").
    + now apply Hsame.
    + rewrite append_assoc. apply Hsame; [exact Hd | exact Hn_old |].
      rewrite noByte_append, Hn. cbn [noByte append]. now rewrite Hs.
Qed.

(** A directory with a dot in its name stays the parent. *)
Lemma WithSuffix_keeps_Parent_witness :
  Parent (WithSuffix "/foo/bar.a/baz.zip" " conf ") = "/foo/bar.a".
Proof. apply (WithSuffix_keeps_Parent "/foo/bar.a/baz.zip" " conf "). reflexivity. Defined.

(** ** The spelling of a path *)

Section SpellingFacts.

(** Reading the elements that lexical processing keeps of a relative path
    does to any stack what reading the path's own elements does. *)
Lemma fold_lexical_kept (rooted : bool) (es : list string) :
  Forall isElement es ->
  forall kept,
    fold_left (lexicalStep rooted) (rev (fold_left (lexicalStep false) es [])) kept =
    fold_left (lexicalStep rooted) es kept.
Proof.
  induction es as [|e es IH] using rev_ind; intros Hes kept; [reflexivity|].
  apply Forall_app in Hes as (Hes & He). inversion He as [|? ? Hel _]; subst.
  specialize (IH Hes).
  pose proof (fold_lexicalStep_Normal false es [] (Normal_nil false) Hes) as HN.
  rewrite !fold_left_app. cbn [fold_left].
  set (N := fold_left (lexicalStep false) es []) in *.
  rewrite <- (IH kept).
  destruct (String.eqb_spec e ".") as [->|Hdot]; [reflexivity|].
  destruct (String.eqb_spec e "..") as [->|Hdd].
  - destruct N as [|top below].
    + reflexivity.
    + destruct (Normal_cons_inv false top below HN) as (_ & Htop).
      cbn [rev]. rewrite fold_left_app. cbn [fold_left].
      unfold lexicalStep at 2. cbn [String.eqb Ascii.eqb Bool.eqb].
      destruct (String.eqb_spec top "..") as [->|Hup].
      * cbn [rev]. rewrite !fold_left_app. reflexivity.
      * assert (Hplain : lexicalStep rooted
                  (fold_left (lexicalStep rooted) (rev below) kept) top =
                  top :: fold_left (lexicalStep rooted) (rev below) kept).
        { unfold lexicalStep in Htop |- *.
          destruct (top =? "."); [exfalso; revert Htop; clear; intros Htop;
            apply (f_equal (@List.length string)) in Htop; cbn in Htop; lia|].
          destruct (String.eqb_spec top ".."); [contradiction | reflexivity]. }
        rewrite Hplain. unfold lexicalStep. cbn [String.eqb Ascii.eqb Bool.eqb].
        now destruct (String.eqb_spec top "..").
  - assert (Hstep : forall r k, lexicalStep r k e = e :: k).
    { intros r k. apply lexicalStep_plain. apply plainElement_spec. now split. }
    rewrite !Hstep. cbn [rev]. rewrite fold_left_app. cbn [fold_left]. now rewrite Hstep.
Qed.

Lemma fold_lexical_Clean (rooted : bool) (p : string) (kept : list string) :
  filepath.IsAbs p = false ->
  fold_left (lexicalStep rooted) (elements (filepath.Clean p)) kept =
  fold_left (lexicalStep rooted) (elements p) kept.
Proof.
  intros Hrel. rewrite <- (fold_lexical_kept rooted (elements p) (elements_are_elements p)).
  rewrite Clean_elements. unfold cleanElements, cleanOf, lexical. rewrite Hrel. cbv zeta.
  pose proof (Normal_elements _ _ (lexical_elements false p)) as Hks. apply Forall_rev in Hks.
  pose proof (elements_render false _ Hks) as Hel.
  destruct (String.eqb_spec (render false (rev (fold_left (lexicalStep false) (elements p) [])))
              "") as [E|_].
  - rewrite E in Hel. cbn in Hel. now rewrite <- Hel.
  - now rewrite Hel.
Qed.

Lemma Join_Clean_relative (wd p : string) :
  p <> "" -> filepath.IsAbs p = false ->
  filepath.Join [wd; filepath.Clean p] = filepath.Join [wd; p].
Proof.
  intros Hp Hrel. destruct (String.eqb_spec wd "") as [->|Hwd].
  - cbn [filepath.Join].
    destruct (String.eqb_spec p ""); [contradiction|].
    destruct (String.eqb_spec (filepath.Clean p) "") as [E|_]; [now apply Clean_nonempty in E|].
    cbn [negb strings.Join String.concat]. apply Clean_idempotent.
  - rewrite !Join_elements by exact Hwd. unfold cleanOf, lexical. cbv zeta.
    now rewrite !fold_left_app, fold_lexical_Clean.
Qed.

Context {FS : Type} {H : os.Host FS}.

(** [filepath.Abs] does not see how a path is spelled. *)
Lemma Abs_Clean (fs : FS) (p : string) :
  p <> "" -> filepath.Abs fs (filepath.Clean p) = filepath.Abs fs p.
Proof.
  intros Hp. unfold filepath.Abs. rewrite Clean_IsAbs.
  destruct (filepath.IsAbs p) eqn:Hrel; [now rewrite Clean_idempotent|].
  destruct (os.Getwd fs) as [wd|err]; [|reflexivity].
  now rewrite Join_Clean_relative.
Qed.

(** X10.  The queries do not see how a path is spelled: for a path that is
    not empty, [Exists], [IsDir], [IsFile] and [Permissions] give on
    [filepath.Clean(p)] what they give on [p], on every host and in every
    state. *)
Theorem queries_ignore_spelling (fs : FS) (p : Path) :
  p <> "" ->
  Exists fs (filepath.Clean p) = Exists fs p /\
  IsDir fs (filepath.Clean p) = IsDir fs p /\
  IsFile fs (filepath.Clean p) = IsFile fs p /\
  Permissions fs (filepath.Clean p) = Permissions fs p.
Proof.
  intros Hp. unfold Exists, IsDir, IsFile, Permissions.
  now rewrite (Abs_Clean fs p Hp).
Qed.

(** X11.  [Resolve] of a path and of its lexically simplified form succeed
    together and then return the same path; they fail together, with the same
    error (each then returns its own receiver). *)
Theorem Resolve_ignores_spelling (fs : FS) (p : Path) :
  p <> "" ->
  snd (Resolve fs (filepath.Clean p)) = snd (Resolve fs p) /\
  (forall q, Resolve fs (filepath.Clean p) = (q, None) <-> Resolve fs p = (q, None)).
Proof.
  intros Hp. unfold Resolve. rewrite (Abs_Clean fs p Hp).
  destruct (filepath.Abs fs p) as [absPath|err]; cbv zeta.
  - destruct (Exists fs absPath); cbn [negb snd]; split; try reflexivity;
      intros q; split; intros [=]; congruence.
  - split; [reflexivity|]. intros q; split; intros [=].
Qed.

(** X12.  [Permissions] returns an error exactly when [Exists] is false, and
    then the mode [0]; what it returns is always made of the nine permission
    bits alone, between [0] and [0777]: the directory bit that [os.Stat]
    reports is never part of it. *)
Theorem Permissions_spec (fs : FS) (p : Path) :
  (snd (Permissions fs p) = None <-> Exists fs p = true) /\
  (snd (Permissions fs p) <> None -> fst (Permissions fs p) = 0%Z) /\
  (0 <= fst (Permissions fs p) <= 511)%Z /\
  os.IsDir (fst (Permissions fs p)) = false /\
  os.Perm (fst (Permissions fs p)) = fst (Permissions fs p).
Proof.
  assert (Hperm : forall m, (0 <= os.Perm m <= 511)%Z /\ os.IsDir (os.Perm m) = false /\
                            os.Perm (os.Perm m) = os.Perm m).
  { intros m. unfold os.Perm, os.ModePerm, os.IsDir, os.ModeDir. repeat split.
    - apply Z.land_nonneg. right. lia.
    - change 511%Z with (Z.ones 9). rewrite Z.land_ones by lia.
      pose proof (Z.mod_pos_bound m (2 ^ 9) ltac:(lia)). change (Z.ones 9) with (2 ^ 9 - 1)%Z. lia.
    - rewrite <- Z.land_assoc. change (Z.land 511 (Z.shiftl 1 31)) with 0%Z.
      now rewrite Z.land_0_r.
    - rewrite <- Z.land_assoc. now rewrite Z.land_diag. }
  unfold Permissions, Exists.
  destruct (filepath.Abs fs p) as [absPath|err]; cbn [fst snd].
  - destruct (os.Stat fs absPath) as [stat|err]; cbn [fst snd].
    + destruct (Hperm (os.Mode stat)) as (? & ? & ?). repeat split; auto; try congruence; lia.
    + repeat split; try discriminate; try reflexivity; lia.
  - repeat split; try discriminate; try reflexivity; lia.
Qed.

End SpellingFacts.

(** [/etc/passwd] spelled with [..] and a doubled separator; [/usr] spelled
    from the working directory [/tmp]. *)
Lemma queries_ignore_spelling_witness :
  Exists memfs.sample "/etc/passwd" = Exists memfs.sample "/etc/../etc//passwd" /\
  IsDir memfs.sample "../usr" = IsDir memfs.sample "./a/../../usr/" /\
  IsFile memfs.sample "/etc/passwd" = IsFile memfs.sample "/etc/../etc//passwd" /\
  Permissions memfs.sample "/etc/passwd" = Permissions memfs.sample "/etc/../etc//passwd".
Proof.
  split; [|split; [|split]].
  - apply (queries_ignore_spelling memfs.sample "/etc/../etc//passwd"). discriminate.
  - apply (queries_ignore_spelling memfs.sample "./a/../../usr/"). discriminate.
  - apply (queries_ignore_spelling memfs.sample "/etc/../etc//passwd"). discriminate.
  - apply (queries_ignore_spelling memfs.sample "/etc/../etc//passwd"). discriminate.
Defined.

(** The case of [TestResolve]. *)
Lemma Resolve_ignores_spelling_witness :
  Resolve memfs.sample "/etc/../etc/passwd" = ("/etc/passwd", None).
Proof.
  assert (Hclean : Resolve memfs.sample (filepath.Clean "/etc/../etc/passwd")
                   = ("/etc/passwd", None)) by reflexivity.
  apply (proj2 (Resolve_ignores_spelling memfs.sample "/etc/../etc/passwd"
                  ltac:(discriminate)) "/etc/passwd").
  exact Hclean.
Defined.

(** A file, a directory, whose directory bit is not returned, and a path
    that [os.Stat] may not look at. *)
Lemma Permissions_spec_witness :
  snd (Permissions memfs.sample "/etc/passwd") = None /\
  fst (Permissions memfs.sample "/usr") = 493%Z /\
  fst (Permissions tt "/locked/secret") = 0%Z.
Proof.
  split; [|split; [reflexivity|]].
  - apply (proj1 (Permissions_spec memfs.sample "/etc/passwd")). reflexivity.
  - apply (proj1 (proj2 (Permissions_spec tt "/locked/secret"))). discriminate.
Defined.

(** ** [Age] *)

Section TimeFacts.

Local Open Scope Z_scope.

Lemma int64_spec (z : Z) :
  exists k, time.int64 z = z + k * 2 ^ 64 /\ - 2 ^ 63 <= time.int64 z < 2 ^ 63.
Proof.
  unfold time.int64.
  pose proof (Z.div_mod (z + 2 ^ 63) (2 ^ 64) ltac:(lia)) as Hdiv.
  pose proof (Z.mod_pos_bound (z + 2 ^ 63) (2 ^ 64) ltac:(lia)) as Hmod.
  exists (- ((z + 2 ^ 63) / 2 ^ 64)). lia.
Qed.

(** [t.Sub(u)] is the difference of the two instants, or the [Duration]
    nearest to it. *)
Lemma Sub_saturates (t u : time.Time) :
  time.Sub t u = Z.max time.minDuration (Z.min time.maxDuration (t - u)).
Proof.
  unfold time.Sub, time.minDuration, time.maxDuration. cbv zeta.
  pose proof (Z.div_mod t time.Second ltac:(unfold time.Second; lia)) as Ht.
  pose proof (Z.div_mod u time.Second ltac:(unfold time.Second; lia)) as Hu.
  set (a := t / time.Second - u / time.Second) in *.
  set (b := t mod time.Second - u mod time.Second) in *.
  assert (Hdiff : t - u = a * time.Second + b) by (unfold a, b; lia).
  destruct (int64_spec a) as (k1 & E1 & _). rewrite E1.
  destruct (int64_spec ((a + k1 * 2 ^ 64) * time.Second)) as (k2 & E2 & _). rewrite E2.
  destruct (int64_spec ((a + k1 * 2 ^ 64) * time.Second + k2 * 2 ^ 64 + b)) as (k3 & E3 & Hd).
  set (d := time.int64 ((a + k1 * 2 ^ 64) * time.Second + k2 * 2 ^ 64 + b)) in *.
  assert (Hk : exists k, d = t - u + k * 2 ^ 64).
  { exists (k1 * time.Second + k2 + k3). unfold time.Second in *. lia. }
  destruct Hk as (k & Hk).
  destruct (Z.eqb_spec (u + d) t) as [Heq|Hne]; [lia|].
  destruct (Z.ltb_spec t u); lia.
Qed.

End TimeFacts.

Section AgeFacts.

Context {FS : Type} {H : os.Host FS}.

(** X13.  [Age] fails exactly when [Exists] is false, always with the
    message that the path does not exist and the duration [0]: once [Exists]
    has answered true in a state, neither [filepath.Abs] nor [os.Stat] fails
    in that state, so the two errors [Age] would pass on never show.
    Otherwise the age is [now] minus the modification time, or the nearest
    [Duration] when that difference does not fit 64 bits. *)
Theorem Age_spec (fs : FS) (p : Path) (now : time.Time) :
  (Exists fs p = false ->
   Age fs p now = (0%Z, Some (fmt.Errorf (p ++ " does not exist")))) /\
  (Exists fs p = true ->
   exists absPath stat,
     filepath.Abs fs p = Ok absPath /\ os.Stat fs absPath = Ok stat /\
     Age fs p now =
       (Z.max time.minDuration (Z.min time.maxDuration (now - os.ModTime stat)), None)) /\
  (snd (Age fs p now) = None <-> Exists fs p = true) /\
  (time.minDuration <= fst (Age fs p now) <= time.maxDuration)%Z.
Proof.
  assert (Hrange : forall t u, (time.minDuration <= time.Sub t u <= time.maxDuration)%Z).
  { intros t u. rewrite Sub_saturates. unfold time.minDuration, time.maxDuration. lia. }
  unfold Age.
  destruct (Exists fs p) eqn:HExists; cbn [negb].
  - apply Exists_true_iff in HExists as (absPath & stat & HAbs & HStat).
    rewrite HAbs, HStat. cbn [fst snd]. repeat split; try discriminate; try apply Hrange.
    intros _. exists absPath, stat. now rewrite Sub_saturates.
  - cbn [fst snd]. repeat split; try discriminate;
      unfold time.minDuration, time.maxDuration; lia.
Qed.

End AgeFacts.

(** A path that does not exist; a file of the in-memory host, whose
    modification time is the epoch, two seconds later; and an age that does not
    fit 64 bits. *)
Lemma Age_spec_witness :
  Age memfs.sample "/nowhere" 5%Z = (0%Z, Some (fmt.Errorf "/nowhere does not exist")) /\
  snd (Age memfs.sample "/etc/passwd" 2000000000%Z) = None /\
  Age memfs.sample "/etc/passwd" 2000000000%Z = (2000000000%Z, None) /\
  fst (Age memfs.sample "/etc/passwd" (2 ^ 70)%Z) = (2 ^ 63 - 1)%Z.
Proof.
  split; [|split; [|split; reflexivity]].
  - apply (proj1 (Age_spec memfs.sample "/nowhere" 5%Z)). reflexivity.
  - apply (proj1 (proj2 (proj2 (Age_spec memfs.sample "/etc/passwd" 2000000000%Z)))).
    reflexivity.
Defined.

(** ** Files on the in-memory host *)

Section MemfsQueries.

Import memfs.

Lemma key_same_cwd (fs fs' : FS) (name : string) :
  cwd fs' = cwd fs -> key fs' name = key fs name.
Proof. intros Hcwd. unfold key. now rewrite Hcwd. Qed.

Lemma stat_key (fs : FS) (name k : string) :
  key fs name = Some k ->
  filepath.Abs fs name = Ok k /\
  os.Stat fs k = match lookup k (nodes fs) with
                 | Some n => Ok (info n)
                 | None => Err (PathError "stat" k ENOENT)
                 end.
Proof.
  intros Hkey. pose proof (key_of_key fs fs _ _ Hkey) as Hkk.
  apply key_Abs in Hkey as (HAbs & _). split; [exact HAbs|].
  cbn [os.Stat host]. unfold stat. now rewrite Hkk.
Qed.

Lemma Exists_key (fs : FS) (p k : string) :
  key fs p = Some k ->
  Exists fs p = match lookup k (nodes fs) with Some _ => true | None => false end.
Proof.
  intros (HAbs & HStat)%stat_key. unfold Exists. rewrite HAbs, HStat.
  now destruct (lookup k (nodes fs)).
Qed.

Lemma IsDir_key (fs : FS) (p k : string) :
  key fs p = Some k ->
  IsDir fs p = match lookup k (nodes fs) with
               | Some n => os.IsDir (os.Mode (info n))
               | None => false
               end.
Proof.
  intros (HAbs & HStat)%stat_key. unfold IsDir. rewrite HAbs, HStat.
  destruct (lookup k (nodes fs)); [|reflexivity]. cbv zeta.
  now destruct (os.IsDir (os.Mode (info n))).
Qed.

Lemma lookup_update_same (k : string) (n : Node) (ns : list (string * Node)) :
  lookup k (update k n ns) = Some n.
Proof.
  induction ns as [|[k0 n0] ns IH]; cbn [update lookup].
  - now rewrite String.eqb_refl.
  - destruct (k0 =? k) eqn:Hk; cbn [lookup]; [now rewrite String.eqb_refl | now rewrite Hk].
Qed.

Lemma lookup_update_other (k k' : string) (n : Node) (ns : list (string * Node)) :
  k' <> k -> lookup k' (update k n ns) = lookup k' ns.
Proof.
  intros Hne. induction ns as [|[k0 n0] ns IH]; cbn [update lookup].
  - destruct (String.eqb_spec k k'); [congruence | reflexivity].
  - destruct (String.eqb_spec k0 k) as [->|Hk0]; cbn [lookup].
    + destruct (String.eqb_spec k k'); [congruence | reflexivity].
    + now rewrite IH.
Qed.

Lemma lookup_erase (k k' : string) (ns : list (string * Node)) :
  lookup k' (erase k ns) = if k' =? k then None else lookup k' ns.
Proof.
  unfold erase. induction ns as [|[k0 n0] ns IH]; cbn [filter lookup fst].
  - now destruct (k' =? k).
  - destruct (String.eqb_spec k0 k) as [->|Hk0]; cbn [negb lookup].
    + rewrite IH. destruct (String.eqb_spec k' k) as [->|Hk']; [reflexivity|].
      destruct (String.eqb_spec k k'); [congruence | reflexivity].
    + rewrite IH. destruct (String.eqb_spec k0 k') as [->|]; [|reflexivity].
      now destruct (String.eqb_spec k' k).
Qed.

(** [os.Create] on the in-memory host. *)
Lemma Create_cases (fs : FS) (name : string) :
  os.Create fs name =
    match key fs name with
    | None => (fs, Err (PathError "open" name ENOENT))
    | Some k =>
        match lookup k (nodes fs) with
        | Some (Dir _) => (fs, Err (PathError "open" name EISDIR))
        | Some (File perm0 _) => alloc (withNodes fs (update k (File perm0 "") (nodes fs))) k
        | None =>
            match lookup (filepath.Dir k) (nodes fs) with
            | Some (Dir _) =>
                alloc (withNodes fs
                         (nodes fs ++ [(k, File (Z.land 438 (Z.lnot (umask fs))) "")])%list) k
            | _ => (fs, Err (PathError "open" name ENOENT))
            end
        end
    end.
Proof.
  unfold os.Create. cbn [os.OpenFile host]. unfold openFile.
  destruct (key fs name) as [k|]; [|reflexivity].
  destruct (lookup k (nodes fs)) as [[perm|perm data]|]; reflexivity.
Qed.

End MemfsQueries.

(** X14.  On the in-memory host, what [WriteBytes] wrote without error,
    [ReadBytes] reads back: the bytes of the file are exactly [data], whatever
    the file held before, the path exists, and no other entry has changed. *)
Theorem WriteBytes_ReadBytes (fs fs' : memfs.FS) (p : Path) (data : string) :
  WriteBytes fs p data = (fs', None) ->
  ReadBytes fs' p = (data, None) /\
  Exists fs' p = true /\
  (forall k n, memfs.key fs p <> Some k -> memfs.lookup k (memfs.nodes fs) = Some n ->
               memfs.lookup k (memfs.nodes fs') = Some n).
Proof.
  destruct (os.Create fs p) as [fs1 [fd|err]] eqn:HCreate.
  2:{ rewrite (WriteBytes_not_created _ _ _ data _ HCreate). discriminate. }
  rewrite (WriteBytes_created _ _ _ data _ HCreate).
  rewrite Create_cases in HCreate.
  destruct (memfs.key fs p) as [k|] eqn:Hkey; [|discriminate].
  assert (Hafter : exists perm,
            memfs.lookup k (memfs.nodes fs1) = Some (memfs.File perm "") /\
            memfs.nameOf fd (memfs.opened fs1) = Some k /\
            memfs.cwd fs1 = memfs.cwd fs /\
            (forall k' n, k' <> k -> memfs.lookup k' (memfs.nodes fs) = Some n ->
                          memfs.lookup k' (memfs.nodes fs1) = Some n)).
  { destruct (memfs.lookup k (memfs.nodes fs)) as [[perm|perm data0]|] eqn:Hk; [discriminate| |].
    - unfold memfs.alloc in HCreate. injection HCreate as <- <-. exists perm.
      cbn [memfs.nodes memfs.opened memfs.cwd memfs.withOpened memfs.withNodes memfs.nameOf].
      rewrite Nat.eqb_refl, lookup_update_same. repeat split.
      intros k' n Hne Hk'. now rewrite lookup_update_other.
    - destruct (memfs.lookup (filepath.Dir k) (memfs.nodes fs)) as [[perm|perm d0]|];
        try discriminate.
      unfold memfs.alloc in HCreate. injection HCreate as <- <-. eexists.
      cbn [memfs.nodes memfs.opened memfs.cwd memfs.withOpened memfs.withNodes memfs.nameOf].
      rewrite Nat.eqb_refl, lookup_app, Hk, String.eqb_refl. repeat split.
      intros k' n Hne Hk'. now rewrite lookup_app, Hk'. }
  destruct Hafter as (perm & Hk1 & Hfd & Hcwd & Hkeep).
  cbn [os.Write os.Close memfs.host]. unfold memfs.write. rewrite Hfd, Hk1.
  destruct (length data <=? memfs.space fs1)%nat; cbn [fst snd]; [|discriminate].
  unfold memfs.close.
  cbn [memfs.opened memfs.withSpace memfs.withNodes]. rewrite Hfd. cbn [fst].
  intros [= Hfs'].
  assert (Hnodes : memfs.nodes fs' =
                   memfs.update k (memfs.File perm data) (memfs.nodes fs1))
    by (now rewrite <- Hfs').
  assert (Hkey' : memfs.key fs' p = Some k).
  { rewrite <- Hkey. apply key_same_cwd. now rewrite <- Hfs'. }
  clear Hfs'. split; [|split].
  - destruct (stat_key _ _ _ Hkey') as (HAbs & _). unfold ReadBytes. rewrite HAbs.
    cbn [os.ReadFile memfs.files]. unfold memfs.readFile.
    rewrite (key_of_key _ _ _ _ Hkey'), Hnodes.
    now rewrite lookup_update_same.
  - rewrite (Exists_key _ _ _ Hkey'), Hnodes.
    now rewrite lookup_update_same.
  - intros k' n Hne Hk'. rewrite Hnodes.
    rewrite lookup_update_other by congruence. apply Hkeep; congruence.
Qed.

(** Five bytes in place of the eleven of [/etc/passwd]; the file as it is; and
    a relative path when the working directory is gone. *)
Lemma WriteBytes_ReadBytes_witness :
  ReadBytes (fst (WriteBytes memfs.sample "/etc/passwd" "hello")) "/etc/passwd"
    = ("hello", None) /\
  ReadBytes memfs.sample "/etc/passwd" = ("root:x:0:0", None) /\
  ReadBytes memfs.lost "passwd" = ("", Some (SyscallError "getwd" ENOENT)).
Proof.
  split; [|split; reflexivity].
  assert (Hrun : WriteBytes memfs.sample "/etc/passwd" "hello" =
                 (fst (WriteBytes memfs.sample "/etc/passwd" "hello"), None)) by reflexivity.
  apply (proj1 (WriteBytes_ReadBytes memfs.sample _ "/etc/passwd" "hello" Hrun)).
Defined.

(** ** Removing on the in-memory host *)

Section MemfsRemoval.

Import memfs.

Lemma lookup_filter (f : string -> bool) (k : string) (ns : list (string * Node)) :
  lookup k (filter (fun e => f (fst e)) ns) = if f k then lookup k ns else None.
Proof.
  induction ns as [|[k0 n0] ns IH]; cbn [filter lookup fst]; [now destruct (f k)|].
  destruct (String.eqb_spec k0 k) as [->|Hk0].
  - destruct (f k); cbn [lookup]; [now rewrite String.eqb_refl | exact IH].
  - destruct (f k0); cbn [lookup]; [|exact IH].
    destruct (String.eqb_spec k0 k); [contradiction | exact IH].
Qed.

Lemma lookup_In (k : string) (n : Node) (ns : list (string * Node)) :
  lookup k ns = Some n -> In k (map fst ns).
Proof.
  induction ns as [|[k0 n0] ns IH]; cbn [lookup map fst]; [discriminate|].
  destruct (String.eqb_spec k0 k); [now left | right; now apply IH].
Qed.

Lemma erase_absent (k : string) (ns : list (string * Node)) :
  lookup k ns = None -> erase k ns = ns.
Proof.
  unfold erase. induction ns as [|[k0 n0] ns IH]; cbn [lookup filter fst]; [reflexivity|].
  destruct (k0 =? k); [discriminate|]. intros Hk. cbn [negb]. now rewrite IH.
Qed.

Lemma IsDir_no_key (fs : FS) (p : string) :
  p <> "" -> key fs p = None -> IsDir fs p = false /\ Exists fs p = false.
Proof.
  intros Hp. unfold key, IsDir, Exists, filepath.Abs.
  destruct (String.eqb_spec p ""); [contradiction|].
  destruct (filepath.IsAbs p); [discriminate|].
  cbn [os.Getwd host]. unfold getwd.
  destruct (filepath.IsAbs (cwd fs)); [discriminate | now split].
Qed.

(** [os.Remove] on the in-memory host, for a name that has a key. *)
Lemma remove_cases (fs fs' : FS) (name : string) (e : option error) :
  os.Remove fs name = (fs', e) ->
  (fs' = fs /\ e <> None) \/
  (e = None /\
   exists k n,
     key fs name = Some k /\ lookup k (nodes fs) = Some n /\
     nodes fs' = erase k (nodes fs) /\ cwd fs' = cwd fs /\
     (forall perm, n = Dir perm -> forall k', under k k' = true -> lookup k' (nodes fs) = None)).
Proof.
  cbn [os.Remove files]. unfold remove.
  destruct (key fs name) as [k|]; [|intros [= <- <-]; left; now split].
  destruct (lookup k (nodes fs)) as [[perm|perm data]|] eqn:Hk.
  - destruct (existsb (under k) (map fst (nodes fs))) eqn:Hbelow.
    + intros [= <- <-]. left. now split.
    + intros [= <- <-]. right. split; [reflexivity|].
      exists k, (Dir perm). repeat split; [exact Hk|].
      intros _ _ k' Hunder. destruct (lookup k' (nodes fs)) as [n'|] eqn:Hk'; [|reflexivity].
      apply lookup_In in Hk'.
      assert (Hex : existsb (under k) (map fst (nodes fs)) = true)
        by (apply existsb_exists; now exists k').
      congruence.
  - intros [= <- <-]. right. split; [reflexivity|].
    exists k, (File perm data). repeat split; [exact Hk | discriminate].
  - intros [= <- <-]. left. now split.
Qed.

End MemfsRemoval.

Section MemfsTouch.

Import memfs.

(** What [Touch] does on the in-memory host: nothing, or it adds an empty
    file. *)
Lemma Touch_cases (fs fs' : FS) (p : Path) (e : option error) :
  Touch fs p = (fs', e) ->
  (fs' = fs /\ (Exists fs p = true /\ e = None \/ Exists fs p = false /\ e <> None)) \/
  (Exists fs p = false /\ e = None /\
   exists k,
     key fs p = Some k /\ lookup k (nodes fs) = None /\
     lookup (filepath.Dir k) (nodes fs) <> None /\
     nodes fs' = (nodes fs ++ [(k, File (Z.land 438 (Z.lnot (umask fs))) "")])%list /\
     cwd fs' = cwd fs).
Proof.
  unfold Touch. destruct (Exists fs p) eqn:HExists.
  { intros [= <- <-]. left. split; [reflexivity | now left]. }
  rewrite Create_cases.
  destruct (key fs p) as [k|] eqn:Hkey.
  2:{ intros [= <- <-]. left. split; [reflexivity | now right]. }
  rewrite (Exists_key _ _ _ Hkey) in HExists.
  destruct (lookup k (nodes fs)) as [n|] eqn:Hk; [discriminate|].
  destruct (lookup (filepath.Dir k) (nodes fs)) as [[perm|perm data]|] eqn:Hparent.
  2,3: intros [= <- <-]; left; split; [reflexivity | now right].
  unfold alloc. cbn [os.Close host]. unfold close.
  cbn [opened withOpened nameOf]. rewrite Nat.eqb_refl.
  intros [= <- <-]. right. repeat split. exists k. repeat split; congruence.
Qed.

End MemfsTouch.

(** X15.  On the in-memory host [Touch] leaves the state as it is when the
    path exists (it neither truncates a file nor changes anything of a
    directory) and when it fails; when it succeeds on a path that did not
    exist, the path exists afterwards as an empty file with the mode
    [0666 &^ umask], its parent directory was there before ([Touch] creates
    no directory), and every entry that was there is unchanged. *)
Theorem Touch_spec (fs fs' : memfs.FS) (p : Path) (e : option error) :
  Touch fs p = (fs', e) ->
  (Exists fs p = true -> fs' = fs /\ e = None) /\
  (e <> None -> fs' = fs) /\
  (e = None -> Exists fs' p = true) /\
  (forall k n, memfs.lookup k (memfs.nodes fs) = Some n ->
               memfs.lookup k (memfs.nodes fs') = Some n) /\
  (Exists fs p = false -> e = None ->
   exists k,
     memfs.key fs p = Some k /\
     memfs.lookup k (memfs.nodes fs') =
       Some (memfs.File (Z.land 438 (Z.lnot (memfs.umask fs))) "") /\
     memfs.lookup (filepath.Dir k) (memfs.nodes fs) <> None).
Proof.
  intros [(-> & [(HExists & ->)|(HExists & He)])
         |(HExists & -> & k & Hkey & Hk & Hparent & Hnodes & Hcwd)]%Touch_cases.
  - repeat split; auto; congruence.
  - repeat split; auto; congruence.
  - assert (Hnew : memfs.lookup k (memfs.nodes fs') =
                   Some (memfs.File (Z.land 438 (Z.lnot (memfs.umask fs))) ""))
      by (rewrite Hnodes, lookup_app, Hk; now rewrite String.eqb_refl).
    repeat split; try congruence.
    + intros _. rewrite (Exists_key fs' p k), Hnew; [reflexivity|].
      now rewrite (key_same_cwd fs fs' p Hcwd).
    + intros k' n Hk'. rewrite Hnodes, lookup_app. now rewrite Hk'.
    + intros _ _. now exists k.
Qed.

(** A new file in the working directory; a file that exists; and a file in
    a directory that does not exist. *)
Lemma Touch_spec_witness :
  Exists memfs.sample "f" = false /\
  Exists (fst (Touch memfs.sample "f")) "f" = true /\
  Touch memfs.sample "/etc/passwd" = (memfs.sample, None) /\
  Touch memfs.sample "a/f" = (memfs.sample, Some (PathError "open" "a/f" ENOENT)).
Proof.
  split; [reflexivity|]. split; [|split; reflexivity].
  assert (Hrun : Touch memfs.sample "f" = (fst (Touch memfs.sample "f"), None)) by reflexivity.
  apply (proj1 (proj2 (proj2 (Touch_spec memfs.sample _ "f" None Hrun)))). reflexivity.
Defined.

Section MemfsUnlink.

Import memfs.

Lemma created_file_not_dir (fs : FS) :
  os.IsDir (os.Mode (info (File (Z.land 438 (Z.lnot (umask fs))) ""))) = false.
Proof.
  cbn [info os.Mode]. unfold os.IsDir, os.ModeDir.
  rewrite (Z.land_comm 438), <- Z.land_assoc.
  change (Z.land 438 (Z.shiftl 1 31)) with 0%Z. now rewrite Z.land_0_r.
Qed.

End MemfsUnlink.

(** X16.  On the in-memory host [Unlink] refuses a directory and leaves the
    state as it is whenever it returns an error; when it succeeds the path no
    longer exists.  It never removes a directory, and never touches an entry
    other than that of its path. *)
Theorem Unlink_spec (fs fs' : memfs.FS) (p : Path) (e : option error) :
  Unlink fs p = (fs', e) ->
  (IsDir fs p = true ->
   fs' = fs /\ e = Some (fmt.Errorf (p ++ " is a directory.  Use Rmdir() instead."))) /\
  (e <> None -> fs' = fs) /\
  (e = None -> Exists fs' p = false) /\
  (forall k perm, memfs.lookup k (memfs.nodes fs) = Some (memfs.Dir perm) ->
                  memfs.lookup k (memfs.nodes fs') = Some (memfs.Dir perm)) /\
  (forall k n, memfs.key fs p <> Some k -> memfs.lookup k (memfs.nodes fs) = Some n ->
               memfs.lookup k (memfs.nodes fs') = Some n).
Proof.
  unfold Unlink. destruct (IsDir fs p) eqn:HIsDir.
  { intros [= <- <-]. repeat split; auto; discriminate. }
  intros [(-> & He)|(-> & k & n & Hkey & Hk & Hnodes & Hcwd & _)]%remove_cases.
  { repeat split; auto; try discriminate. intros ->. contradiction. }
  rewrite (IsDir_key _ _ _ Hkey), Hk in HIsDir.
  split; [discriminate|]. split; [intros He; now contradiction He|]. split; [|split].
  - intros _. rewrite (Exists_key fs' p k) by (now rewrite (key_same_cwd fs fs' p Hcwd)).
    rewrite Hnodes, lookup_erase. now rewrite String.eqb_refl.
  - intros k' perm Hk'. rewrite Hnodes, lookup_erase.
    destruct (String.eqb_spec k' k) as [->|_]; [|exact Hk'].
    rewrite Hk in Hk'. injection Hk' as ->. cbn [memfs.info os.Mode] in HIsDir.
    now rewrite IsDir_ModeDir in HIsDir.
  - intros k' n' Hne Hk'. rewrite Hnodes, lookup_erase.
    destruct (String.eqb_spec k' k) as [->|_]; [congruence | exact Hk'].
Qed.

(** A directory, a file, and a path that does not exist. *)
Lemma Unlink_spec_witness :
  Unlink memfs.sample "/usr" =
    (memfs.sample, Some (fmt.Errorf "/usr is a directory.  Use Rmdir() instead.")) /\
  Exists (fst (Unlink memfs.sample "/etc/passwd")) "/etc/passwd" = false /\
  Unlink memfs.sample "/nowhere" = (memfs.sample, Some (PathError "remove" "/nowhere" ENOENT)).
Proof.
  split; [reflexivity|]. split; [|reflexivity].
  assert (Hrun : Unlink memfs.sample "/etc/passwd" =
                 (fst (Unlink memfs.sample "/etc/passwd"), None)) by reflexivity.
  apply (proj1 (proj2 (proj2 (Unlink_spec memfs.sample _ "/etc/passwd" None Hrun)))).
  reflexivity.
Defined.

(** X17.  On the in-memory host [Rmdir] refuses what is not a directory
    (a path that does not exist included) and leaves the state as it is
    whenever it returns an error; on a directory with an entry below it, it
    fails with [ENOTEMPTY]; when it succeeds the path no longer exists, and
    no other entry is touched. *)
Theorem Rmdir_spec (fs fs' : memfs.FS) (p : Path) (e : option error) :
  Rmdir fs p = (fs', e) ->
  (IsDir fs p = false ->
   fs' = fs /\ e = Some (fmt.Errorf (p ++ " is not a directory.  Use Unlink() instead."))) /\
  (e <> None -> fs' = fs) /\
  (e = None -> Exists fs' p = false) /\
  (forall k n, memfs.key fs p <> Some k -> memfs.lookup k (memfs.nodes fs) = Some n ->
               memfs.lookup k (memfs.nodes fs') = Some n) /\
  (forall k perm k' n',
     memfs.key fs p = Some k -> memfs.lookup k (memfs.nodes fs) = Some (memfs.Dir perm) ->
     memfs.under k k' = true -> memfs.lookup k' (memfs.nodes fs) = Some n' ->
     fs' = fs /\ e = Some (PathError "remove" p ENOTEMPTY)).
Proof.
  unfold Rmdir. destruct (IsDir fs p) eqn:HIsDir; cbn [negb].
  2:{ intros [= <- <-]. split; [auto|]. split; [auto|]. split; [discriminate|].
      split; [auto|]. intros k perm k' n' Hkey Hk _ _.
      rewrite (lookup_IsDir _ _ _ _ Hkey Hk) in HIsDir. discriminate. }
  intros Hrun. split; [discriminate|].
  assert (Hfull : forall k perm k' n',
     memfs.key fs p = Some k -> memfs.lookup k (memfs.nodes fs) = Some (memfs.Dir perm) ->
     memfs.under k k' = true -> memfs.lookup k' (memfs.nodes fs) = Some n' ->
     fs' = fs /\ e = Some (PathError "remove" p ENOTEMPTY)).
  { intros k perm k' n' Hkey Hk Hunder Hk'.
    cbn [os.Remove memfs.files] in Hrun. unfold memfs.remove in Hrun.
    rewrite Hkey, Hk in Hrun.
    assert (Hex : existsb (memfs.under k) (map fst (memfs.nodes fs)) = true).
    { apply existsb_exists. exists k'. split; [|exact Hunder]. now apply lookup_In in Hk'. }
    rewrite Hex in Hrun. now injection Hrun as <- <-. }
  apply remove_cases in Hrun as [(-> & He)|(-> & k & n & Hkey & Hk & Hnodes & Hcwd & _)].
  { split; [auto|]. split; [intros ->; contradiction|]. split; [auto | exact Hfull]. }
  split; [intros He; now contradiction He|]. split; [|split; [|exact Hfull]].
  - intros _. rewrite (Exists_key fs' p k) by (now rewrite (key_same_cwd fs fs' p Hcwd)).
    rewrite Hnodes, lookup_erase. now rewrite String.eqb_refl.
  - intros k' n' Hne Hk'. rewrite Hnodes, lookup_erase.
    destruct (String.eqb_spec k' k) as [->|_]; [congruence | exact Hk'].
Qed.

(** [/etc] holds three files; [/usr] is empty; [/etc/passwd] is a file. *)
Lemma Rmdir_spec_witness :
  (fst (Rmdir memfs.sample "/etc") = memfs.sample /\
   snd (Rmdir memfs.sample "/etc") = Some (PathError "remove" "/etc" ENOTEMPTY)) /\
  Exists (fst (Rmdir memfs.sample "/usr")) "/usr" = false /\
  Rmdir memfs.sample "/etc/passwd" =
    (memfs.sample, Some (fmt.Errorf "/etc/passwd is not a directory.  Use Unlink() instead.")).
Proof.
  split; [|split; [|reflexivity]].
  - assert (Hrun : Rmdir memfs.sample "/etc" =
                   (fst (Rmdir memfs.sample "/etc"), snd (Rmdir memfs.sample "/etc")))
      by reflexivity.
    apply (proj2 (proj2 (proj2 (proj2 (Rmdir_spec memfs.sample _ "/etc" _ Hrun))))
             "/etc" 493%Z "/etc/passwd" (memfs.File 420 "root:x:0:0")); reflexivity.
  - assert (Hrun : Rmdir memfs.sample "/usr" = (fst (Rmdir memfs.sample "/usr"), None))
      by reflexivity.
    apply (proj1 (proj2 (proj2 (Rmdir_spec memfs.sample _ "/usr" None Hrun)))). reflexivity.
Defined.

(** X18.  On the in-memory host [RmdirRecursive] refuses what is not a
    directory and leaves the state as it is whenever it returns an error, and
    for the empty path, on which it removes nothing even when it reports no
    error.  When it succeeds on another path, the directory and every entry
    below it are gone, and every other entry is as before. *)
Theorem RmdirRecursive_spec (fs fs' : memfs.FS) (p : Path) (e : option error) :
  RmdirRecursive fs p = (fs', e) ->
  (IsDir fs p = false ->
   fs' = fs /\ e = Some (fmt.Errorf (p ++ " is not a directory.  Use Unlink() instead."))) /\
  (e <> None -> fs' = fs) /\
  (p = "" -> fs' = fs) /\
  (p <> "" -> e = None ->
   Exists fs' p = false /\
   exists k,
     memfs.key fs p = Some k /\
     forall k',
       memfs.lookup k' (memfs.nodes fs') =
         if (k' =? k) || memfs.under k k' then None else memfs.lookup k' (memfs.nodes fs)).
Proof.
  unfold RmdirRecursive. destruct (IsDir fs p) eqn:HIsDir; cbn [negb].
  2:{ intros [= <- <-]. repeat split; auto; discriminate. }
  cbn [os.RemoveAll memfs.files]. unfold memfs.removeAll.
  destruct (String.eqb_spec p "") as [->|Hp].
  { intros [= <- <-]. split; [congruence|]. split; [auto|]. split; [auto|].
    intros Hp. now contradiction Hp. }
  destruct (memfs.endsWithDot p).
  { intros [= <- <-]. repeat split; auto; discriminate. }
  destruct (memfs.key fs p) as [k|] eqn:Hkey.
  2:{ destruct (IsDir_no_key fs p Hp Hkey). congruence. }
  intros [= <- <-]. split; [discriminate|]. split; [intros He; now contradiction He|].
  split; [intros ->; now contradiction Hp|]. intros _ _.
  assert (Hlookup : forall k',
            memfs.lookup k'
              (filter (fun e => negb ((fst e =? k) || memfs.under k (fst e))) (memfs.nodes fs)) =
            if (k' =? k) || memfs.under k k' then None else memfs.lookup k' (memfs.nodes fs)).
  { intros k'.
    rewrite (lookup_filter (fun x => negb ((x =? k) || memfs.under k x)) k').
    now destruct ((k' =? k) || memfs.under k k'). }
  split.
  - rewrite (Exists_key _ p k) by (rewrite <- Hkey; now apply key_same_cwd).
    cbn [memfs.nodes memfs.withNodes]. rewrite Hlookup. now rewrite String.eqb_refl.
  - exists k. split; [reflexivity|]. intros k'. cbn [memfs.nodes memfs.withNodes]. apply Hlookup.
Qed.

(** [/etc] goes with its files and [/usr] stays; on the empty path, which
    stands for the working directory, nothing is removed and no error returned. *)
Lemma RmdirRecursive_spec_witness :
  Exists (fst (RmdirRecursive memfs.sample "/etc")) "/etc" = false /\
  Exists (fst (RmdirRecursive memfs.sample "/etc")) "/etc/passwd" = false /\
  Exists (fst (RmdirRecursive memfs.sample "/etc")) "/usr" = true /\
  RmdirRecursive memfs.sample "" = (memfs.sample, None).
Proof.
  split; [|repeat split; reflexivity].
  assert (Hrun : RmdirRecursive memfs.sample "/etc" =
                 (fst (RmdirRecursive memfs.sample "/etc"), None)) by reflexivity.
  apply (proj2 (proj2 (proj2 (RmdirRecursive_spec memfs.sample _ "/etc" None Hrun))));
    [discriminate | reflexivity].
Defined.

(** X19.  On the in-memory host, [Unlink] undoes [Touch]: after a [Touch]
    that created the file, [Unlink] of the same path succeeds, and the table
    of entries is again what it was before the [Touch]. *)
Theorem Touch_Unlink (fs fs1 : memfs.FS) (p : Path) :
  Exists fs p = false -> Touch fs p = (fs1, None) ->
  exists fs2,
    Unlink fs1 p = (fs2, None) /\ memfs.nodes fs2 = memfs.nodes fs /\ Exists fs2 p = false.
Proof.
  intros HExists
    [(_ & [(HE & _)|(_ & He)])|(_ & _ & k & Hkey & Hk & _ & Hnodes & Hcwd)]%Touch_cases;
    [congruence | now contradiction He |].
  assert (Hkey1 : memfs.key fs1 p = Some k) by (now rewrite (key_same_cwd fs fs1 p Hcwd)).
  assert (Hk1 : memfs.lookup k (memfs.nodes fs1) =
                Some (memfs.File (Z.land 438 (Z.lnot (memfs.umask fs))) ""))
    by (rewrite Hnodes, lookup_app, Hk; now rewrite String.eqb_refl).
  unfold Unlink. rewrite (IsDir_key _ _ _ Hkey1), Hk1, created_file_not_dir.
  cbn [os.Remove memfs.files]. unfold memfs.remove. rewrite Hkey1, Hk1.
  eexists. split; [reflexivity|].
  cbn [memfs.nodes memfs.withNodes].
  assert (Herase : memfs.erase k (memfs.nodes fs1) = memfs.nodes fs).
  { rewrite Hnodes. unfold memfs.erase. rewrite filter_app. cbn [filter fst].
    rewrite String.eqb_refl. cbn [negb]. rewrite app_nil_r. now apply erase_absent. }
  split; [exact Herase|].
  rewrite (Exists_key _ p k) by (rewrite <- Hkey1; now apply key_same_cwd).
  cbn [memfs.nodes memfs.withNodes]. now rewrite Herase, Hk.
Qed.

(** A new file in the working directory, created and removed. *)
Lemma Touch_Unlink_witness :
  exists fs2,
    Unlink (fst (Touch memfs.sample "f")) "f" = (fs2, None) /\
    memfs.nodes fs2 = memfs.nodes memfs.sample /\ Exists fs2 "f" = false.
Proof.
  assert (Hrun : Touch memfs.sample "f" = (fst (Touch memfs.sample "f"), None)) by reflexivity.
  exact (Touch_Unlink memfs.sample _ "f" eq_refl Hrun).
Defined.

(** X20.  [Mkdir] is not idempotent: on the in-memory host, a [Mkdir] that
    succeeded makes a second [Mkdir] of the same path fail with the error of
    an existing path, the state unchanged. *)
Theorem Mkdir_twice (fs fs' : memfs.FS) (p : Path) :
  Mkdir fs p = (fs', None) ->
  Mkdir fs' p =
    (fs', Some (fmt.Errorf ("Cannot make directory " ++ p ++ " because it already exists"))).
Proof.
  unfold Mkdir at 1. destruct (Exists fs p); [discriminate|].
  cbn [os.MkdirAll memfs.host]. unfold memfs.mkdirAll.
  destruct (memfs.key fs p) as [k|] eqn:Hkey; [|discriminate].
  destruct (memfs.mkdirs _ (memfs.ancestors k) (memfs.nodes fs)) as [ns [err|]] eqn:Hmk;
    [discriminate|].
  intros [= <-].
  destruct (mkdirs_spec _ _ _ _ Hmk) as (_ & Hdirs).
  destruct (Hdirs k) as (perm & Hk & _).
  { apply self_in_ancestors. apply key_Abs in Hkey as (_ & Hrooted & _).
    now apply IsAbs_nonempty. }
  unfold Mkdir. rewrite (Exists_key _ p k) by (rewrite <- Hkey; now apply key_same_cwd).
  cbn [memfs.nodes memfs.withNodes]. now rewrite Hk.
Qed.

(** [a/b/c] below [/tmp], twice. *)
Lemma Mkdir_twice_witness :
  Mkdir (fst (Mkdir memfs.sample "a/b/c")) "a/b/c" =
    (fst (Mkdir memfs.sample "a/b/c"),
     Some (fmt.Errorf "Cannot make directory a/b/c because it already exists")).
Proof.
  assert (Hrun : Mkdir memfs.sample "a/b/c" = (fst (Mkdir memfs.sample "a/b/c"), None))
    by reflexivity.
  exact (Mkdir_twice memfs.sample _ "a/b/c" Hrun).
Defined.

(** ** [Open] *)

Section OpenNoTruncate.

Context {FS : Type} {H : os.Host FS}.

(** The flag word holds neither [O_TRUNC] nor any bit besides the access
    mode, [O_APPEND] and [O_CREATE]. *)
Lemma openFlag_bits (fs : FS) (p : Path) (mode : string) :
  Z.land (openFlag fs p mode) os.O_TRUNC = 0%Z /\
  Z.land (openFlag fs p mode) (Z.lnot 1091) = 0%Z /\
  Z.land (openFlag fs p mode) os.O_CREATE = (if Exists fs p then 0%Z else os.O_CREATE).
Proof.
  rewrite openFlag_eq.
  destruct (strings.Contains mode "r"), (strings.Contains mode "w"),
    (strings.Contains mode "+"), (Exists fs p); repeat split; reflexivity.
Qed.

End OpenNoTruncate.

(** X21.  The flag word of [OpenWithPermissions] never holds [O_TRUNC], nor
    any bit besides the access mode, [O_APPEND] and [O_CREATE], whatever the
    mode string.  So on the in-memory host opening changes no entry that
    exists, in mode [w] as in any other; and [Open] of a path that does not
    exist creates an empty file with the mode [0755 &^ umask], in mode [r]
    too. *)
Theorem Open_never_truncates :
  (forall (FS : Type) (H : os.Host FS) (fs : FS) (p : Path) (mode : string),
     Z.land (openFlag fs p mode) os.O_TRUNC = 0%Z /\
     Z.land (openFlag fs p mode) (Z.lnot 1091) = 0%Z) /\
  (forall (fs fs' : memfs.FS) (p : Path) (mode : string) (perms : os.FileMode)
          (r : result os.File),
     OpenWithPermissions fs p mode perms = (fs', r) ->
     forall k n, memfs.lookup k (memfs.nodes fs) = Some n ->
                 memfs.lookup k (memfs.nodes fs') = Some n) /\
  (forall (fs fs' : memfs.FS) (p : Path) (mode : string) (f : os.File),
     Exists fs p = false -> Open fs p mode = (fs', Ok f) ->
     exists k,
       memfs.key fs p = Some k /\
       memfs.lookup k (memfs.nodes fs') =
         Some (memfs.File (Z.land 493 (Z.lnot (memfs.umask fs))) "")).
Proof.
  split; [|split].
  - intros FS H fs p mode. destruct (openFlag_bits fs p mode) as (? & ? & _). now split.
  - intros fs fs' p mode perms r. unfold OpenWithPermissions.
    destruct (IsDir fs p); [now intros [= <- <-]|].
    cbn [os.OpenFile memfs.host]. unfold memfs.openFile.
    destruct (memfs.key fs p) as [k|]; [|now intros [= <- <-]].
    destruct (memfs.lookup k (memfs.nodes fs)) as [[perm|perm data]|] eqn:Hk.
    + destruct (os.accessMode (openFlag fs p mode) =? os.O_RDONLY)%Z;
        unfold memfs.alloc; now intros [= <- <-].
    + unfold memfs.hasFlag. destruct (openFlag_bits fs p mode) as (-> & _).
      cbn [Z.eqb negb]. unfold memfs.alloc. now intros [= <- <-].
    + destruct (memfs.hasFlag (openFlag fs p mode) os.O_CREATE); [|now intros [= <- <-]].
      destruct (memfs.lookup (filepath.Dir k) (memfs.nodes fs)) as [[perm|perm data]|];
        try (now intros [= <- <-]).
      unfold memfs.alloc. intros [= <- <-] k' n Hk'.
      cbn [memfs.nodes memfs.withOpened memfs.withNodes]. rewrite lookup_app. now rewrite Hk'.
  - intros fs fs' p mode f HExists. unfold Open, OpenWithPermissions.
    destruct (IsDir fs p); [discriminate|].
    cbn [os.OpenFile memfs.host]. unfold memfs.openFile.
    destruct (memfs.key fs p) as [k|] eqn:Hkey; [|discriminate].
    rewrite (Exists_key _ _ _ Hkey) in HExists.
    destruct (memfs.lookup k (memfs.nodes fs)) as [n|] eqn:Hk; [discriminate|].
    destruct (memfs.hasFlag (openFlag fs p mode) os.O_CREATE); [|discriminate].
    destruct (memfs.lookup (filepath.Dir k) (memfs.nodes fs)) as [[perm|perm data]|];
      try discriminate.
    unfold memfs.alloc. intros [= <- _]. exists k. split; [reflexivity|].
    cbn [memfs.nodes memfs.withOpened memfs.withNodes].
    rewrite lookup_app, Hk. now rewrite String.eqb_refl.
Qed.

(** [/etc/passwd] opened in mode [w] keeps its bytes; [f], which does not
    exist, opened in mode [r], is created with the mode [0755 &^ 027 = 0750]. *)
Lemma Open_never_truncates_witness :
  memfs.lookup "/etc/passwd" (memfs.nodes (fst (Open memfs.sample "/etc/passwd" "w")))
    = Some (memfs.File 420 "root:x:0:0") /\
  memfs.lookup "/tmp/f" (memfs.nodes (fst (Open memfs.sample "f" "r")))
    = Some (memfs.File 488 "").
Proof.
  split.
  - assert (Hrun : OpenWithPermissions memfs.sample "/etc/passwd" "w" 493%Z =
                   (fst (Open memfs.sample "/etc/passwd" "w"),
                    snd (Open memfs.sample "/etc/passwd" "w"))) by reflexivity.
    apply (proj1 (proj2 Open_never_truncates) memfs.sample _ "/etc/passwd" "w" 493%Z _ Hrun).
    reflexivity.
  - reflexivity.
Defined.

(** ** [Rename] *)

(** [Rename] hands both names to [os.Rename] as they are.  On the in-memory
    host: a file moved to another directory, a directory moved with what it
    holds, an existing directory refused as a target, and a source that does
    not exist. *)
Example Rename_cases :
  ReadBytes (fst (Rename memfs.sample "/etc/passwd" "/tmp/pw")) "/tmp/pw"
    = ("root:x:0:0", None) /\
  Exists (fst (Rename memfs.sample "/etc/passwd" "/tmp/pw")) "/etc/passwd" = false /\
  Exists (fst (Rename memfs.sample "/etc" "/tmp/etc")) "/tmp/etc/passwd" = true /\
  Exists (fst (Rename memfs.sample "/etc" "/tmp/etc")) "/etc" = false /\
  Rename memfs.sample "/etc/passwd" "/usr" =
    (memfs.sample, Some (PathError "rename" "/etc/passwd" EEXIST)) /\
  Rename memfs.sample "/nowhere" "/tmp/x" =
    (memfs.sample, Some (PathError "rename" "/nowhere" ENOENT)).
Proof. repeat split; reflexivity. Qed.

(** ** [Parent] *)

(** X22.  [Parent] is lexical: it cleans the path cut after its last
    separator.  So the parent is a clean path, never empty, rooted exactly
    when the path is; and the parent of a path that ends in a separator is
    that path itself, cleaned, not the directory above it. *)
Theorem Parent_spec (p : Path) :
  (exists d, p = d ++ lastSegment p /\ Parent p = filepath.Clean d) /\
  filepath.Clean (Parent p) = Parent p /\
  Parent p <> "" /\
  filepath.IsAbs (Parent p) = filepath.IsAbs p /\
  (lastSegment p = "" -> Parent p = filepath.Clean p).
Proof.
  destruct (lastSegment_spec p) as (d & Hp & He & Hd).
  assert (HParent : Parent p = filepath.Clean d).
  { rewrite Hp at 1. now apply Parent_dir_name. }
  split; [now exists d|]. rewrite HParent.
  split; [apply Clean_idempotent|]. split; [apply Clean_nonempty|]. split.
  - rewrite Clean_IsAbs, Hp. destruct d as [|c d].
    + cbn [append]. destruct (lastSegment p) as [|c e] eqn:Hlast; [reflexivity|].
      symmetry. apply isElement_not_rooted. split; [discriminate | exact He].
    + symmetry. now apply IsAbs_append.
  - intros Hlast. rewrite Hlast, append_nil_r in Hp. now rewrite <- Hp.
Qed.

(** A directory spelled with a trailing separator is its own parent. *)
Lemma Parent_spec_witness : Parent "/var/log/" = "/var/log" /\ Parent "/var/log" = "/var".
Proof.
  split; [|reflexivity].
  apply (proj2 (proj2 (proj2 (proj2 (Parent_spec "/var/log/"))))). reflexivity.
Defined.

(** ** What [Resolve] returns *)

Section ResolveExists.

Context {FS : Type} {H : os.Host FS} {R : RootedGetwd H}.

(** X23.  On a host whose working directory is rooted, [Resolve] succeeds
    exactly when [Exists] is true, and the path it then returns is rooted and
    clean, exists, and is for [IsDir], [IsFile] and [Permissions] what the
    path it was given is. *)
Theorem Resolve_same_entry (fs : FS) (p : Path) :
  (snd (Resolve fs p) = None <-> Exists fs p = true) /\
  (forall q, Resolve fs p = (q, None) ->
     filepath.IsAbs q = true /\ filepath.Clean q = q /\
     Exists fs q = true /\
     IsDir fs q = IsDir fs p /\ IsFile fs q = IsFile fs p /\
     Permissions fs q = Permissions fs p).
Proof.
  unfold Resolve.
  destruct (filepath.Abs fs p) as [absPath|err] eqn:HAbs; cbv zeta.
  2:{ split; [|discriminate]. unfold Exists. rewrite HAbs. cbn [snd]. now split. }
  pose proof (Abs_rooted fs p absPath HAbs) as Hrooted.
  pose proof (Abs_of_absolute fs p absPath HAbs Hrooted) as HAbs2.
  assert (HE : Exists fs absPath = Exists fs p)
    by (unfold Exists; now rewrite HAbs, HAbs2).
  rewrite HE. split.
  - destruct (Exists fs p); cbn [negb snd]; now split.
  - destruct (Exists fs p) eqn:HExists; cbn [negb]; [|discriminate].
    intros q [= <-]. split; [exact Hrooted|].
    split; [exact (Abs_clean fs p absPath HAbs Hrooted)|].
    split; [exact HE|].
    unfold IsDir, IsFile, Permissions. now rewrite HAbs, HAbs2.
Qed.

End ResolveExists.

(** [passwd] seen from [/etc]'s sibling [/tmp]. *)
Lemma Resolve_same_entry_witness :
  snd (Resolve memfs.sample "../etc/passwd") = None /\
  IsFile memfs.sample "/etc/passwd" = IsFile memfs.sample "../etc/passwd".
Proof.
  split.
  - apply (proj1 (Resolve_same_entry memfs.sample "../etc/passwd")). reflexivity.
  - assert (Hrun : Resolve memfs.sample "../etc/passwd" = ("/etc/passwd", None)) by reflexivity.
    apply (proj2 (Resolve_same_entry memfs.sample "../etc/passwd") _ Hrun).
Defined.

(** ** What [Glob] returns *)

Section GlobExtension.

Context {FS : Type} {H : os.Host FS}.

(** A plain element joined to a directory ends the result. *)
Lemma Join_dir_plain (dir n : string) :
  plainElement n = true ->
  exists d, filepath.Join [dir; n] = d ++ n /\ (d = "" \/ exists d', d = d' ++ "/").
Proof.
  intros Hn. assert (Hel : isElement n).
  { apply plainElement_spec in Hn. tauto. }
  destruct (string_dec dir "") as [->|Hdir].
  - assert (Hne : n <> "") by apply Hel.
    pose proof (Join_first_nonempty [""] [] n (Forall_cons _ eq_refl (Forall_nil _)) Hne)
      as HJ.
    cbn [app flat_map] in HJ. change (elements "") with (@nil string) in HJ.
    rewrite app_nil_r in HJ. cbn [app] in HJ. rewrite (elements_single n Hel) in HJ.
    destruct (cleanOf_snoc_plain (filepath.IsAbs n) [] n (Forall_nil _) Hn)
      as (d & Hd & Hshape & _).
    exists d. split; [|exact Hshape]. etransitivity; [exact HJ | exact Hd].
  - rewrite (Join_elements dir n Hdir), (elements_single n Hel).
    destruct (cleanOf_snoc_plain (filepath.IsAbs dir) (elements dir) n
                (elements_are_elements dir) Hn) as (d & Hd & Hshape & _).
    now exists d.
Qed.

(** A name that ends with a dot and an extension is a plain element. *)
Lemma plainElement_extension (pre ext : string) :
  ext <> "" -> plainExt ext = true -> noByte "/" pre = true ->
  plainElement (pre ++ "." ++ ext) = true.
Proof.
  intros Hext Hplain Hpre.
  pose proof (Ext_dot pre ext Hplain) as HExt.
  unfold plainExt in Hplain. apply andb_prop in Hplain as (_ & Hsep).
  unfold plainElement.
  assert (Hno : noByte "/" (pre ++ "." ++ ext) = true).
  { rewrite !noByte_append. rewrite Hpre, Hsep. reflexivity. }
  rewrite Hno.
  destruct (String.eqb_spec (pre ++ "." ++ ext) "") as [E|_].
  { destruct pre; discriminate E. }
  destruct (String.eqb_spec (pre ++ "." ++ ext) ".") as [E|_].
  { rewrite E in HExt. destruct ext; [congruence | discriminate HExt]. }
  destruct (String.eqb_spec (pre ++ "." ++ ext) "..") as [E|_].
  { rewrite E in HExt. destruct ext; [congruence | discriminate HExt]. }
  reflexivity.
Qed.

(** What the pattern [*.ext] lists below a directory has the extension
    [.ext]. *)
Lemma Globbed_extension (fs : FS) (dir ext m : string) :
  ext <> "" -> plainExt ext = true -> filepath.hasMeta ext = false ->
  Globbed fs (filepath.Join [dir; "*." ++ ext]) m ->
  filepath.Ext m = "." ++ ext.
Proof.
  intros Hext Hplain Hmeta HG.
  assert (Hsep : noByte "/" ext = true).
  { unfold plainExt in Hplain. now apply andb_prop in Hplain as (_ & Hsep). }
  assert (Hpat : plainElement ("*." ++ ext) = true).
  { unfold plainElement. cbn [append noByte String.eqb Ascii.eqb Bool.eqb negb andb].
    rewrite Hsep. destruct ext; reflexivity. }
  destruct (Join_dir_plain dir ("*." ++ ext) Hpat) as (d & HJ & Hd).
  rewrite HJ in HG.
  assert (HSplit : filepath.Split (d ++ "*." ++ ext) = (d, "*." ++ ext)).
  { apply Split_dir_name; [|exact Hd]. cbn [append noByte]. now rewrite Hsep. }
  assert (HhasMeta : filepath.hasMeta (d ++ "*." ++ ext) = true).
  { rewrite hasMeta_append. cbn [append]. rewrite (hasMeta_cons "*").
    change (Ascii.eqb "*" "*") with true. cbn [orb]. apply orb_true_r. }
  assert (Hlit : filepath.hasMeta ("." ++ ext) = false).
  { cbn [append]. rewrite hasMeta_cons. now rewrite Hmeta. }
  assert (Hname : forall dir' n,
            filepath.Match (snd (filepath.Split (d ++ "*." ++ ext))) n = Ok true ->
            filepath.Ext (filepath.Join [dir'; n]) = "." ++ ext).
  { intros dir' n HM. rewrite HSplit in HM. cbn [snd] in HM.
    change ("*." ++ ext) with (String "*" ("." ++ ext)) in HM.
    apply Match_star_literal in HM as (pre & -> & Hpre); [|discriminate | exact Hlit].
    destruct (Join_dir_plain dir' (pre ++ "." ++ ext)
                (plainElement_extension pre ext Hext Hplain Hpre)) as (d' & -> & _).
    rewrite <- append_assoc. now apply Ext_dot. }
  inversion HG; subst; try congruence; now apply Hname.
Qed.

End GlobExtension.



